(** * The recipe-site maintenance scripts, embedded and verified

    Three stand-alone Python scripts are modelled here:
    - [convert-to-webp.py]                  (module [Converter]),
    - [scripts/create-responsive-images.py] (module [Responsive]),
    - [scripts/generate-sitemap.py]         (module [Sitemap]).

    Python values are embedded shallowly: integers are [Z], floats are
    IEEE-754 binary64 numbers computed with the reference operations of
    [SpecFloat], strings are [string], dictionaries with a meaningful
    iteration order are association lists, the file system is a finite
    map from paths to file contents, and a raised exception is the
    [Raise] branch of a result type.

    The first part of the file holds the models; the second part
    (modules [PyStrFacts], [PyFloatFacts], [ResponsiveFacts],
    [ConverterFacts] and [SitemapFacts]) holds what is proved of them. *)

From stdpp Require Import gmap strings list pretty.
From Stdlib Require Import ZArith Lia Ascii.
From Stdlib Require Import Floats.SpecFloat.

Local Open Scope Z_scope.

(** ** Python exceptions and the two monads used by the models *)

Module Py.

Inductive exn : Type :=
| ZeroDivisionError
| OverflowError
| ValueError
| TypeError
| OSError
| KeyError (key : string)
| FileNotFoundError (path : string)
| FileExistsError (path : string)
| IsADirectoryError (path : string)
| UnidentifiedImageError (path : string)
| DecompressionBombError
| IndexError
| JSONDecodeError.

Inductive result (A : Type) : Type :=
| Ok (a : A)
| Raise (e : exn).
Arguments Ok {A} a.
Arguments Raise {A} e.

Definition rbind {A B} (c : result A) (k : A -> result B) : result B :=
  match c with
  | Ok a => k a
  | Raise e => Raise e
  end.

(** A computation over a store [S] that may raise; the store reached
    when the exception is raised is kept, as it is on the real machine. *)
Definition io (S A : Type) : Type := S -> result A * S.

Definition ret {S A} (a : A) : io S A := fun s => (Ok a, s).
Definition raise {S A} (e : exn) : io S A := fun s => (Raise e, s).
Definition lift {S A} (r : result A) : io S A := fun s => (r, s).
Definition get {S} : io S S := fun s => (Ok s, s).
Definition modify {S} (f : S -> S) : io S unit := fun s => (Ok tt, f s).
Definition bind {S A B} (c : io S A) (k : A -> io S B) : io S B :=
  fun s => match c s with
           | (Ok a, s') => k a s'
           | (Raise e, s') => (Raise e, s')
           end.

Definition is_ok {A} (r : result A) : bool :=
  match r with Ok _ => true | Raise _ => false end.

End Py.
Import Py.

Notation "'do' x <- c ; k" := (bind c (fun x => k))
  (at level 10, x name, c at level 100, k at level 200).
Notation "'do' ' pat <- c ; k" := (bind c (fun x => match x with pat => k end))
  (at level 10, pat pattern, c at level 100, k at level 200).
Notation "'try' x <- c ; k" := (rbind c (fun x => k))
  (at level 10, x name, c at level 100, k at level 200).
Notation "'try' ' pat <- c ; k" := (rbind c (fun x => match x with pat => k end))
  (at level 10, pat pattern, c at level 100, k at level 200).

(** ** String helpers (the [str] and [pathlib] methods the scripts call) *)

Module PyStr.

Definition nl : string := String (ascii_of_nat 10) EmptyString.
Definition dq : string := String (ascii_of_nat 34) EmptyString.

(** [sep.join(l)] *)
Fixpoint join (sep : string) (l : list string) : string :=
  match l with
  | [] => EmptyString
  | [s] => s
  | s :: rest => s +:+ sep +:+ join sep rest
  end.

Definition lower_char (c : ascii) : ascii :=
  let n := nat_of_ascii c in
  if ((65 <=? n) && (n <=? 90))%nat then ascii_of_nat (n + 32) else c.

(** [s.lower()], on ASCII letters *)
Fixpoint lower (s : string) : string :=
  match s with
  | EmptyString => EmptyString
  | String c s' => String (lower_char c) (lower s')
  end.

(** [s.endswith(suffix)] *)
Fixpoint endswith (s suffix : string) : bool :=
  String.eqb s suffix
  || match s with
     | EmptyString => false
     | String _ s' => endswith s' suffix
     end.

(** The text before the last occurrence of [c]; [None] when [c] does
    not occur. *)
Fixpoint before_last (c : ascii) (s : string) : option string :=
  match s with
  | EmptyString => None
  | String a s' =>
      match before_last c s' with
      | Some h => Some (String a h)
      | None => if Ascii.eqb a c then Some EmptyString else None
      end
  end.

(** [s.rsplit('.', 1)[0]] *)
Definition rsplit_dot_head (s : string) : string :=
  match before_last "." s with
  | Some h => h
  | None => s
  end.

(** [s.split(c)] *)
Fixpoint split (c : ascii) (s : string) : list string :=
  match s with
  | EmptyString => [EmptyString]
  | String a s' =>
      if Ascii.eqb a c then EmptyString :: split c s'
      else match split c s' with
           | h :: t => String a h :: t
           | [] => [String a EmptyString]
           end
  end.

(** The components of a relative POSIX path. *)
Definition parts (path : string) : list string :=
  filter (fun p => p <> EmptyString /\ p <> ".") (split "/" path).

(** [Path(path).name] *)
Definition name (path : string) : string := List.last (parts path) EmptyString.

(** [Path(path).stem]: the name without its last suffix; a leading or a
    trailing dot starts no suffix. *)
Definition stem (path : string) : string :=
  let n := name path in
  match before_last "." n with
  | Some h =>
      if ((0 <? String.length h) && (String.length h <? String.length n - 1))%nat
      then h else n
  | None => n
  end.

(** The directories [os.makedirs] walks through: every proper prefix of
    the path that ends before a separator, then the path itself. *)
Fixpoint ancestors_from (acc : string) (comps : list string) : list string :=
  match comps with
  | [] => []
  | c :: rest =>
      let here := if String.eqb acc EmptyString then c else acc +:+ "/" +:+ c in
      here :: ancestors_from here rest
  end.

Definition ancestors (path : string) : list string := ancestors_from EmptyString (parts path).

(** The last character of a string. *)
Fixpoint last_char (s : string) : option ascii :=
  match s with
  | EmptyString => None
  | String c s' => match last_char s' with Some d => Some d | None => Some c end
  end.

(** [c in s] *)
Fixpoint occurs (c : ascii) (s : string) : bool :=
  match s with
  | EmptyString => false
  | String a s' => Ascii.eqb a c || occurs c s'
  end.

End PyStr.

(** ** Python floats: IEEE-754 binary64, round to nearest even

    The arithmetic is the reference implementation of [SpecFloat] at
    precision 53 and maximal exponent 1024, the format of CPython's
    [float]. An [int] operand is first converted to a float; the
    conversion is exact below 2^53, which covers every pixel dimension
    (the imaging library stores them in C ints). *)

Module PyFloat.

Definition prec : Z := 53.
Definition emax : Z := 1024.

Definition float : Type := spec_float.

(** [float(n)] *)
Definition of_int (n : Z) : float := binary_normalize prec emax n 0 false.

(** [int(x)]: truncation toward zero; an infinity raises OverflowError
    and a NaN raises ValueError. *)
Definition int_of (x : float) : result Z :=
  match x with
  | S754_zero _ => Ok 0
  | S754_finite s m e => Ok (cond_Zopp s (Z.shiftl (Zpos m) e))
  | S754_infinity _ => Raise OverflowError
  | S754_nan => Raise ValueError
  end.

Definition is_zero (x : float) : bool :=
  match x with S754_zero _ => true | _ => false end.

(** [x / y] on floats *)
Definition float_div (x y : float) : result float :=
  if is_zero y then Raise ZeroDivisionError else Ok (SFdiv prec emax x y).

(** [a / b] on ints (true division): the quotient rounded to a float *)
Definition int_truediv (a b : Z) : result float :=
  if b =? 0 then Raise ZeroDivisionError
  else match SFdiv prec emax (of_int a) (of_int b) with
       | S754_infinity _ => Raise OverflowError
       | q => Ok q
       end.

(** [n * x] with [n] an int and [x] a float *)
Definition int_mul_float (n : Z) (x : float) : float := SFmul prec emax (of_int n) x.

(** [n / x] with [n] an int and [x] a float *)
Definition int_div_float (n : Z) (x : float) : result float := float_div (of_int n) x.

(** [x > y] *)
Definition float_gt (x y : float) : bool := SFltb y x.

(** Number of binary digits of a mantissa. *)
Definition dig (p : positive) : Z := Zpos (digits2_pos p).

End PyFloat.

(** ** scripts/create-responsive-images.py *)

Module Responsive.
Import PyStr PyFloat.

(** *** The imaging library, abstracted

    An image is the history of the library calls that built it; what
    the scripts rely on is its mode and its pixel size. *)

Inductive image : Type :=
| Raw (mode : string) (w h : Z)
| Converted (mode : string) (src : image)
| Resized (w h : Z) (src : image)
| Cropped (box : Z * Z * Z * Z) (src : image).

(** [img.size]: a resize yields the requested size; a crop yields the
    size of its box, whether or not the box lies inside the image. *)
Fixpoint size (i : image) : Z * Z :=
  match i with
  | Raw _ w h => (w, h)
  | Converted _ src => size src
  | Resized w h _ => (w, h)
  | Cropped (l, t, r, b) _ => (r - l, b - t)
  end.

(** [img.mode] *)
Fixpoint mode (i : image) : string :=
  match i with
  | Raw m _ _ => m
  | Converted m _ => m
  | Resized _ _ src => mode src
  | Cropped _ src => mode src
  end.

(** The rectangle of the last resize's pixel grid that an image shows. *)
Fixpoint window (i : image) : Z * Z * Z * Z :=
  match i with
  | Raw _ w h => (0, 0, w, h)
  | Converted _ src => window src
  | Resized w h _ => (0, 0, w, h)
  | Cropped (l, t, r, b) src =>
      let '(l0, t0, _, _) := window src in (l0 + l, t0 + t, l0 + r, t0 + b)
  end.

(** [img.convert(m)] *)
Definition convert (m : string) (img : image) : image := Converted m img.

(** [img.resize((w, h), Image.LANCZOS)]; the library refuses an empty size. *)
Definition resize (w h : Z) (img : image) : result image :=
  if (w <? 1) || (h <? 1) then Raise ValueError else Ok (Resized w h img).

(** [img.crop(box)]; the library refuses a box whose right or lower
    edge comes before its left or upper edge. *)
Definition crop (box : Z * Z * Z * Z) (img : image) : result image :=
  let '(l, t, r, b) := box in
  if (r <? l) || (b <? t) then Raise ValueError else Ok (Cropped box img).

(** *** Files and directories *)

(** A file holds a picture, written in some format at some quality,
    that decodes to [img]; or bytes that are no picture, an empty file
    included. *)
Inductive file : Type :=
| Encoded (format : string) (quality : Z) (img : image)
| Unreadable.

Record fs : Type := { dirs : gset string; files : gmap string file }.

(** The modes the JPEG encoder writes; the WebP encoder takes any mode. *)
Definition jpeg_modes : list string := ["1"; "L"; "RGB"; "RGBX"; "CMYK"; "YCbCr"].

Definition writable (format : string) (img : image) : bool :=
  if String.eqb format "JPEG" then bool_decide (mode img ∈ jpeg_modes) else true.

(** The pixel count above which the library warns; above twice that
    count it refuses the picture. *)
Definition MAX_IMAGE_PIXELS : Z := 89478485.

(** [Image.open(path)]: a header with an empty size is not identified,
    and a picture of more than 2 * MAX_IMAGE_PIXELS pixels is refused. *)
Definition image_open (path : string) : io fs image := fun st =>
  match files st !! path with
  | Some (Encoded _ _ img) =>
      let '(w, h) := size img in
      if (w <? 1) || (h <? 1) then (Raise (UnidentifiedImageError path), st)
      else if 2 * MAX_IMAGE_PIXELS <? w * h then (Raise DecompressionBombError, st)
      else (Ok img, st)
  | Some Unreadable => (Raise (UnidentifiedImageError path), st)
  | None =>
      if bool_decide (path ∈ dirs st) then (Raise (IsADirectoryError path), st)
      else (Raise (FileNotFoundError path), st)
  end.

(** The modes with an alpha band. Transparency that a picture declares
    apart from its mode (a palette entry, a transparent colour) is not
    represented. *)
Definition has_alpha (mode : string) : bool :=
  bool_decide (mode ∈ ["LA"; "La"; "PA"; "RGBA"; "RGBa"]).

(** The mode of the picture a written file holds. The WebP writer keeps
    RGB and RGBA, drops the padding of RGBX, and converts every other
    mode to RGBA when it has an alpha band and to RGB otherwise. A JPEG
    file has one, three or four components and is read back as L, RGB
    or CMYK. *)
Definition stored_mode (format mode : string) : string :=
  if String.eqb format "WebP" then
    if bool_decide (mode ∈ ["RGB"; "RGBA"]) then mode
    else if has_alpha mode then "RGBA" else "RGB"
  else if String.eqb format "JPEG" then
    if bool_decide (mode ∈ ["1"; "L"]) then "L"
    else if String.eqb mode "CMYK" then "CMYK" else "RGB"
  else mode.

(** The picture a written file holds. *)
Definition stored (format : string) (img : image) : image :=
  if String.eqb (stored_mode format (mode img)) (mode img) then img
  else convert (stored_mode format (mode img)) img.

(** [img.save(path, format, quality=q, optimize=True)]: the file is
    opened for writing, which empties it, before the encoder runs; when
    the encoder refuses the picture, a file that was there stays empty
    and a file that was not there is removed again. The size limits of
    the encoders (65500 pixels a side for JPEG, 16383 for WebP) are not
    modelled: the script saves pictures of bucket size only. *)
Definition save (path format : string) (quality : Z) (img : image) : io fs unit := fun st =>
  if bool_decide (path ∈ dirs st) then (Raise (IsADirectoryError path), st)
  else if writable format img
  then (Ok tt,
        {| dirs := dirs st;
           files := <[path := Encoded format quality (stored format img)]> (files st) |})
  else (Raise OSError,
        {| dirs := dirs st;
           files := match files st !! path with
                    | Some _ => <[path := Unreadable]> (files st)
                    | None => files st
                    end |}).

Definition mkdir_step (p : string) : io fs unit := fun st =>
  if bool_decide (p ∈ dirs st) then (Ok tt, st)
  else match files st !! p with
       | Some _ => (Raise (FileExistsError p), st)
       | None => (Ok tt, {| dirs := {[p]} ∪ dirs st; files := files st |})
       end.

Fixpoint makedirs_from (ps : list string) : io fs unit :=
  match ps with
  | [] => ret tt
  | p :: rest => do _ <- mkdir_step p; makedirs_from rest
  end.

(** [os.makedirs(path, exist_ok=True)] *)
Definition makedirs (path : string) : io fs unit := makedirs_from (ancestors path).

(** *** The script *)

(** [d[k]] on a dict literal, kept as the list of its items in order *)
Fixpoint dict_get {V : Type} (k : string) (d : list (string * V)) : result V :=
  match d with
  | [] => Raise (KeyError k)
  | (k', v) :: rest => if String.eqb k k' then Ok v else dict_get k rest
  end.

Definition sizes : list (string * list (string * (Z * Z))) :=
  [ ("hero",    [("400", (400, 500)); ("800", (800, 1000));
                 ("1200", (1200, 1500)); ("1600", (1600, 2000))]);
    ("card",    [("300", (300, 225)); ("600", (600, 450))]);
    ("process", [("400", (400, 300)); ("800", (800, 600))]);
    ("gallery", [("300", (300, 300)); ("600", (600, 600)); ("1200", (1200, 900))]) ].

(** Lines 66-79: the size the image is resized to before cropping. *)
Definition scaled_size (original_width original_height width height : Z) : result (Z * Z) :=
  try img_ratio <- int_truediv original_width original_height;
  try target_ratio <- int_truediv width height;
  if float_gt img_ratio target_ratio then
    let new_height := height in
    try new_width <- int_of (int_mul_float height img_ratio);
    Ok (new_width, new_height)
  else
    let new_width := width in
    try q <- int_div_float width img_ratio;
    try new_height <- int_of q;
    Ok (new_width, new_height).

(** Lines 81-87: the centre crop, skipped when the size already fits. *)
Definition center_crop (resized : image) (new_width new_height width height : Z) : result image :=
  if negb (new_width =? width) || negb (new_height =? height) then
    let left := (new_width - width) / 2 in
    let top := (new_height - height) / 2 in
    let right := left + width in
    let bottom := top + height in
    crop (left, top, right, bottom) resized
  else Ok resized.

(** The image saved for one size bucket. *)
Definition variant (img : image) (original_width original_height width height : Z) : result image :=
  try '(new_width, new_height) <- scaled_size original_width original_height width height;
  try resized <- resize new_width new_height img;
  center_crop resized new_width new_height width height.

Definition variant_path (recipe_dir base_name size_name ext : string) : string :=
  recipe_dir +:+ "/" +:+ base_name +:+ "-" +:+ size_name +:+ "." +:+ ext.

Fixpoint each_size (img : image) (original_width original_height : Z)
    (recipe_dir base_name : string) (buckets : list (string * (Z * Z))) : io fs unit :=
  match buckets with
  | [] => ret tt
  | (size_name, (width, height)) :: rest =>
      do resized <- lift (variant img original_width original_height width height);
      do _ <- save (variant_path recipe_dir base_name size_name "jpg") "JPEG" 85 resized;
      do _ <- save (variant_path recipe_dir base_name size_name "webp") "WebP" 80 resized;
      each_size img original_width original_height recipe_dir base_name rest
  end.

Definition create_responsive_images (input_path recipe_name image_type : string) : io fs unit :=
  let recipe_dir := "images/recipes/" +:+ recipe_name in
  do _ <- makedirs recipe_dir;
  do img <- image_open input_path;
  let img := if bool_decide (mode img ∈ ["RGBA"; "LA"; "P"]) then convert "RGB" img else img in
  let '(original_width, original_height) := size img in
  let base_name := stem input_path in
  do buckets <- lift (dict_get image_type sizes);
  each_size img original_width original_height recipe_dir base_name buckets.

(** *** The markup fragment (lines 99-148) *)

Definition sizes_map : list (string * list string) :=
  [ ("hero",    ["400"; "800"; "1200"; "1600"]);
    ("card",    ["300"; "600"]);
    ("process", ["400"; "800"]);
    ("gallery", ["300"; "600"; "1200"]) ].

(** One source-set candidate: the variant's URL and its width descriptor. *)
Definition srcset_entry (recipe_name base_name ext size : string) : string :=
  "../images/recipes/" +:+ recipe_name +:+ "/" +:+ base_name +:+ "-" +:+ size
  +:+ "." +:+ ext +:+ " " +:+ size +:+ "w".

(** The loop of lines 115-117, appending to both lists in each round. *)
Fixpoint build_srcsets (recipe_name base_name : string) (sizes : list string)
    (webp_srcset jpg_srcset : list string) : list string * list string :=
  match sizes with
  | [] => (webp_srcset, jpg_srcset)
  | size :: rest =>
      build_srcsets recipe_name base_name rest
        (webp_srcset ++ [srcset_entry recipe_name base_name "webp" size])
        (jpg_srcset ++ [srcset_entry recipe_name base_name "jpg" size])
  end.

Definition sizes_attr_of (image_type : string) : string :=
  if String.eqb image_type "hero" then
    "(max-width: 480px) 100vw, (max-width: 768px) 100vw, (max-width: 1200px) 60vw, 735px"
  else if String.eqb image_type "card" then "(max-width: 768px) 50vw, 300px"
  else if String.eqb image_type "process" then "(max-width: 768px) 100vw, 400px"
  else "(max-width: 768px) 50vw, 300px".

(** [sizes[-1]] *)
Definition last_item (sizes : list string) : result string :=
  match List.rev sizes with
  | s :: _ => Ok s
  | [] => Raise IndexError
  end.

Definition fallback_src (recipe_name base_name size : string) : string :=
  "../images/recipes/" +:+ recipe_name +:+ "/" +:+ base_name +:+ "-" +:+ size +:+ ".jpg".

Definition attr_line (indent attr value : string) : string :=
  indent +:+ attr +:+ "=" +:+ dq +:+ value +:+ dq.

(** The template of lines 130-141, up to and including the [loading] attribute. *)
Definition picture_template (webp_list src jpg_list sizes_attr width height alt_text loading : string)
    : string :=
  "<picture>" +:+ nl
  +:+ "    <source" +:+ nl
  +:+ attr_line "        " "srcset" webp_list +:+ nl
  +:+ attr_line "        " "type" "image/webp" +:+ ">" +:+ nl
  +:+ "    <img" +:+ nl
  +:+ attr_line "        " "src" src +:+ nl
  +:+ attr_line "        " "srcset" jpg_list +:+ nl
  +:+ attr_line "        " "sizes" sizes_attr +:+ nl
  +:+ attr_line "        " "width" width +:+ nl
  +:+ attr_line "        " "height" height +:+ nl
  +:+ attr_line "        " "alt" alt_text +:+ nl
  +:+ attr_line "        " "loading" loading.

Definition picture_tail (fetchpriority : option string) : string :=
  match fetchpriority with
  | Some p =>
      if String.eqb p EmptyString then " />" +:+ nl +:+ "</picture>"
      else nl +:+ attr_line "        " "fetchpriority" p +:+ " />" +:+ nl +:+ "</picture>"
  | None => " />" +:+ nl +:+ "</picture>"
  end.

Definition generate_picture_element (recipe_name base_name image_type alt_text : string)
    (width height : Z) (loading : string) (fetchpriority : option string) : result string :=
  try sizes <- dict_get image_type sizes_map;
  let '(webp_srcset, jpg_srcset) := build_srcsets recipe_name base_name sizes [] [] in
  let sizes_attr := sizes_attr_of image_type in
  try largest <- last_item sizes;
  let picture_html :=
    picture_template (join ", " webp_srcset) (fallback_src recipe_name base_name largest)
      (join ", " jpg_srcset) sizes_attr (pretty width) (pretty height) alt_text loading in
  Ok (picture_html +:+ picture_tail fetchpriority).

(** *** Reading a fragment back

    What a reader of the markup finds in it: the [srcset] attribute of
    the [source] element, the [src] and the [srcset] attributes of the
    [img] element, and the candidates of a source set, each one a URL
    and a width descriptor. *)

(** [s.removeprefix(prefix)], when [s] starts with [prefix] *)
Fixpoint strip_prefix (prefix s : string) : option string :=
  match prefix with
  | EmptyString => Some s
  | String c prefix' =>
      match s with
      | String d s' => if Ascii.eqb c d then strip_prefix prefix' s' else None
      | EmptyString => None
      end
  end.

(** The text that follows the first occurrence of [pattern]. *)
Fixpoint after (pattern s : string) : option string :=
  match strip_prefix pattern s with
  | Some rest => Some rest
  | None =>
      match s with
      | EmptyString => None
      | String _ s' => after pattern s'
      end
  end.

(** The text up to the next double quote. *)
Fixpoint until_quote (s : string) : option string :=
  match s with
  | EmptyString => None
  | String c s' =>
      if Ascii.eqb c (ascii_of_nat 34) then Some EmptyString
      else option_map (String c) (until_quote s')
  end.

(** The value of the first attribute [name] in the text of an element. *)
Definition attribute (name element : string) : option string :=
  match after (" " +:+ name +:+ "=" +:+ dq) element with
  | Some rest => until_quote rest
  | None => None
  end.

(** One candidate of a source set: a URL, a space, a descriptor. *)
Definition candidate (text : string) : option (string * string) :=
  let text := match text with
              | String c text' => if Ascii.eqb c " " then text' else text
              | EmptyString => text
              end in
  match split " " text with
  | [url; descriptor] => Some (url, descriptor)
  | _ => None
  end.

Fixpoint candidates_of (pieces : list string) : option (list (string * string)) :=
  match pieces with
  | [] => Some []
  | piece :: rest =>
      match candidate piece, candidates_of rest with
      | Some c, Some cs => Some (c :: cs)
      | _, _ => None
      end
  end.

(** The candidates of a source set, in the order in which it lists them. *)
Definition candidates (srcset : string) : option (list (string * string)) :=
  candidates_of (split "," srcset).

(** What a picture element offers: the WebP candidates of its [source],
    the [src] of its [img], and the candidates of the [img]. *)
Record picture : Type := {
  webp_candidates : list (string * string);
  fallback : string;
  jpg_candidates : list (string * string)
}.

Definition read_picture (html : string) : option picture :=
  match after "<source" html, after "<img" html with
  | Some source, Some img =>
      match attribute "srcset" source, attribute "src" img, attribute "srcset" img with
      | Some webp, Some src, Some jpg =>
          match candidates webp, candidates jpg with
          | Some ws, Some js =>
              Some {| webp_candidates := ws; fallback := src; jpg_candidates := js |}
          | _, _ => None
          end
      | _, _, _ => None
      end
  | _, _ => None
  end.

(** A name that can stand in a URL of a source set: no double quote, no
    [<], no comma and no space. *)
Definition plain (s : string) : Prop :=
  occurs (ascii_of_nat 34) s = false /\ occurs "<" s = false
  /\ occurs "," s = false /\ occurs " " s = false.

(** *** The command line (lines 150-172) *)

Definition choices : list string := ["hero"; "card"; "process"; "gallery"].

(** How the script ends: the argument parser rejects the command line
    (exit status 2), an exception leaves the script, or the example
    markup is printed. *)
Inductive outcome : Type :=
| UsageError
| Uncaught (e : exn)
| Printed (html : string).

(** [--type], with its default and its [choices]. *)
Definition parse_type (type_option : option string) : option string :=
  match type_option with
  | None => Some "hero"
  | Some t => if bool_decide (t ∈ choices) then Some t else None
  end.

Definition example_width (image_type : string) : Z :=
  if String.eqb image_type "hero" then 1600 else 600.
Definition example_height (image_type : string) : Z :=
  if String.eqb image_type "hero" then 2000 else 450.

(** Lines 150-172, on parsed positional arguments. *)
Definition command_line (input_path recipe_name : string) (type_option : option string)
    : fs -> outcome * fs :=
  fun st =>
    match parse_type type_option with
    | None => (UsageError, st)
    | Some image_type =>
        match create_responsive_images input_path recipe_name image_type st with
        | (Raise e, st') => (Uncaught e, st')
        | (Ok _, st') =>
            match generate_picture_element recipe_name (stem input_path) image_type
                    ("Descriptive alt text for " +:+ recipe_name)
                    (example_width image_type) (example_height image_type)
                    (if String.eqb image_type "hero" then "eager" else "lazy")
                    (if String.eqb image_type "hero" then Some "high" else None) with
            | Ok html => (Printed html, st')
            | Raise e => (Uncaught e, st')
            end
        end
    end.

(** *** Notions used in the statements *)

(** A target on which the float arithmetic of [scaled_size] is safe: the
    rounded target ratio, its two neighbours and the case of a source
    with exactly the target's ratio all leave the scaled image at least
    as large as the target. The check is evaluated on each bucket. *)
Definition target_safe (width height : Z) : bool :=
  (0 <? width) && (width <? 2 ^ 52) && (0 <? height) && (height <? 2 ^ 52)
  && match int_truediv width height with
     | Ok (S754_finite false mt et) =>
         (et <=? 0)
         && (width * 2 ^ (- et) <=? height * (Zpos mt + 1))
         && (width * 2 ^ (- et - 1) <=? height * 2 ^ 52)
         && (height * (Zpos mt - 1) <=? width * 2 ^ (- et))
         && (height * 2 ^ 53 <=? width * 2 ^ (- et + 1))
         && match scaled_size width height width height with
            | Ok (new_width, new_height) => (width <=? new_width) && (height <=? new_height)
            | Raise _ => false
            end
     | _ => false
     end.

(** What a run may leave at a path: a variant of one of the buckets. *)
Definition is_variant_of (recipe_dir base_name : string) (buckets : list (string * (Z * Z)))
    (path : string) (f : file) : Prop :=
  exists size_name width height format quality ext img,
    In (size_name, (width, height)) buckets
    /\ path = variant_path recipe_dir base_name size_name ext
    /\ f = Encoded format quality img
    /\ size img = (width, height)
    /\ ((format, quality, ext) = ("JPEG", 85, "jpg") \/ (format, quality, ext) = ("WebP", 80, "webp")).

(** A source the imaging library handles without coming near its
    limits: positive dimensions, no more pixels than it opens without a
    warning, and sides in a proportion of at most 16 to 1, so that the
    scaled pictures of the table's buckets stay below that pixel count
    too. *)
Definition ordinary (original_width original_height : Z) : Prop :=
  0 < original_width /\ 0 < original_height
  /\ original_width * original_height <= MAX_IMAGE_PIXELS
  /\ original_width <= 16 * original_height /\ original_height <= 16 * original_width.

(** A tree with no file and no directory. *)
Definition empty_fs : fs := {| dirs := ∅; files := ∅ |}.

(** The source can be opened as an image. *)
Definition readable (st : fs) (path : string) : Prop :=
  exists format quality img, files st !! path = Some (Encoded format quality img).

(** The part of an output path that depends on the bucket and the format. *)
Definition suffix (size_name ext : string) : string := size_name +:+ "." +:+ ext.

Definition suffixes (buckets : list (string * (Z * Z))) : list string :=
  flat_map (fun b => [suffix (fst b) "jpg"; suffix (fst b) "webp"]) buckets.

(** A transparent 1000x800 upload in an otherwise empty tree. *)
Definition sample_fs : fs :=
  {| dirs := ∅;
     files := {[ "uploads/mango.png" := Encoded "PNG" 100 (Raw "RGBA" 1000 800) ]} |}.

(** *** Notions used in the further properties *)

(** The two output paths of a bucket label. *)
Definition is_output_path (recipe_dir base_name : string) (buckets : list (string * (Z * Z)))
    (path : string) : Prop :=
  exists size_name wh ext,
    In (size_name, wh) buckets /\ (ext = "jpg" \/ ext = "webp")
    /\ path = variant_path recipe_dir base_name size_name ext.

(** The mode of the image that is resized: RGBA, LA and P sources are
    converted to RGB first. *)
Definition working_mode (source_mode : string) : string :=
  if bool_decide (source_mode ∈ ["RGBA"; "LA"; "P"]) then "RGB" else source_mode.

(** A grey 600x450 upload in an otherwise empty tree. *)
Definition grey_fs : fs :=
  {| dirs := ∅;
     files := {[ "uploads/slate.png" := Encoded "PNG" 100 (Raw "L" 600 450) ]} |}.

(** The tree after the card variants of the sample upload were made. *)
Definition sample_after : fs :=
  snd (create_responsive_images "uploads/mango.png" "mango-bites" "card" sample_fs).

Definition is_key_error (e : exn) : bool :=
  match e with KeyError _ => true | _ => false end.


End Responsive.

(** ** convert-to-webp.py *)

Module Converter.
Import PyStr.

(** What a directory entry holds, by what the imaging library does with
    it: a picture (with its format and mode) that the library decodes
    and can write as WebP; a picture that it decodes but that its WebP
    encoder refuses with some message, one wider or higher than the
    16383 pixels of the format for instance; or bytes that it rejects
    with some message, an empty file included. *)
Inductive payload : Type :=
| Picture (format mode : string)
| Unsavable (format mode message : string)
| Corrupt (message : string).

Record entry : Type := { mtime : Z; body : payload }.

(** What the script prints, one event per message: [Converted] stands
    for the two lines of a success (lines 26-27), [Summary] for the two
    closing lines (lines 64-65), every other event for one line. *)
Inductive event : Type :=
| DirectoryNotFound
| Started
| NoJpgFound
| Converted (jpg_path webp_path : string)
| ConversionError (jpg_path message : string)
| Skipped (jpg_file : string)
| Summary (converted_count : Z).

(** The entries by path, and the messages printed so far. *)
Record world : Type := { files : gmap string entry; out : list event }.

Definition print (ev : event) : io world unit :=
  modify (fun w => {| files := files w; out := out w ++ [ev] |}).

Definition image_dir : string :=
  "/Users/douniabenazha/Desktop/YWG.com/images/recipes/brownie-batter-bars/".

(** The mode of the picture that a WebP written from an image of mode
    [mode] holds: the encoder takes RGB and RGBA as they are and
    converts every other mode, to RGBA when the mode has an alpha
    channel and to RGB otherwise. *)
Definition webp_mode (mode : string) : string :=
  if bool_decide (mode ∈ ["RGB"; "RGBA"]) then mode
  else if bool_decide (mode ∈ ["LA"; "La"; "PA"; "RGBa"]) then "RGBA" else "RGB".

(** What is left of a file that was opened for writing and got no
    byte. *)
Definition emptied (now : Z) : entry :=
  {| mtime := now; body := Corrupt "cannot identify image file" |}.

(** Lines 10-30. [now] is the modification time the written output gets.
    Whatever goes wrong is caught and printed; nothing is raised. The
    library opens the output for writing before it encodes: when the
    encoder refuses the picture, an output that was there is left empty
    and an output that the library had to create is removed again. *)
Definition convert_jpg_to_webp (jpg_path webp_path : string) (now : Z) : io world unit :=
  fun w =>
    match files w !! jpg_path with
    | Some {| body := Picture _ mode |} =>
        let mode := if bool_decide (mode ∈ ["RGBA"; "P"]) then "RGB" else mode in
        (Ok tt,
         {| files := <[webp_path := {| mtime := now; body := Picture "WebP" (webp_mode mode) |}]>
                       (files w);
            out := out w ++ [Converted jpg_path webp_path] |})
    | Some {| body := Unsavable _ _ message |} =>
        (Ok tt,
         {| files := match files w !! webp_path with
                     | Some _ => <[webp_path := emptied now]> (files w)
                     | None => files w
                     end;
            out := out w ++ [ConversionError jpg_path message] |})
    | Some {| body := Corrupt message |} =>
        (Ok tt, {| files := files w; out := out w ++ [ConversionError jpg_path message] |})
    | None =>
        (Ok tt, {| files := files w;
                   out := out w ++ [ConversionError jpg_path "No such file or directory"] |})
    end.

(** Line 57: [os.path.exists(webp_path) and
    os.path.getmtime(webp_path) > os.path.getmtime(jpg_path)] *)
Definition up_to_date (webp_path jpg_path : string) : io world bool := fun w =>
  match files w !! webp_path with
  | None => (Ok false, w)
  | Some webp =>
      match files w !! jpg_path with
      | None => (Raise (FileNotFoundError jpg_path), w)
      | Some jpg => (Ok (mtime jpg <? mtime webp), w)
      end
  end.

Definition is_jpg (f : string) : bool := endswith (lower f) ".jpg".

Definition jpg_path_of (jpg_file : string) : string := image_dir +:+ jpg_file.
Definition webp_path_of (jpg_file : string) : string :=
  image_dir +:+ (rsplit_dot_head jpg_file +:+ ".webp").

(** Lines 51-62. [clock f] is the time at which the output of source
    [f] is written, should this run convert it. *)
Fixpoint convert_all (jpg_files : list string) (clock : string -> Z) (converted_count : Z)
    : io world Z :=
  match jpg_files with
  | [] => ret converted_count
  | jpg_file :: rest =>
      let jpg_path := jpg_path_of jpg_file in
      let webp_path := webp_path_of jpg_file in
      do fresh <- up_to_date webp_path jpg_path;
      if fresh then
        do _ <- print (Skipped jpg_file);
        convert_all rest clock converted_count
      else
        do _ <- convert_jpg_to_webp jpg_path webp_path (clock jpg_file);
        convert_all rest clock (converted_count + 1)
  end.

(** [listing] is what [os.listdir(image_dir)] returns, [None] when the
    directory does not exist. *)
Definition main (listing : option (list string)) (clock : string -> Z) : io world unit :=
  match listing with
  | None => print DirectoryNotFound
  | Some names =>
      do _ <- print Started;
      let jpg_files := List.filter is_jpg names in
      match jpg_files with
      | [] => print NoJpgFound
      | _ =>
          do converted_count <- convert_all jpg_files clock 0;
          print (Summary converted_count)
      end
  end.

(** *** Notions used in the statements *)

(** The output of source [f] exists and is strictly newer than [f]. *)
Definition fresh (fs : gmap string entry) (f : string) : Prop :=
  exists jpg webp,
    fs !! jpg_path_of f = Some jpg /\ fs !! webp_path_of f = Some webp
    /\ mtime jpg < mtime webp.

(** The directory after the output of [f] has been written at time [now]. *)
Definition with_output (f mode : string) (now : Z) (fs : gmap string entry) : gmap string entry :=
  <[webp_path_of f := {| mtime := now; body := Picture "WebP" mode |}]> fs.

(** The test of line 57 on a source that exists. *)
Definition newer_output (fs : gmap string entry) (f : string) : bool :=
  match fs !! webp_path_of f, fs !! jpg_path_of f with
  | Some webp, Some jpg => mtime jpg <? mtime webp
  | _, _ => false
  end.

(** Conversions attempted according to what was printed: those that
    wrote an output and those that printed an error. *)
Definition is_converted (ev : event) : bool :=
  match ev with Converted _ _ => true | _ => false end.
Definition is_error (ev : event) : bool :=
  match ev with ConversionError _ _ => true | _ => false end.
Definition attempts (evs : list event) : Z :=
  Z.of_nat (length (List.filter is_converted evs)) + Z.of_nat (length (List.filter is_error evs)).

(** A directory with one source and no output yet. *)
Definition demo_files : gmap string entry :=
  {[ jpg_path_of "bars.jpg" := {| mtime := 20; body := Picture "JPEG" "RGB" |} ]}.

(** A directory whose first JPG cannot be decoded. *)
Definition broken_files : gmap string entry :=
  {[ jpg_path_of "bad.jpg" := {| mtime := 10; body := Corrupt "cannot identify image file" |};
     jpg_path_of "bars.jpg" := {| mtime := 20; body := Picture "JPEG" "RGB" |} ]}.

(** *** Notions used in the further properties *)

Definition is_skipped (ev : event) : bool :=
  match ev with Skipped _ => true | _ => false end.

(** The message a run prints for source [f]: the skip line, the two
    lines of a success, or the error line. *)
Definition report_of (f : string) (ev : event) : Prop :=
  ev = Skipped f
  \/ ev = Converted (jpg_path_of f) (webp_path_of f)
  \/ exists message, ev = ConversionError (jpg_path_of f) message.

(** The mode of the image that is encoded, for a source of mode [mode]
    (lines 15-16). *)
Definition flattened (mode : string) : string :=
  if bool_decide (mode ∈ ["RGBA"; "P"]) then "RGB" else mode.

Definition mixed_files : gmap string entry :=
  {[ jpg_path_of "bars.JPG" := {| mtime := 20; body := Picture "JPEG" "P" |};
     jpg_path_of "notes.txt" := {| mtime := 5; body := Corrupt "cannot identify image file" |} ]}.

Definition mixed_world : world := {| files := mixed_files; out := [] |}.

(** The output of source [f] after its encoding failed at time [now]. *)
Definition with_empty_output (f : string) (now : Z) (fs : gmap string entry)
    : gmap string entry :=
  match fs !! webp_path_of f with
  | Some _ => <[webp_path_of f := emptied now]> fs
  | None => fs
  end.

(** What the conversion of the source entry [jpg] at time [now] leaves
    at the output path, when it leaves something new there. *)
Definition left_by (jpg : entry) (now : Z) (e : entry) : Prop :=
  (exists format mode,
      body jpg = Picture format mode
      /\ e = {| mtime := now; body := Picture "WebP" (webp_mode (flattened mode)) |})
  \/ (exists format mode message,
        body jpg = Unsavable format mode message /\ e = emptied now).

(** A directory with a stale output of a source that is too large for
    the WebP format. *)
Definition wide_files : gmap string entry :=
  {[ jpg_path_of "pano.jpg" :=
       {| mtime := 20; body := Unsavable "JPEG" "RGB" "encoding error 5" |};
     webp_path_of "pano.jpg" := {| mtime := 10; body := Picture "WebP" "RGB" |} ]}.

Definition wide_world : world := {| files := wide_files; out := [] |}.

Definition mixed_listing : list string := ["notes.txt"; "bars.JPG"].
Definition mixed_after : world :=
  {| files := with_output "bars.JPG" "RGB" 100 mixed_files;
     out := [Started; Converted (jpg_path_of "bars.JPG") (webp_path_of "bars.JPG"); Summary 1] |}.

Definition counted (evs : list event) : Z :=
  Z.of_nat (length (List.filter (fun ev => negb (is_skipped ev)) evs)).
Definition skipped (evs : list event) : Z :=
  Z.of_nat (length (List.filter is_skipped evs)).

Definition outputs_only : list string := ["bars.webp"; "cover.jpeg"; "notes.txt"].

End Converter.

(** ** scripts/generate-sitemap.py *)

Module Sitemap.
Import PyStr.

(** What [json.load] returns. An object keeps its items in order. *)
#[warnings="-register-all"]
Inductive json : Type :=
| JNull
| JBool (b : bool)
| JInt (n : Z)
| JFloat (x : spec_float)
| JStr (s : string)
| JArr (items : list json)
| JObj (fields : list (string * json)).

(** Python truthiness, as the [or] operator tests it. *)
Definition truthy (v : json) : bool :=
  match v with
  | JNull => false
  | JBool b => b
  | JInt n => negb (n =? 0)
  | JFloat x => negb (PyFloat.is_zero x)
  | JStr s => negb (String.eqb s EmptyString)
  | JArr items => match items with [] => false | _ => true end
  | JObj fields => match fields with [] => false | _ => true end
  end.

(** [a or b] *)
Definition py_or (a b : json) : json := if truthy a then a else b.

Fixpoint lookup_field (key : string) (fields : list (string * json)) : option json :=
  match fields with
  | [] => None
  | (k, v) :: rest => if String.eqb key k then Some v else lookup_field key rest
  end.

(** [v[key]] with a string key *)
Definition subscript (v : json) (key : string) : result json :=
  match v with
  | JObj fields =>
      match lookup_field key fields with
      | Some x => Ok x
      | None => Raise (KeyError key)
      end
  | _ => Raise TypeError
  end.

(** [v.get(key)]: [None] when the key is missing *)
Definition dict_get (v : json) (key : string) : json :=
  match v with
  | JObj fields => default JNull (lookup_field key fields)
  | _ => JNull
  end.

Fixpoint chars (s : string) : list json :=
  match s with
  | EmptyString => []
  | String c rest => JStr (String c EmptyString) :: chars rest
  end.

(** [for x in v]: the items of a list, the keys of a dict, the
    characters of a string; nothing else is iterable. *)
Definition iterate (v : json) : result (list json) :=
  match v with
  | JArr items => Ok items
  | JObj fields => Ok (map (fun kv => JStr (fst kv)) fields)
  | JStr s => Ok (chars s)
  | _ => Raise TypeError
  end.

Fixpoint traverse {A B : Type} (f : A -> result B) (l : list A) : result (list B) :=
  match l with
  | [] => Ok []
  | a :: rest =>
      try b <- f a;
      try bs <- traverse f rest;
      Ok (b :: bs)
  end.

Inductive io_event : Type :=
| OpenRead (path : string)
| OpenWrite (path : string)
| PrintSummary (recipes static_pages : nat)
| PrintRecipe (slug : string).

(** The text files by path, and what the process did so far. *)
Record world : Type := { disk : gmap string string; trace : list io_event }.

Definition emit (ev : io_event) : io world unit :=
  modify (fun w => {| disk := disk w; trace := trace w ++ [ev] |}).

(** [with open(path, 'r') as f: f.read()] *)
Definition read_file (path : string) : io world string := fun w =>
  match disk w !! path with
  | Some text => (Ok text, {| disk := disk w; trace := trace w ++ [OpenRead path] |})
  | None => (Raise (FileNotFoundError path), w)
  end.

(** [with open(path, 'w') as f: f.write(text)], for a text that the
    encoding of the file can represent. A text with a character that it
    cannot represent is refused by [f.write] after the file was emptied;
    a [string] here holds no such character. *)
Definition write_file (path text : string) : io world unit := fun w =>
  (Ok tt, {| disk := <[path := text]> (disk w); trace := trace w ++ [OpenWrite path] |}).

Record page : Type :=
  { loc : string; changefreq : string; priority : string; lastmod : string }.

Definition BASE_URL : string := "https://yourwellnessgirly.com".

Definition build_url_entry (loc lastmod changefreq priority : string) : string :=
  "  <url>" +:+ nl
  +:+ "    <loc>" +:+ BASE_URL +:+ loc +:+ "</loc>" +:+ nl
  +:+ "    <lastmod>" +:+ lastmod +:+ "</lastmod>" +:+ nl
  +:+ "    <changefreq>" +:+ changefreq +:+ "</changefreq>" +:+ nl
  +:+ "    <priority>" +:+ priority +:+ "</priority>" +:+ nl
  +:+ "  </url>".

(** [os.path.join(a, b)] for a relative [b] *)
Definition path_join (a b : string) : string :=
  if String.eqb a EmptyString then b
  else if endswith a "/" then a +:+ b
  else a +:+ "/" +:+ b.

Section Run.

(** The project root (the parent of the script's directory), the run
    date in ISO format, the JSON decoder, and Python's [str] on decoded
    values that are not strings. *)
Variable ROOT_DIR : string.
Variable TODAY : string.
Variable json_load : string -> option json.
Variable py_str : json -> string.

Definition RECIPES_JSON : string := path_join (path_join ROOT_DIR "data") "recipes.json".
Definition SITEMAP_OUT : string := path_join ROOT_DIR "sitemap.xml".

Definition STATIC_PAGES : list page :=
  [ {| loc := "/";             changefreq := "weekly";  priority := "1.0"; lastmod := TODAY |};
    {| loc := "/recipe-index"; changefreq := "weekly";  priority := "0.9"; lastmod := TODAY |};
    {| loc := "/about";        changefreq := "monthly"; priority := "0.8"; lastmod := "2025-01-10" |};
    {| loc := "/work-with-me"; changefreq := "monthly"; priority := "0.7"; lastmod := "2025-01-10" |};
    {| loc := "/contact";      changefreq := "monthly"; priority := "0.6"; lastmod := "2025-01-10" |} ].

(** A value interpolated in an f-string. *)
Definition format_value (v : json) : string :=
  match v with
  | JStr s => s
  | _ => py_str v
  end.

(** Line 67: [recipe.get("dateModified") or recipe.get("datePublished") or TODAY] *)
Definition recipe_lastmod (recipe : json) : json :=
  py_or (py_or (dict_get recipe "dateModified") (dict_get recipe "datePublished")) (JStr TODAY).

(** Lines 66-70: the entry of one recipe. *)
Definition recipe_entry (recipe : json) : result string :=
  try slug <- subscript recipe "slug";
  let lastmod := recipe_lastmod recipe in
  Ok (build_url_entry ("/recipes/" +:+ format_value slug) (format_value lastmod) "monthly" "0.8").

Definition json_len (v : json) : nat :=
  match v with
  | JArr items => length items
  | JObj fields => length fields
  | JStr s => String.length s
  | _ => 0%nat
  end.

Fixpoint print_recipes (recipes : list json) : io world unit :=
  match recipes with
  | [] => ret tt
  | r :: rest =>
      do slug <- lift (subscript r "slug");
      do _ <- emit (PrintRecipe (format_value slug));
      print_recipes rest
  end.

Definition generate : io world unit :=
  do text <- read_file RECIPES_JSON;
  do data <- lift (match json_load text with
                   | Some d => Ok d
                   | None => Raise JSONDecodeError
                   end);
  let static_entries :=
    "  <!-- Main pages -->"
    :: map (fun p => build_url_entry (loc p) (lastmod p) (changefreq p) (priority p)) STATIC_PAGES in
  let entries := static_entries ++ [nl +:+ "  <!-- Recipe pages -->"] in
  do recipes <- lift (subscript data "recipes");
  do items <- lift (iterate recipes);
  do recipe_entries <- lift (traverse recipe_entry items);
  let entries := entries ++ recipe_entries in
  let sitemap :=
    "<?xml version=" +:+ dq +:+ "1.0" +:+ dq +:+ " encoding=" +:+ dq +:+ "UTF-8" +:+ dq +:+ "?>" +:+ nl
    +:+ "<urlset xmlns=" +:+ dq +:+ "http://www.sitemaps.org/schemas/sitemap/0.9" +:+ dq +:+ ">" +:+ nl
    +:+ join nl entries +:+ nl
    +:+ "</urlset>" +:+ nl in
  do _ <- write_file SITEMAP_OUT sitemap;
  do _ <- emit (PrintSummary (json_len recipes) (length STATIC_PAGES));
  print_recipes items.

End Run.

(** *** Notions used in the statements *)

(** The value of a key when it is present and truthy. *)
Definition truthy_field (key : string) (fields : list (string * json)) : option json :=
  match lookup_field key fields with
  | Some v => if truthy v then Some v else None
  | None => None
  end.

(** The precedence worded by presence of the key alone. *)
Definition lastmod_by_presence (TODAY : string) (fields : list (string * json)) : json :=
  match lookup_field "dateModified" fields with
  | Some v => v
  | None =>
      match lookup_field "datePublished" fields with
      | Some v => v
      | None => JStr TODAY
      end
  end.

Fixpoint remove_field (key : string) (fields : list (string * json)) : list (string * json) :=
  match fields with
  | [] => []
  | (k, v) :: rest =>
      if String.eqb key k then remove_field key rest else (k, v) :: remove_field key rest
  end.

(** A record of the recipes array without the mandatory key. *)
Definition lacks_slug (item : json) : Prop :=
  exists fields, item = JObj fields /\ lookup_field "slug" fields = None.

(** A recipes file whose only record has no slug, beside an older sitemap. *)
Definition sample_recipes : json := JObj [("recipes", JArr [JObj [("title", JStr "Bars")]])].

Definition sample_world : world :=
  {| disk := {[ RECIPES_JSON "/site" := "{...}"; SITEMAP_OUT "/site" := "<old sitemap/>" ]};
     trace := [] |}.

(** *** Notions used in the further properties *)

(** The text of a sitemap with the given recipe entries: the prolog,
    the entries of the static pages, the recipe entries, the epilog. *)
Definition document (TODAY : string) (recipe_entries : list string) : string :=
  "<?xml version=" +:+ dq +:+ "1.0" +:+ dq +:+ " encoding=" +:+ dq +:+ "UTF-8" +:+ dq +:+ "?>" +:+ nl
  +:+ "<urlset xmlns=" +:+ dq +:+ "http://www.sitemaps.org/schemas/sitemap/0.9" +:+ dq +:+ ">" +:+ nl
  +:+ join nl
        (("  <!-- Main pages -->"
          :: map (fun p => build_url_entry (loc p) (lastmod p) (changefreq p) (priority p))
               (STATIC_PAGES TODAY))
         ++ [nl +:+ "  <!-- Recipe pages -->"] ++ recipe_entries)
  +:+ nl +:+ "</urlset>" +:+ nl.

(** A text of ASCII characters only, which every encoding that a text
    file can have represents. *)
Fixpoint is_ascii (s : string) : bool :=
  match s with
  | EmptyString => true
  | String c s' => (nat_of_ascii c <? 128)%nat && is_ascii s'
  end.

(** A record with the mandatory key. *)
Definition has_slug (item : json) : Prop :=
  exists fields slug, item = JObj fields /\ lookup_field "slug" fields = Some slug.

(** The entry of a record, and the line printed for it. *)
Definition entry_of (TODAY : string) (py_str : json -> string) (item : json) : string :=
  build_url_entry ("/recipes/" +:+ format_value py_str (dict_get item "slug"))
    (format_value py_str (recipe_lastmod TODAY item)) "monthly" "0.8".

Definition recipe_line (py_str : json -> string) (item : json) : io_event :=
  PrintRecipe (format_value py_str (dict_get item "slug")).

(** A value of "recipes" that iterates to nothing without being a list. *)
Definition empty_non_array (v : json) : bool :=
  match v with
  | JObj [] => true
  | JStr EmptyString => true
  | _ => false
  end.

Definition is_array (v : json) : bool :=
  match v with JArr _ => true | _ => false end.

Definition two_items : list json :=
  [JObj [("slug", JStr "bars"); ("datePublished", JStr "2024-05-01")];
   JObj [("slug", JStr "bites"); ("dateModified", JStr "2025-03-02")]].

Definition two_recipes : json := JObj [("recipes", JArr two_items)].

(** A recipes file whose "recipes" value is an empty object. *)
Definition no_recipes : json := JObj [("recipes", JObj [])].

Definition two_world : world :=
  {| disk := <[SITEMAP_OUT "/site"
               := document "2026-01-15" (map (entry_of "2026-01-15" (fun _ => "?")) two_items)]>
               (disk sample_world);
     trace := [OpenRead (RECIPES_JSON "/site"); OpenWrite (SITEMAP_OUT "/site");
               PrintSummary 2 5; PrintRecipe "bars"; PrintRecipe "bites"] |}.

End Sitemap.

(** * Verification *)

(** ** Facts on the string helpers *)

Module PyStrFacts.
Import PyStr.

Lemma last_char_app s t c : last_char t = Some c -> last_char (s +:+ t) = Some c.
Proof. intros H. induction s as [|a s IH]; simpl; [exact H | rewrite IH; reflexivity]. Qed.

Lemma last_char_lower s : last_char (lower s) = lower_char <$> last_char s.
Proof.
  induction s as [|a s IH]; cbn; [reflexivity|].
  rewrite IH. destruct (last_char s); reflexivity.
Qed.

Lemma endswith_last_char s suffix c :
  last_char suffix = Some c -> endswith s suffix = true -> last_char s = Some c.
Proof.
  intros Hc. induction s as [|a s IH]; cbn [endswith].
  - rewrite orb_false_r. intros H. apply String.eqb_eq in H. subst. exact Hc.
  - intros H. apply orb_true_iff in H as [H|H].
    + apply String.eqb_eq in H. rewrite H. exact Hc.
    + cbn. rewrite (IH H). reflexivity.
Qed.

(** *** Splitting names and paths *)

Lemma append_assoc (a b c : string) : (a +:+ b) +:+ c = a +:+ (b +:+ c).
Proof.
  induction a as [|x a IH]; [reflexivity|].
  change (String x ((a +:+ b) +:+ c) = String x (a +:+ (b +:+ c))). rewrite IH. reflexivity.
Qed.

Lemma length_append (a b : string) :
  String.length (a +:+ b) = (String.length a + String.length b)%nat.
Proof.
  induction a as [|x a IH]; [reflexivity|].
  change (S (String.length (a +:+ b)) = S (String.length a + String.length b)).
  rewrite IH. reflexivity.
Qed.

Lemma occurs_append c a b : occurs c (a +:+ b) = occurs c a || occurs c b.
Proof.
  induction a as [|x a IH]; [reflexivity|].
  change (Ascii.eqb x c || occurs c (a +:+ b) = Ascii.eqb x c || occurs c a || occurs c b).
  rewrite IH, orb_assoc. reflexivity.
Qed.

Lemma before_last_none c s : before_last c s = None <-> occurs c s = false.
Proof.
  induction s as [|a s IH]; cbn; [tauto|].
  destruct (before_last c s) as [h|].
  - split; [discriminate|]. intros H. apply orb_false_elim in H as [_ H].
    apply IH in H. discriminate H.
  - destruct (Ascii.eqb a c); cbn; [split; discriminate|]. tauto.
Qed.

Lemma before_last_app c a t :
  occurs c t = false -> before_last c (a +:+ String c t) = Some a.
Proof.
  intros Ht. apply before_last_none in Ht. induction a as [|x a IH].
  - change (before_last c (String c t) = Some EmptyString).
    cbn [before_last]. rewrite Ht, Ascii.eqb_refl. reflexivity.
  - change (before_last c (String x (a +:+ String c t)) = Some (String x a)).
    cbn [before_last]. rewrite IH. reflexivity.
Qed.

Lemma before_last_occurs d c s h :
  before_last d s = Some h -> occurs c s = false -> occurs c h = false.
Proof.
  revert h. induction s as [|a s IH]; intros h; cbn; [discriminate|].
  intros Hb Hs. apply orb_false_elim in Hs as [Ha Hs].
  destruct (before_last d s) as [h'|].
  - injection Hb as <-. cbn. rewrite Ha, (IH h' eq_refl Hs). reflexivity.
  - destruct (Ascii.eqb a d); [|discriminate]. injection Hb as <-. reflexivity.
Qed.

Lemma split_nonempty c s : split c s <> [].
Proof.
  destruct s as [|a s]; cbn; [discriminate|].
  destruct (Ascii.eqb a c); [discriminate|]. destruct (split c s); discriminate.
Qed.

Lemma split_no_sep c s : occurs c s = false -> split c s = [s].
Proof.
  induction s as [|a s IH]; cbn; [reflexivity|].
  intros H. apply orb_false_elim in H as [Ha Hs]. rewrite Ha, (IH Hs). reflexivity.
Qed.

Lemma split_app c a b : split c (a +:+ String c b) = split c a ++ split c b.
Proof.
  induction a as [|x a IH].
  - change (split c (String c b) = [EmptyString] ++ split c b).
    cbn [split]. rewrite Ascii.eqb_refl. reflexivity.
  - change (split c (String x (a +:+ String c b)) = split c (String x a) ++ split c b).
    cbn [split]. rewrite IH. destruct (Ascii.eqb x c); [reflexivity|].
    pose proof (split_nonempty c a) as Hne. destruct (split c a); [contradiction | reflexivity].
Qed.

Lemma split_pieces c s : Forall (fun x => occurs c x = false) (split c s).
Proof.
  induction s as [|a s IH]; cbn [split]; [repeat constructor|].
  destruct (Ascii.eqb a c) eqn:Ha; [constructor; [reflexivity | exact IH]|].
  destruct (split c s) as [|h t]; [repeat constructor; cbn; rewrite Ha; reflexivity|].
  inversion IH as [|? ? Hh Ht]; subst. constructor; [|exact Ht].
  cbn. rewrite Ha, Hh. reflexivity.
Qed.

(** The last component of a path has no separator. *)
Lemma name_no_sep path : occurs "/" (name path) = false.
Proof.
  unfold name, parts.
  assert (H : Forall (fun x => occurs "/" x = false)
                (filter (fun p => p <> EmptyString /\ p <> ".") (split "/" path))).
  { apply Forall_forall. intros x Hx. apply list_elem_of_filter in Hx as [_ Hx].
    pose proof (split_pieces "/" path) as Hall. rewrite Forall_forall in Hall. auto. }
  induction H as [|x l Hx Hl IH]; [reflexivity|].
  destruct l as [|y l]; [exact Hx | exact IH].
Qed.

Lemma stem_no_sep path : occurs "/" (stem path) = false.
Proof.
  unfold stem. pose proof (name_no_sep path) as Hn.
  destruct (before_last "." (name path)) as [h|] eqn:Hb; [|exact Hn].
  destruct (_ && _); [|exact Hn]. exact (before_last_occurs _ _ _ _ Hb Hn).
Qed.

(** The name of a path that ends in a separator and a plain component. *)
Lemma name_app dir b :
  occurs "/" b = false -> b <> EmptyString -> b <> "." -> name (dir +:+ String "/" b) = b.
Proof.
  intros Hsep Hne Hdot. unfold name, parts.
  rewrite split_app, (split_no_sep _ _ Hsep), filter_app.
  rewrite filter_cons_True by auto. rewrite filter_nil. apply last_last.
Qed.

(** The stem of a name that ends in a dot and a plain extension. *)
Lemma stem_app dir x ext :
  occurs "/" x = false -> occurs "/" ext = false -> occurs "." ext = false ->
  x <> EmptyString -> ext <> EmptyString ->
  stem (dir +:+ String "/" (x +:+ String "." ext)) = x.
Proof.
  intros Hx Hext Hdot Hxne Hene. unfold stem. rewrite name_app.
  - rewrite (before_last_app _ _ _ Hdot). rewrite length_append. cbn [String.length].
    destruct x as [|a x]; [contradiction|]. destruct ext as [|e ext]; [contradiction|].
    cbn [String.length].
    replace (_ && _)%nat with true; [reflexivity|]. symmetry.
    apply andb_true_intro. split; [reflexivity|]. apply Nat.ltb_lt. lia.
  - rewrite occurs_append. cbn [occurs]. rewrite Hx, Hext. reflexivity.
  - destruct x; [contradiction | discriminate].
  - destruct x as [|a [|]]; [contradiction | discriminate | discriminate].
Qed.

Lemma endswith_app s suffix : endswith s suffix = true -> exists pre, s = pre +:+ suffix.
Proof.
  induction s as [|c s IH]; cbn [endswith]; intros H.
  - apply orb_prop in H as [H|H]; [|discriminate H].
    apply String.eqb_eq in H. subst suffix. exists EmptyString. reflexivity.
  - apply orb_prop in H as [H|H].
    + apply String.eqb_eq in H. subst suffix. exists EmptyString. reflexivity.
    + destruct (IH H) as [pre ->]. exists (String c pre). reflexivity.
Qed.

Lemma lower_app_inv pre : forall s suffix,
  lower s = pre +:+ suffix -> exists a b, s = a +:+ b /\ lower a = pre /\ lower b = suffix.
Proof.
  induction pre as [|c pre IH]; intros s suffix H.
  - exists EmptyString, s. auto.
  - destruct s as [|d s]; [discriminate H|]. cbn in H. injection H as Hc Hs.
    destruct (IH _ _ Hs) as (a & b & -> & Ha & Hb).
    exists (String d a), b. cbn. rewrite Hc, Ha. auto.
Qed.

Lemma lower_char_dot c : lower_char c = "."%char -> c = "."%char.
Proof.
  destruct c as [[] [] [] [] [] [] [] []]; vm_compute; intros H; congruence.
Qed.

Lemma lower_char_not_dot c d : lower_char c = d -> d <> "."%char -> Ascii.eqb c "." = false.
Proof.
  intros H Hd. destruct (Ascii.eqb_spec c "."%char) as [->|]; [|reflexivity].
  exfalso. apply Hd. rewrite <- H. reflexivity.
Qed.

End PyStrFacts.

(** ** Facts on the float arithmetic *)

Module PyFloatFacts.
Import PyFloat.

(** *** Rounding facts for normal numbers *)

Lemma dig_log2 p : dig p = Z.log2 (Zpos p) + 1.
Proof.
  unfold dig. destruct p as [p|p|]; simpl; try reflexivity.
  - assert (E : digits2_pos p = Pos.size p) by (induction p; simpl; congruence).
    rewrite E. lia.
  - assert (E : digits2_pos p = Pos.size p) by (induction p; simpl; congruence).
    rewrite E. lia.
Qed.

Lemma dig_bounds p : 2 ^ (dig p - 1) <= Zpos p < 2 ^ dig p.
Proof.
  rewrite dig_log2. replace (Z.log2 (Z.pos p) + 1 - 1) with (Z.log2 (Z.pos p)) by lia.
  pose proof (Z.log2_spec (Zpos p) ltac:(lia)). replace (Z.log2 (Z.pos p) + 1) with (Z.succ (Z.log2 (Z.pos p))) by lia. lia.
Qed.

Lemma dig_unique p d : 2 ^ (d - 1) <= Zpos p < 2 ^ d -> dig p = d.
Proof.
  intros H. rewrite dig_log2.
  assert (0 < d). { destruct (Z.lt_ge_cases 0 d); auto. exfalso.
    destruct (Z.eq_dec d 0); [subst; simpl in H; lia|]. rewrite (Z.pow_neg_r 2 d) in H by lia. lia. }
  rewrite (Z.log2_unique (Zpos p) (d-1)); try lia.
  replace (Z.succ (d-1)) with d by lia. lia.
Qed.

Lemma shr_1_m mrs : 0 <= shr_m mrs -> shr_m (shr_1 mrs) = Z.div2 (shr_m mrs).
Proof. destruct mrs as [m r s]; simpl. destruct m as [|[p|p|]|p]; simpl; intros; try reflexivity; lia. Qed.

Lemma shr_1_nonneg mrs : 0 <= shr_m mrs -> 0 <= shr_m (shr_1 mrs).
Proof. intros H. rewrite shr_1_m by auto. rewrite Z.div2_div. apply Z.div_pos; lia. Qed.

Lemma pow2_xI p : 2 ^ Zpos p~1 = 2 * (2 ^ Zpos p * 2 ^ Zpos p).
Proof. replace (Zpos p~1) with (1 + (Zpos p + Zpos p)) by lia.
  rewrite !Z.pow_add_r, Z.pow_1_r by lia. reflexivity. Qed.

Lemma pow2_xO p : 2 ^ Zpos p~0 = 2 ^ Zpos p * 2 ^ Zpos p.
Proof. replace (Zpos p~0) with (Zpos p + Zpos p) by lia.
  rewrite Z.pow_add_r by lia. reflexivity. Qed.

Lemma iter_shr_m p : forall mrs, 0 <= shr_m mrs ->
  shr_m (iter_pos shr_1 p mrs) = shr_m mrs / 2 ^ Zpos p.
Proof.
  induction p as [p IH|p IH|]; intros mrs H; simpl iter_pos.
  - assert (H1 := shr_1_nonneg _ H).
    assert (H2 : 0 <= shr_m (iter_pos shr_1 p (shr_1 mrs))) by (rewrite IH by auto; apply Z.div_pos; lia).
    rewrite IH, IH, shr_1_m by auto. rewrite Z.div2_div.
    rewrite !Z.div_div by lia. rewrite pow2_xI. reflexivity.
  - assert (H2 : 0 <= shr_m (iter_pos shr_1 p mrs)) by (rewrite IH by auto; apply Z.div_pos; lia).
    rewrite IH, IH by auto. rewrite !Z.div_div by lia. rewrite pow2_xO. reflexivity.
  - rewrite shr_1_m by auto. rewrite Z.div2_div. reflexivity.
Qed.

Lemma round_nearest_even_range m l :
  round_nearest_even m l = m \/ round_nearest_even m l = m + 1.
Proof. destruct l as [|[]]; simpl; auto. destruct (Z.even m); auto. Qed.


Lemma shr_spec mrs e n : 0 <= n -> 0 <= shr_m mrs ->
  exists mrs', shr mrs e n = (mrs', e + n) /\ shr_m mrs' = shr_m mrs / 2 ^ n.
Proof.
  intros Hn Hm. destruct n as [|p|p]; try lia.
  - exists mrs. simpl. rewrite Z.add_0_r, Z.div_1_r. auto.
  - exists (iter_pos shr_1 p mrs). simpl. split; [reflexivity|]. apply iter_shr_m; auto.
Qed.

Lemma fexp_normal e : -1074 <= e - 53 -> fexp prec emax e = e - 53.
Proof. unfold fexp, emin, prec, emax. lia. Qed.

Lemma shr_record_of_loc_m m l : shr_m (shr_record_of_loc m l) = m.
Proof. destruct l as [|[]]; reflexivity. Qed.

Lemma shr_fexp_fits rp e : dig rp = 53 -> -1074 <= e ->
  shr_fexp prec emax (Zpos rp) e loc_Exact
  = ({| shr_m := Zpos rp; shr_r := false; shr_s := false |}, e).
Proof.
  intros Hd He. unfold shr_fexp. change (Zdigits2 (Zpos rp)) with (dig rp).
  rewrite Hd, fexp_normal by lia.
  replace (53 + e - 53 - e) with 0 by lia. reflexivity.
Qed.

Lemma shr_fexp_carry e : -1074 <= e ->
  shr_fexp prec emax 9007199254740992 e loc_Exact
  = ({| shr_m := 4503599627370496; shr_r := false; shr_s := false |}, e + 1).
Proof.
  intros He. unfold shr_fexp. change (Zdigits2 9007199254740992) with 54.
  rewrite fexp_normal by lia.
  replace (54 + e - 53 - e) with 1 by lia. reflexivity.
Qed.

Lemma round_normal (M : positive) (E : Z) (l : location) :
  53 <= dig M -> -1074 <= dig M + E - 53 -> dig M + E - 53 < 971 ->
  exists m e, binary_round_aux prec emax false (Zpos M) E l = S754_finite false m e
     /\ dig m = 53
     /\ ((e = E + (dig M - 53) /\
          (Zpos m = Zpos M / 2 ^ (dig M - 53) \/ Zpos m = Zpos M / 2 ^ (dig M - 53) + 1))
         \/ (e = E + (dig M - 53) + 1 /\ Zpos M / 2 ^ (dig M - 53) + 1 = 2 ^ 53 /\ Zpos m = 2 ^ 52)).
Proof.
  intros Hd Hlo Hhi.
  set (n := dig M - 53). set (q := Zpos M / 2 ^ n).
  assert (Hq : 2 ^ 52 <= q < 2 ^ 53).
  { pose proof (dig_bounds M) as [B1 B2].
    assert (P1 : 2 ^ (dig M - 1) = 2 ^ 52 * 2 ^ n)
      by (rewrite <- Z.pow_add_r by lia; f_equal; lia).
    assert (P2 : 2 ^ dig M = 2 ^ 53 * 2 ^ n)
      by (rewrite <- Z.pow_add_r by lia; f_equal; lia).
    assert (0 < 2 ^ n) by (apply Z.pow_pos_nonneg; lia).
    unfold q; split.
    - apply Z.div_le_lower_bound; lia.
    - apply Z.div_lt_upper_bound; lia. }
  unfold binary_round_aux. unfold shr_fexp at 1.
  change (Zdigits2 (Zpos M)) with (dig M).
  rewrite fexp_normal by lia.
  replace (dig M + E - 53 - E) with n by (unfold n; lia).
  destruct (shr_spec (shr_record_of_loc (Zpos M) l) E n) as (mrs' & -> & Hm');
    [unfold n; lia | rewrite shr_record_of_loc_m; lia |].
  rewrite shr_record_of_loc_m in Hm'. fold q in Hm'. rewrite Hm'.
  set (r := round_nearest_even q (loc_of_shr_record mrs')).
  assert (Hr : r = q \/ r = q + 1) by apply round_nearest_even_range.
  destruct (Z.eq_dec r (2 ^ 53)) as [Ebig | Hsmall].
  - (* the rounded mantissa overflows to 2^53: one more shift *)
    rewrite Ebig. change (2 ^ 53) with 9007199254740992.
    rewrite shr_fexp_carry by (unfold n; lia). cbn [shr_m].
    replace (Z.leb (E + n + 1) (emax - prec)) with true
      by (symmetry; apply Z.leb_le; unfold emax, prec, n; lia).
    eexists _, _. split; [reflexivity|]. split; [reflexivity|].
    right. split; [reflexivity|]. split; [lia | reflexivity].
  - assert (Hr' : 2 ^ 52 <= r < 2 ^ 53) by lia.
    destruct r as [|rp|rp] eqn:Er; try lia.
    assert (Hdig : dig rp = 53) by (apply dig_unique; lia).
    rewrite shr_fexp_fits by (unfold n; lia). cbn [shr_m].
    replace (Z.leb (E + n) (emax - prec)) with true
      by (symmetry; apply Z.leb_le; unfold emax, prec, n; lia).
    exists rp, (E + n). split; [reflexivity|]. split; [exact Hdig|].
    left. split; [reflexivity|]. lia.
Qed.


(** Uniform reading of [round_normal]: the result is [k * 2^(E+n)] with
    [k] the truncated mantissa or its successor. *)
Lemma round_bracket (M : positive) (E : Z) (l : location) :
  53 <= dig M -> -1074 <= dig M + E - 53 -> dig M + E - 53 < 971 ->
  exists m e c, binary_round_aux prec emax false (Zpos M) E l = S754_finite false m e
     /\ dig m = 53 /\ (c = 0 \/ c = 1) /\ e = E + (dig M - 53) + c
     /\ (Zpos m * 2 ^ c = Zpos M / 2 ^ (dig M - 53)
         \/ Zpos m * 2 ^ c = Zpos M / 2 ^ (dig M - 53) + 1).
Proof.
  intros Hd Hlo Hhi.
  destruct (round_normal M E l Hd Hlo Hhi) as (m & e & Heq & Hm & [[He Hv] | (He & Hc & Hv)]).
  - exists m, e, 0. rewrite Z.pow_0_r, Z.mul_1_r. repeat split; auto. lia.
  - exists m, e, 1. repeat split; auto. right. rewrite Hv, Hc. reflexivity.
Qed.

Lemma round_exact (M : positive) (E : Z) :
  dig M = 53 -> -1074 <= E <= 971 ->
  binary_round_aux prec emax false (Zpos M) E loc_Exact = S754_finite false M E.
Proof.
  intros Hd HE. unfold binary_round_aux.
  rewrite shr_fexp_fits by lia. cbn [shr_m loc_of_shr_record round_nearest_even].
  rewrite shr_fexp_fits by lia. cbn [shr_m].
  replace (Z.leb E (emax - prec)) with true
    by (symmetry; apply Z.leb_le; unfold emax, prec; lia).
  reflexivity.
Qed.

Lemma iter_xO p d : Zpos (Pos.iter xO p d) = Zpos p * 2 ^ Zpos d.
Proof.
  induction d as [|d IH] using Pos.peano_ind.
  - simpl. lia.
  - rewrite Pos.iter_succ, Pos2Z.inj_xO, IH, Pos2Z.inj_succ, Z.pow_succ_r by lia. lia.
Qed.

Lemma of_int_normal n : 0 < n < 2 ^ 53 ->
  exists m e, of_int n = S754_finite false m e /\ dig m = 53 /\ -52 <= e <= 0
              /\ Zpos m = n * 2 ^ (- e).
Proof.
  intros Hn. destruct n as [|p|p]; try lia.
  unfold of_int, binary_normalize, binary_round.
  change (Zpos (digits2_pos p)) with (dig p). rewrite Z.add_0_r.
  pose proof (dig_bounds p) as [B1 B2].
  assert (Hd : 1 <= dig p <= 53).
  { split; [unfold dig; lia|].
    destruct (Z.le_gt_cases (dig p) 53) as [|Hgt]; auto. exfalso.
    assert (2 ^ 53 <= 2 ^ (dig p - 1)) by (apply Z.pow_le_mono_r; lia). lia. }
  rewrite fexp_normal by lia. unfold shl_align.
  destruct (dig p - 53 - 0) as [|k|k] eqn:Ek; try lia.
  - rewrite round_exact by lia. exists p, 0. repeat split; try lia.
  - assert (Hk : dig (Pos.iter xO p k) = 53).
    { apply dig_unique. rewrite iter_xO.
      assert (P1 : 2 ^ (53 - 1) = 2 ^ (dig p - 1) * 2 ^ Zpos k)
        by (rewrite <- Z.pow_add_r by lia; f_equal; lia).
      assert (P2 : 2 ^ 53 = 2 ^ dig p * 2 ^ Zpos k)
        by (rewrite <- Z.pow_add_r by lia; f_equal; lia).
      assert (0 < 2 ^ Zpos k) by (apply Z.pow_pos_nonneg; lia).
      rewrite P1, P2. nia. }
    rewrite round_exact by lia.
    exists (Pos.iter xO p k), (dig p - 53). repeat split; try lia.
    rewrite iter_xO. f_equal. f_equal. lia.
Qed.


Lemma shiftl_normal_lower m e a :
  dig m = 53 -> 0 <= a < 2 ^ 52 ->
  (e < 0 -> a * 2 ^ (- e) <= Zpos m) ->
  a <= Z.shiftl (Zpos m) e.
Proof.
  intros Hd Ha Hlow. pose proof (dig_bounds m) as [B1 _]. rewrite Hd in B1.
  change (2 ^ (53 - 1)) with (2 ^ 52) in B1.
  destruct (Z.lt_ge_cases e 0) as [Hneg|Hpos].
  - rewrite Z.shiftl_div_pow2 by lia.
    apply Z.div_le_lower_bound; [apply Z.pow_pos_nonneg; lia|].
    specialize (Hlow Hneg). lia.
  - rewrite Z.shiftl_mul_pow2 by lia.
    assert (1 <= 2 ^ e) by (pose proof (Z.pow_pos_nonneg 2 e); lia). nia.
Qed.

Lemma round_lower (M : positive) (E : Z) (l : location) (a : Z) :
  53 <= dig M -> -1074 <= dig M + E - 53 -> dig M + E - 53 < 971 ->
  0 <= a < 2 ^ 52 ->
  (E <= 0 -> a * 2 ^ (- E) <= Zpos M) ->
  exists m e, binary_round_aux prec emax false (Zpos M) E l = S754_finite false m e
    /\ dig m = 53 /\ E + (dig M - 53) <= e <= E + (dig M - 53) + 1
    /\ a <= Z.shiftl (Zpos m) e.
Proof.
  intros Hd Hlo Hhi Ha Hlow.
  destruct (round_bracket M E l Hd Hlo Hhi) as (m & e & c & Heq & Hm & Hc & He & Hv).
  exists m, e. split; [exact Heq|]. split; [exact Hm|]. split; [lia|].
  apply shiftl_normal_lower; auto. intros Hneg.
  set (n := dig M - 53) in *.
  assert (HE : E <= 0) by lia. specialize (Hlow HE).
  assert (Hsplit : 2 ^ (- E) = 2 ^ (- e) * 2 ^ c * 2 ^ n).
  { rewrite <- !Z.pow_add_r by lia. f_equal. lia. }
  assert (P1 : 0 < 2 ^ n) by (apply Z.pow_pos_nonneg; lia).
  assert (P2 : 0 < 2 ^ c) by (apply Z.pow_pos_nonneg; lia).
  assert (HQ : a * 2 ^ (- e) * 2 ^ c <= Zpos M / 2 ^ n).
  { apply Z.div_le_lower_bound; [exact P1|]. rewrite Hsplit in Hlow. lia. }
  assert (Zpos m * 2 ^ c >= a * 2 ^ (- e) * 2 ^ c) by lia.
  nia.
Qed.


Lemma dig_range p lo hi : 2 ^ lo <= Zpos p < 2 ^ hi -> 0 <= lo -> lo < dig p <= hi.
Proof.
  intros [H1 H2] Hlo. pose proof (dig_bounds p) as [B1 B2].
  assert (Hd : 0 < dig p) by (unfold dig; lia).
  split.
  - destruct (Z.lt_ge_cases lo (dig p)); auto. exfalso.
    assert (2 ^ dig p <= 2 ^ lo) by (apply Z.pow_le_mono_r; lia). lia.
  - destruct (Z.le_gt_cases (dig p) hi); auto. exfalso.
    assert (2 ^ hi <= 2 ^ (dig p - 1)) by (apply Z.pow_le_mono_r; lia). lia.
Qed.

Lemma normal_bounds m : dig m = 53 -> 2 ^ 52 <= Zpos m < 2 ^ 53.
Proof. intros H. pose proof (dig_bounds m) as B. rewrite H in B. exact B. Qed.

Lemma div_normal_lower m1 e1 m2 e2 a :
  dig m1 = 53 -> dig m2 = 53 -> -900 <= e1 - e2 <= 900 ->
  0 <= a < 2 ^ 52 ->
  (0 <= 53 + e2 - e1 -> a * 2 ^ (53 + e2 - e1) * Zpos m2 <= Zpos m1 * 2 ^ 53) ->
  exists m e,
    SFdiv prec emax (S754_finite false m1 e1) (S754_finite false m2 e2)
      = S754_finite false m e
    /\ dig m = 53 /\ e1 - e2 - 53 <= e <= e1 - e2 - 51
    /\ a <= Z.shiftl (Zpos m) e.
Proof.
  intros H1 H2 He Ha Hlow.
  pose proof (normal_bounds _ H1) as B1. pose proof (normal_bounds _ H2) as B2.
  unfold SFdiv, SFdiv_core_binary.
  change (Zdigits2 (Zpos m1)) with (dig m1). change (Zdigits2 (Zpos m2)) with (dig m2).
  rewrite H1, H2. rewrite fexp_normal by lia.
  replace (Z.min (53 + e1 - (53 + e2) - 53) (e1 - e2)) with (e1 - e2 - 53) by lia.
  replace (e1 - e2 - (e1 - e2 - 53)) with 53 by lia.
  cbv beta iota zeta.
  rewrite Z.shiftl_mul_pow2 by lia.
  pose proof (Z.div_eucl_eq (Zpos m1 * 2 ^ 53) (Zpos m2) ltac:(lia)) as Hdm.
  pose proof (Z.mod_pos_bound (Zpos m1 * 2 ^ 53) (Zpos m2) ltac:(lia)) as Hmod.
  unfold Z.modulo in Hmod.
  destruct (Z.div_eucl (Zpos m1 * 2 ^ 53) (Zpos m2)) as [q r] eqn:Eqr.
  assert (Hq : 2 ^ 52 <= q < 2 ^ 54) by nia.
  destruct q as [|qp|qp]; try lia.
  pose proof (dig_range qp 52 54 Hq ltac:(lia)) as Hdq.
  simpl xorb.
  destruct (round_lower qp (e1 - e2 - 53) (new_location (Zpos m2) r) a) as (m & e & Heq & Hm & Hrange & Hres);
    try lia.
  - intros HE. replace (- (e1 - e2 - 53)) with (53 + e2 - e1) by lia.
    specialize (Hlow ltac:(lia)). nia.
  - exists m, e. repeat split; auto; lia.
Qed.

Lemma mul_normal_lower m1 e1 m2 e2 a :
  dig m1 = 53 -> dig m2 = 53 -> -900 <= e1 + e2 <= 800 ->
  0 <= a < 2 ^ 52 ->
  (e1 + e2 <= 0 -> a * 2 ^ (- (e1 + e2)) <= Zpos m1 * Zpos m2) ->
  exists m e,
    SFmul prec emax (S754_finite false m1 e1) (S754_finite false m2 e2)
      = S754_finite false m e
    /\ dig m = 53 /\ a <= Z.shiftl (Zpos m) e.
Proof.
  intros H1 H2 He Ha Hlow.
  pose proof (normal_bounds _ H1) as B1. pose proof (normal_bounds _ H2) as B2.
  unfold SFmul. simpl xorb.
  assert (Hq : 2 ^ 104 <= Zpos (m1 * m2) < 2 ^ 106).
  { rewrite Pos2Z.inj_mul. change (2 ^ 104) with (2 ^ 52 * 2 ^ 52).
    change (2 ^ 106) with (2 ^ 53 * 2 ^ 53). nia. }
  pose proof (dig_range (m1 * m2) 104 106 Hq ltac:(lia)) as Hdq.
  destruct (round_lower (m1 * m2) (e1 + e2) loc_Exact a) as (m & e & Heq & Hm & Hrange & Hres);
    try lia.
  exists m, e. repeat split; auto.
Qed.

(** *** The model on the ratios of the script

    The values agree bit for bit with CPython: [(1000/800).hex()] is
    [0x1.4000000000000p+0], [(1600/2000).hex()] is
    [0x1.999999999999ap-1], [(4/3).hex()] is [0x1.5555555555555p+0], and
    [(1000/(2000/960)).hex()] is [0x1.dffffffffffffp+8]. *)

Example ratio_1000_800 :
  int_truediv 1000 800 = Ok (S754_finite false 0x14000000000000 (-52)).
Proof. vm_compute. reflexivity. Qed.

Example ratio_1600_2000 :
  int_truediv 1600 2000 = Ok (S754_finite false 0x1999999999999a (-53)).
Proof. vm_compute. reflexivity. Qed.

Example ratio_4_3 :
  int_truediv 4 3 = Ok (S754_finite false 0x15555555555555 (-52)).
Proof. vm_compute. reflexivity. Qed.

Example quotient_below_480 :
  rbind (int_truediv 2000 960) (int_div_float 1000)
  = Ok (S754_finite false 0x1dffffffffffff (-44)).
Proof. vm_compute. reflexivity. Qed.

End PyFloatFacts.

(** ** The responsive image generator *)

Module ResponsiveFacts.
Import PyStr PyFloat PyFloatFacts Responsive.

(** *** The scaling step *)

Lemma of_int_small n : 0 < n < 2 ^ 52 ->
  exists m e, of_int n = S754_finite false m e /\ dig m = 53 /\ -52 <= e <= -1
              /\ Zpos m = n * 2 ^ (- e).
Proof.
  intros Hn. destruct (of_int_normal n) as (m & e & Heq & Hd & He & Hv); [lia|].
  exists m, e. repeat split; auto; try lia.
  destruct (Z.eq_dec e 0) as [->|]; [|lia]. exfalso.
  pose proof (normal_bounds m Hd). simpl in Hv. lia.
Qed.

Lemma int_truediv_normal a b : 0 < a < 2 ^ 52 -> 0 < b < 2 ^ 52 ->
  exists m e, int_truediv a b = Ok (S754_finite false m e) /\ dig m = 53 /\ -105 <= e <= 0.
Proof.
  intros Ha Hb.
  destruct (of_int_small a Ha) as (ma & ea & Ea & Da & Ra & _).
  destruct (of_int_small b Hb) as (mb & eb & Eb & Db & Rb & _).
  unfold int_truediv. replace (b =? 0) with false by (symmetry; apply Z.eqb_neq; lia).
  rewrite Ea, Eb.
  destruct (div_normal_lower ma ea mb eb 0 Da Db) as (m & e & Heq & Hd & He & _); try lia.
  rewrite Heq. exists m, e. repeat split; auto; lia.
Qed.

Lemma sizes_safe :
  forallb (fun p => forallb (fun b => target_safe (fst (snd b)) (snd (snd b))) (snd p)) sizes = true.
Proof. vm_compute. reflexivity. Qed.

Lemma dict_get_In {V : Type} (k : string) (d : list (string * V)) (v : V) :
  dict_get k d = Ok v -> In (k, v) d.
Proof.
  induction d as [|[k' v'] d IH]; cbn [dict_get]; [discriminate|].
  destruct (String.eqb k k') eqn:Ek.
  - intros [= ->]. apply String.eqb_eq in Ek as ->. left; reflexivity.
  - intros H. right. auto.
Qed.

Lemma target_safe_in_table image_type buckets size_name width height :
  dict_get image_type sizes = Ok buckets ->
  In (size_name, (width, height)) buckets ->
  target_safe width height = true.
Proof.
  intros Hget Hin. apply dict_get_In in Hget.
  pose proof sizes_safe as Hall. rewrite forallb_forall in Hall.
  specialize (Hall _ Hget). cbn [snd] in Hall. rewrite forallb_forall in Hall.
  exact (Hall _ Hin).
Qed.

Lemma pow2_mono a b : 0 <= a <= b -> 2 ^ a <= 2 ^ b.
Proof. intros. apply Z.pow_le_mono_r; lia. Qed.

(** Fit to height: the product covers the width once the ratio does. *)
Lemma fit_to_height width height mr er :
  0 < width < 2 ^ 52 -> 0 < height < 2 ^ 52 ->
  dig mr = 53 -> -105 <= er <= 0 ->
  width * 2 ^ (- er) <= height * Zpos mr ->
  exists new_width,
    int_of (int_mul_float height (S754_finite false mr er)) = Ok new_width
    /\ width <= new_width.
Proof.
  intros Hw Hh Hd He K.
  destruct (of_int_small height Hh) as (mh & eh & Eh & Dh & Rh & Vh).
  unfold int_mul_float. rewrite Eh.
  destruct (mul_normal_lower mh eh mr er width Dh Hd) as (m & e & Heq & Hm & Hres); try lia.
  - intros _. rewrite Vh.
    replace (- (eh + er)) with (- er + - eh) by lia.
    rewrite Z.pow_add_r by lia.
    assert (0 < 2 ^ (- eh)) by (apply Z.pow_pos_nonneg; lia). nia.
  - rewrite Heq. simpl. eauto.
Qed.

(** Fit to width: the quotient covers the height once the ratio allows it. *)
Lemma fit_to_width width height mr er :
  0 < width < 2 ^ 52 -> 0 < height < 2 ^ 52 ->
  dig mr = 53 -> -105 <= er <= 0 ->
  height * Zpos mr <= width * 2 ^ (- er) ->
  exists q new_height,
    int_div_float width (S754_finite false mr er) = Ok q
    /\ int_of q = Ok new_height /\ height <= new_height.
Proof.
  intros Hw Hh Hd He K.
  destruct (of_int_small width Hw) as (mw & ew & Ew & Dw & Rw & Vw).
  unfold int_div_float, float_div. simpl is_zero. rewrite Ew.
  destruct (div_normal_lower mw ew mr er height Dw Hd) as (m & e & Heq & Hm & Hrange & Hres); try lia.
  - intros Hs. rewrite Vw.
    assert (P : 2 ^ (- ew) * 2 ^ 53 = 2 ^ (- er) * 2 ^ (53 + er - ew)).
    { rewrite <- !Z.pow_add_r by lia. f_equal. lia. }
    assert (0 < 2 ^ (53 + er - ew)) by (apply Z.pow_pos_nonneg; lia).
    nia.
  - exists (S754_finite false m e). rewrite Heq. simpl. eauto.
Qed.

Lemma float_gt_normal mr er mt et :
  float_gt (S754_finite false mr er) (S754_finite false mt et) = true
  <-> (et < er \/ (et = er /\ Zpos mt < Zpos mr)).
Proof.
  unfold float_gt, SFltb, SFcompare.
  destruct (Z.compare_spec et er) as [Heq|Hlt|Hgt].
  - change (Pos.compare_cont Eq mt mr) with (Pos.compare mt mr).
    destruct (Pos.compare_spec mt mr) as [H|H|H]; split; intros; try discriminate; try lia; auto.
  - split; auto.
  - split; intros; try discriminate; lia.
Qed.

Lemma scaled_size_covers original_width original_height width height :
  target_safe width height = true ->
  0 < original_width < 2 ^ 52 -> 0 < original_height < 2 ^ 52 ->
  exists new_width new_height,
    scaled_size original_width original_height width height = Ok (new_width, new_height)
    /\ width <= new_width /\ height <= new_height.
Proof.
  intros Hsafe How Hoh.
  unfold target_safe in Hsafe.
  repeat (apply andb_prop in Hsafe as [Hsafe ?]).
  destruct (int_truediv width height) as [[ | | |[] mt et]|] eqn:Et; try discriminate.
  repeat match goal with
         | H : _ && _ = true |- _ => apply andb_prop in H as [H ?]
         end.
  repeat match goal with
         | H : (_ <? _) = true |- _ => apply Z.ltb_lt in H
         | H : (_ <=? _) = true |- _ => apply Z.leb_le in H
         end.
  destruct (int_truediv_normal original_width original_height How Hoh)
    as (mr & er & Er & Dr & Rr).
  pose proof (normal_bounds mr Dr) as Br.
  destruct (Z.eq_dec er et) as [Hee|Hne];
    [destruct (Z.eq_dec (Zpos mr) (Zpos mt)) as [Hmm|Hmn]|].
  - (* the source has the target's ratio: decided by evaluation *)
    assert (Hsame : scaled_size original_width original_height width height
                    = scaled_size width height width height).
    { unfold scaled_size. rewrite Er, Et. inversion Hmm. subst. reflexivity. }
    rewrite Hsame.
    destruct (scaled_size width height width height) as [[nw nh]|]; try discriminate.
    match goal with
    | H : _ && _ = true |- _ => apply andb_prop in H as [Hnw Hnh]
    end.
    apply Z.leb_le in Hnw, Hnh. eauto.
  - unfold scaled_size. rewrite Er, Et. cbn [rbind].
    destruct (float_gt (S754_finite false mr er) (S754_finite false mt et)) eqn:Hgt.
    + apply float_gt_normal in Hgt.
      destruct (fit_to_height width height mr er) as (nw & Hnw & Hle); try lia.
      { subst er. nia. }
      rewrite Hnw. cbn [rbind]. exists nw, height. repeat split; auto; lia.
    + assert (Hle : ~ (et < er \/ et = er /\ Zpos mt < Zpos mr))
        by (rewrite <- float_gt_normal; congruence).
      destruct (fit_to_width width height mr er) as (q & nh & Hq & Hnh & Hge); try lia.
      { subst er. nia. }
      rewrite Hq. cbn [rbind]. rewrite Hnh. cbn [rbind].
      exists width, nh. repeat split; auto; lia.
  - unfold scaled_size. rewrite Er, Et. cbn [rbind].
    destruct (float_gt (S754_finite false mr er) (S754_finite false mt et)) eqn:Hgt.
    + apply float_gt_normal in Hgt.
      assert (Hlt : et < er) by lia.
      destruct (fit_to_height width height mr er) as (nw & Hnw & Hle); try lia.
      { assert (2 ^ (- er) <= 2 ^ (- et - 1)) by (apply pow2_mono; lia). nia. }
      rewrite Hnw. cbn [rbind]. exists nw, height. repeat split; auto; lia.
    + assert (Hle : ~ (et < er \/ et = er /\ Zpos mt < Zpos mr))
        by (rewrite <- float_gt_normal; congruence).
      assert (Hlt : er < et) by lia.
      destruct (fit_to_width width height mr er) as (q & nh & Hq & Hnh & Hge); try lia.
      { assert (2 ^ (- et + 1) <= 2 ^ (- er)) by (apply pow2_mono; lia). nia. }
      rewrite Hq. cbn [rbind]. rewrite Hnh. cbn [rbind].
      exists width, nh. repeat split; auto; lia.
Qed.

(** *** Opening the source *)

Lemma image_open_store path st r st' : image_open path st = (r, st') -> st' = st.
Proof.
  unfold image_open. destruct (files st !! path) as [[format quality img|]|].
  - destruct (size img) as [w h]. destruct (_ || _); [intros [= _ <-]; reflexivity|].
    destruct (_ <? _); intros [= _ <-]; reflexivity.
  - intros [= _ <-]; reflexivity.
  - destruct (bool_decide (path ∈ dirs st)); intros [= _ <-]; reflexivity.
Qed.

(** A picture that [Image.open] returns is one the file holds, has
    positive dimensions and at most 2 * MAX_IMAGE_PIXELS pixels. *)
Lemma image_open_ok path st img st' :
  image_open path st = (Ok img, st') ->
  (exists format quality, files st !! path = Some (Encoded format quality img))
  /\ exists w h, size img = (w, h) /\ 0 < w /\ 0 < h /\ w * h <= 2 * MAX_IMAGE_PIXELS.
Proof.
  unfold image_open. destruct (files st !! path) as [[format quality img0|]|];
    [|discriminate|destruct (bool_decide _); discriminate].
  destruct (size img0) as [w h] eqn:Hsize.
  destruct ((w <? 1) || (h <? 1)) eqn:Hpos; [discriminate|].
  destruct (2 * MAX_IMAGE_PIXELS <? w * h) eqn:Hbomb; [discriminate|].
  intros [= <- _]. split; [eauto|]. exists w, h.
  apply orb_false_elim in Hpos as [Hw Hh]. apply Z.ltb_ge in Hw, Hh, Hbomb.
  split; [exact Hsize|]. lia.
Qed.

Lemma image_open_accepts path st format quality img w h :
  files st !! path = Some (Encoded format quality img) ->
  size img = (w, h) -> 0 < w -> 0 < h -> w * h <= 2 * MAX_IMAGE_PIXELS ->
  image_open path st = (Ok img, st).
Proof.
  intros Hfile Hsize Hw Hh Hpix. unfold image_open. rewrite Hfile, Hsize.
  replace ((w <? 1) || (h <? 1)) with false
    by (symmetry; apply orb_false_intro; apply Z.ltb_ge; lia).
  replace (2 * MAX_IMAGE_PIXELS <? w * h) with false by (symmetry; apply Z.ltb_ge; lia).
  reflexivity.
Qed.

(** The sides of a picture that was opened are far below 2^52. *)
Lemma opened_sides_small w h :
  0 < w -> 0 < h -> w * h <= 2 * MAX_IMAGE_PIXELS -> 0 < w < 2 ^ 52 /\ 0 < h < 2 ^ 52.
Proof.
  intros Hw Hh Hpix. unfold MAX_IMAGE_PIXELS in Hpix.
  assert (2 * 89478485 < 2 ^ 52) by (vm_compute; reflexivity).
  split; split; try assumption; nia.
Qed.

(** C2: for every source picture, that is every picture [Image.open]
    returns (its dimensions are positive), and every target of the size
    table, which are the targets the function takes (line 64), the
    scaling step of lines 66-76 returns a size that is at least the
    target in both dimensions. *)
Theorem scaled_size_covers_table_targets
    path st st' img original_width original_height image_type buckets size_name width height :
  image_open path st = (Ok img, st') ->
  size img = (original_width, original_height) ->
  dict_get image_type sizes = Ok buckets ->
  In (size_name, (width, height)) buckets ->
  0 < original_width /\ 0 < original_height
  /\ exists new_width new_height,
       scaled_size original_width original_height width height = Ok (new_width, new_height)
       /\ width <= new_width /\ height <= new_height.
Proof.
  intros Hopen Hsize Hget Hin.
  destruct (image_open_ok _ _ _ _ Hopen) as [_ (w & h & Hsz & Hw & Hh & Hpix)].
  rewrite Hsize in Hsz. injection Hsz as <- <-.
  destruct (opened_sides_small _ _ Hw Hh Hpix) as [How Hoh].
  split; [exact Hw|]. split; [exact Hh|].
  apply scaled_size_covers; auto. eapply target_safe_in_table; eauto.
Qed.

(** The hero 1600 bucket on a 1000x800 upload. *)
Lemma scaled_size_covers_table_targets_witness :
  0 < 1000 /\ 0 < 800
  /\ exists new_width new_height,
       scaled_size 1000 800 1600 2000 = Ok (new_width, new_height)
       /\ 1600 <= new_width /\ 2000 <= new_height.
Proof.
  apply (scaled_size_covers_table_targets "uploads/mango.png" sample_fs sample_fs
           (Raw "RGBA" 1000 800) 1000 800 "hero"
           [("400", (400, 500)); ("800", (800, 1000)); ("1200", (1200, 1500)); ("1600", (1600, 2000))]
           "1600" 1600 2000).
  - vm_compute. reflexivity.
  - reflexivity.
  - reflexivity.
  - right. right. right. left. reflexivity.
Defined.

(** The table matters: the scaling step can fall one pixel short of a
    target outside it. A 2000x960 source has the ratio of a 1000x480
    target, [1000 / (2000 / 960)] rounds to [479.99999999999994], and
    the scaled height would be 479. *)
Lemma scaled_size_one_pixel_short :
  scaled_size 2000 960 1000 480 = Ok (1000, 479).
Proof. vm_compute. reflexivity. Qed.

(** *** The image of one bucket *)

Lemma center_crop_size resized new_width new_height width height out :
  size resized = (new_width, new_height) ->
  center_crop resized new_width new_height width height = Ok out ->
  size out = (width, height).
Proof.
  unfold center_crop, crop. intros Hsz.
  destruct (negb (new_width =? width) || negb (new_height =? height)) eqn:Hne.
  - cbn. clear Hne. destruct (_ || _); [intros [=]|]. intros [= <-]. simpl. f_equal; lia.
  - intros [= <-]. apply orb_false_elim in Hne as [H1 H2].
    apply negb_false_iff in H1, H2. apply Z.eqb_eq in H1, H2. congruence.
Qed.

Lemma variant_size img original_width original_height width height out :
  variant img original_width original_height width height = Ok out ->
  size out = (width, height).
Proof.
  unfold variant.
  destruct (scaled_size _ _ _ _) as [[nw nh]|]; cbn [rbind]; [|intros [=]].
  unfold resize. destruct (_ || _); cbn [rbind]; [intros [=]|].
  apply center_crop_size. reflexivity.
Qed.

Lemma center_crop_mode resized nw nh w h out :
  center_crop resized nw nh w h = Ok out -> mode out = mode resized.
Proof.
  unfold center_crop, crop. destruct (negb _ || negb _); [|intros [= <-]; reflexivity].
  cbn. destruct ((_ <? _) || (_ <? _)); [intros [=]|]. intros [= <-]. reflexivity.
Qed.

Lemma variant_mode img ow oh w h out :
  variant img ow oh w h = Ok out -> mode out = mode img.
Proof.
  unfold variant.
  destruct (scaled_size _ _ _ _) as [[nw nh]|]; cbn [rbind]; [|intros [=]].
  unfold resize. destruct (_ || _); cbn [rbind]; [intros [=]|].
  intros H. apply center_crop_mode in H. exact H.
Qed.

Lemma variant_total img ow oh width height :
  target_safe width height = true ->
  0 < ow < 2 ^ 52 -> 0 < oh < 2 ^ 52 ->
  exists out, variant img ow oh width height = Ok out /\ size out = (width, height).
Proof.
  intros Hsafe How Hoh.
  destruct (scaled_size_covers ow oh width height Hsafe How Hoh) as (nw & nh & Hs & Hw & Hh).
  assert (Hpos : 0 < width /\ 0 < height).
  { unfold target_safe in Hsafe. repeat (apply andb_prop in Hsafe as [Hsafe ?]).
    repeat match goal with H : (_ <? _) = true |- _ => apply Z.ltb_lt in H end. lia. }
  assert (Hv : exists out, variant img ow oh width height = Ok out).
  { unfold variant. rewrite Hs. cbn [rbind]. unfold resize.
    replace ((nw <? 1) || (nh <? 1)) with false
      by (symmetry; apply orb_false_intro; apply Z.ltb_ge; lia).
    cbn [rbind]. unfold center_crop.
    destruct (negb (nw =? width) || negb (nh =? height)); [|eauto].
    cbn. replace (_ || _) with false; [eauto|].
    symmetry; apply orb_false_intro; apply Z.ltb_ge; lia. }
  destruct Hv as [out Hv]. exists out. split; [exact Hv|]. eapply variant_size; eauto.
Qed.

(** *** The centre crop *)

(** C3: on a scaled image at least as large as the target, the crop
    step keeps the rectangle whose left and top offsets are the floored
    halves of the excess width and height and whose size is the target:
    it crops to (left, top, left+W, top+H), and when the scaled size
    already is the target (both offsets are 0) it keeps the image as it
    is. For a 1000x800 source and the hero 1600x2000 bucket the scaled
    size is 2500x2000, the left offset 450 and the output 1600x2000. *)
Theorem center_crop_box :
  (forall img scaled_w scaled_h width height,
      0 < width -> 0 < height -> width <= scaled_w -> height <= scaled_h ->
      let left := (scaled_w - width) / 2 in
      let top := (scaled_h - height) / 2 in
      exists out,
        center_crop (Resized scaled_w scaled_h img) scaled_w scaled_h width height = Ok out
        /\ window out = (left, top, left + width, top + height)
        /\ size out = (width, height)
        /\ ((scaled_w, scaled_h) <> (width, height) ->
            out = Cropped (left, top, left + width, top + height) (Resized scaled_w scaled_h img)))
  /\ scaled_size 1000 800 1600 2000 = Ok (2500, 2000)
  /\ (2500 - 1600) / 2 = 450
  /\ variant (Raw "RGB" 1000 800) 1000 800 1600 2000
     = Ok (Cropped (450, 0, 2050, 2000) (Resized 2500 2000 (Raw "RGB" 1000 800)))
  /\ size (Cropped (450, 0, 2050, 2000) (Resized 2500 2000 (Raw "RGB" 1000 800))) = (1600, 2000).
Proof.
  split; [|repeat split; vm_compute; reflexivity].
  intros img sw sh width height Hw Hh Hsw Hsh left top.
  unfold center_crop.
  destruct (negb (sw =? width) || negb (sh =? height)) eqn:Hne.
  - fold left. fold top. unfold crop.
    replace ((left + width <? left) || (top + height <? top)) with false
      by (symmetry; apply orb_false_intro; apply Z.ltb_ge; lia).
    eexists. split; [reflexivity|]. cbn [window size]. repeat split.
    f_equal; lia.
  - apply orb_false_elim in Hne as [H1 H2].
    apply negb_false_iff in H1, H2. apply Z.eqb_eq in H1, H2. subst sw sh.
    exists (Resized width height img). split; [reflexivity|].
    assert (left = 0) as -> by (unfold left; rewrite Z.sub_diag; reflexivity).
    assert (top = 0) as -> by (unfold top; rewrite Z.sub_diag; reflexivity).
    cbn [window size]. repeat split. congruence.
Qed.

(** The card 300 bucket on a 300x240 scaled image. *)
Lemma center_crop_box_witness :
  exists out,
    center_crop (Resized 300 240 (Raw "RGB" 1000 800)) 300 240 300 225 = Ok out
    /\ window out = (0, 7, 300, 232).
Proof.
  destruct (proj1 center_crop_box (Raw "RGB" 1000 800) 300 240 300 225) as (out & H1 & H2 & _);
    [lia | lia | lia | lia |].
  exists out. split; [exact H1 | exact H2].
Defined.

(** *** The produced files *)

Lemma size_stored format img : size (stored format img) = size img.
Proof. unfold stored. destruct (String.eqb _ _); reflexivity. Qed.

Lemma mode_stored format img : mode (stored format img) = stored_mode format (mode img).
Proof.
  unfold stored.
  destruct (String.eqb_spec (stored_mode format (mode img)) (mode img)) as [H|H];
    [symmetry; exact H | reflexivity].
Qed.

(** The three ways a save ends: nothing happened (a directory is in the
    way, or the encoder refused and no file was there), the file was
    written, or the encoder refused and the file that was there is left
    empty. *)
Lemma save_spec path format quality img st r st' :
  save path format quality img st = (r, st') ->
  dirs st' = dirs st
  /\ (st' = st
      \/ (r = Ok tt
          /\ files st' = <[path := Encoded format quality (stored format img)]> (files st))
      \/ (r = Raise OSError /\ writable format img = false
          /\ files st' = <[path := Unreadable]> (files st))).
Proof.
  unfold save. destruct (bool_decide _); [intros [= <- <-]; auto|].
  destruct (writable _ _); [intros [= <- <-]; cbn [dirs files]; auto|].
  destruct (files st !! path); intros [= <- <-]; cbn [dirs files].
  - split; [reflexivity|]. right. right. auto.
  - split; [reflexivity|]. left. destruct st; reflexivity.
Qed.

Lemma save_ok path format quality img st :
  path ∉ dirs st -> writable format img = true ->
  save path format quality img st
  = (Ok tt, {| dirs := dirs st;
               files := <[path := Encoded format quality (stored format img)]> (files st) |}).
Proof.
  intros Hd Hw. unfold save. rewrite bool_decide_eq_false_2 by exact Hd. rewrite Hw. reflexivity.
Qed.

Lemma save_inv path format quality img st st' :
  save path format quality img st = (Ok tt, st') ->
  (path ∉ dirs st) /\ writable format img = true.
Proof.
  unfold save. destruct (bool_decide_reflect (path ∈ dirs st)); [discriminate|].
  destruct (writable format img); [auto | discriminate].
Qed.

(** What a pass over the buckets leaves at a path: the file that was
    there, a variant of a bucket, or the emptied file of the save that
    the encoder refused. *)
Lemma each_size_written img ow oh recipe_dir base_name buckets :
  forall st r st',
    each_size img ow oh recipe_dir base_name buckets st = (r, st') ->
    dirs st' = dirs st
    /\ forall path f, files st' !! path = Some f ->
         files st !! path = Some f
         \/ is_variant_of recipe_dir base_name buckets path f
         \/ (f = Unreadable /\ r = Raise OSError
             /\ is_output_path recipe_dir base_name buckets path).
Proof.
  induction buckets as [|[size_name [width height]] rest IH]; intros st r st'.
  - intros [= <- <-]. auto.
  - cbn [each_size]. unfold bind at 1, lift.
    destruct (variant img ow oh width height) as [v|e] eqn:Hv;
      [|intros [= <- <-]; auto].
    pose proof (variant_size _ _ _ _ _ _ Hv) as Hsz.
    assert (Hsave : forall ext fmt q sa ra sb,
              (fmt, q, ext) = ("JPEG", 85, "jpg") \/ (fmt, q, ext) = ("WebP", 80, "webp") ->
              save (variant_path recipe_dir base_name size_name ext) fmt q v sa = (ra, sb) ->
              dirs sb = dirs sa
              /\ forall path f, files sb !! path = Some f ->
                   files sa !! path = Some f
                   \/ is_variant_of recipe_dir base_name ((size_name, (width, height)) :: rest)
                        path f
                   \/ (f = Unreadable /\ ra = Raise OSError
                       /\ is_output_path recipe_dir base_name
                            ((size_name, (width, height)) :: rest) path)).
    { intros ext fmt q sa ra sb Hext Hs. apply save_spec in Hs as [Hd Hf]. split; [exact Hd|].
      intros path f Hl. destruct Hf as [->|[[_ Hf]|(Hra & _ & Hf)]]; [auto| |];
        rewrite Hf in Hl;
        (destruct (decide (variant_path recipe_dir base_name size_name ext = path)) as [<-|Hne];
         [rewrite lookup_insert_eq in Hl; injection Hl as <-
         |rewrite lookup_insert_ne in Hl by exact Hne; auto]).
      - right. left. exists size_name, width, height, fmt, q, ext, (stored fmt v).
        rewrite size_stored. split; [left; reflexivity|]. auto.
      - right. right. split; [reflexivity|]. split; [exact Hra|].
        exists size_name, (width, height), ext. split; [left; reflexivity|].
        split; [|reflexivity]. destruct Hext as [[= _ _ ->]|[= _ _ ->]]; auto. }
    unfold bind at 1.
    destruct (save _ "JPEG" 85 v st) as [r1 st1] eqn:Hs1.
    destruct (Hsave _ _ _ _ _ _ (or_introl eq_refl) Hs1) as [Hd1 Hf1].
    destruct r1 as [[]|e1]; [|intros [= <- <-]; auto].
    unfold bind at 1.
    destruct (save _ "WebP" 80 v st1) as [r2 st2] eqn:Hs2.
    destruct (Hsave _ _ _ _ _ _ (or_intror eq_refl) Hs2) as [Hd2 Hf2].
    assert (Hf12 : forall path f, files st2 !! path = Some f ->
              files st !! path = Some f
              \/ is_variant_of recipe_dir base_name ((size_name, (width, height)) :: rest) path f
              \/ (f = Unreadable /\ r2 = Raise OSError
                  /\ is_output_path recipe_dir base_name
                       ((size_name, (width, height)) :: rest) path)).
    { intros path f Hl. destruct (Hf2 path f Hl) as [H|H]; [|auto].
      destruct (Hf1 path f H) as [H1|[H1|(_ & H1 & _)]]; [auto | auto | discriminate H1]. }
    destruct r2 as [[]|e2]; [|intros [= <- <-]; split; [congruence | exact Hf12]].
    intros Hrest. apply IH in Hrest as [Hd3 Hf3]. split; [congruence|].
    intros path f Hl. destruct (Hf3 path f Hl) as [Hold|[Hnew|(Hf & Hr & Hout)]].
    + destruct (Hf12 path f Hold) as [H|[H|(_ & H & _)]]; [auto | auto | discriminate H].
    + right. left. destruct Hnew as (sn & w & h & fmt & q & ext & im & Hin & Hrest').
      exists sn, w, h, fmt, q, ext, im. split; [right; exact Hin | exact Hrest'].
    + right. right. split; [exact Hf|]. split; [exact Hr|].
      destruct Hout as (sn & wh & ext & Hin & Hrest').
      exists sn, wh, ext. split; [right; exact Hin | exact Hrest'].
Qed.

Lemma mkdir_step_files p st r st' :
  mkdir_step p st = (r, st') -> files st' = files st.
Proof.
  unfold mkdir_step. destruct (bool_decide _); [intros [= <- <-]; auto|].
  destruct (files st !! p); intros [= <- <-]; auto.
Qed.

Lemma makedirs_from_files ps : forall st r st',
  makedirs_from ps st = (r, st') -> files st' = files st.
Proof.
  induction ps as [|p rest IH]; intros st r st'; cbn [makedirs_from].
  - intros [= <- <-]. reflexivity.
  - unfold bind. destruct (mkdir_step p st) as [[[]|e] st1] eqn:Hs.
    + intros H. apply IH in H. apply mkdir_step_files in Hs. congruence.
    + intros [= <- <-]. eapply mkdir_step_files; eauto.
Qed.

Lemma makedirs_files path st r st' :
  makedirs path st = (r, st') -> files st' = files st.
Proof. apply makedirs_from_files. Qed.

Lemma mkdir_step_dirs p st r st' :
  mkdir_step p st = (r, st') -> dirs st ⊆ dirs st' /\ (r = Ok tt -> p ∈ dirs st').
Proof.
  unfold mkdir_step. destruct (bool_decide (p ∈ dirs st)) eqn:Hin.
  - intros [= <- <-]. apply bool_decide_eq_true in Hin. auto.
  - destruct (files st !! p); intros [= <- <-]; cbn [dirs].
    + split; [reflexivity | discriminate].
    + split; [set_solver | intros _; set_solver].
Qed.

(** A successful [makedirs] leaves every directory of the walk in place. *)
Lemma makedirs_from_dirs ps : forall st st',
  makedirs_from ps st = (Ok tt, st') ->
  dirs st ⊆ dirs st' /\ forall p, p ∈ ps -> p ∈ dirs st'.
Proof.
  induction ps as [|q rest IH]; intros st st'; cbn [makedirs_from].
  - intros [= <-]. split; [reflexivity|]. intros p Hp. inversion Hp.
  - unfold bind. destruct (mkdir_step q st) as [[[]|e] st1] eqn:Hs; [|discriminate].
    intros Hrest. apply IH in Hrest as [Hsub Hall].
    apply mkdir_step_dirs in Hs as [Hsub1 Hq].
    split; [intros x Hx; apply Hsub; apply Hsub1; exact Hx|].
    intros p Hp. apply elem_of_cons in Hp as [->|Hp]; [|auto].
    apply Hsub. apply Hq. reflexivity.
Qed.

(** The stages of a run: the directory, the source, the profile, the
    buckets. A run that does not reach the buckets raises and leaves
    the files as they were. *)
Lemma run_stages input_path recipe_name image_type st r st' :
  create_responsive_images input_path recipe_name image_type st = (r, st') ->
  (files st' = files st /\ exists e, r = Raise e)
  \/ exists st1 format quality src ow oh buckets,
       makedirs ("images/recipes/" +:+ recipe_name) st = (Ok tt, st1)
       /\ files st1 = files st
       /\ files st !! input_path = Some (Encoded format quality src)
       /\ size src = (ow, oh)
       /\ dict_get image_type sizes = Ok buckets
       /\ each_size (if bool_decide (mode src ∈ ["RGBA"; "LA"; "P"]) then convert "RGB" src else src)
            ow oh ("images/recipes/" +:+ recipe_name) (stem input_path) buckets st1 = (r, st')
       /\ 0 < ow /\ 0 < oh /\ ow * oh <= 2 * MAX_IMAGE_PIXELS.
Proof.
  unfold create_responsive_images. unfold bind at 1.
  destruct (makedirs _ st) as [[[]|e] st1] eqn:Hmk;
    [|intros [= <- <-]; left; split; [eapply makedirs_files; eauto | eauto]].
  pose proof (makedirs_files _ _ _ _ Hmk) as Hfiles.
  unfold bind at 1.
  destruct (image_open input_path st1) as [[src|e] st2] eqn:Hop;
    pose proof (image_open_store _ _ _ _ Hop) as ->;
    [|intros [= <- <-]; left; eauto].
  destruct (image_open_ok _ _ _ _ Hop) as [(format & quality & Hsrc) (ow & oh & Hsize & How & Hoh & Hpix)].
  rewrite Hfiles in Hsrc.
  set (img := if bool_decide (mode src ∈ ["RGBA"; "LA"; "P"]) then convert "RGB" src else src).
  assert (Hsz : size img = size src) by (unfold img; destruct (bool_decide _); reflexivity).
  rewrite Hsz, Hsize. unfold bind at 1, lift.
  destruct (dict_get image_type sizes) as [buckets|e] eqn:Hget;
    [|intros [= <- <-]; left; eauto].
  intros Hrun. right. exists st1, format, quality, src, ow, oh, buckets.
  split; [reflexivity|]. split; [exact Hfiles|]. split; [exact Hsrc|].
  split; [exact Hsize|]. split; [reflexivity|]. split; [exact Hrun|]. auto.
Qed.

(** Whatever file a run creates or changes, whether the run returns or
    raises, is a variant of a bucket of the profile, of that bucket's
    size, or the emptied file of the save that the encoder refused. *)
Lemma written_files_are_variants input_path recipe_name image_type st r st' path f :
  create_responsive_images input_path recipe_name image_type st = (r, st') ->
  files st' !! path = Some f ->
  files st !! path <> Some f ->
  exists buckets,
    dict_get image_type sizes = Ok buckets
    /\ (is_variant_of ("images/recipes/" +:+ recipe_name) (stem input_path) buckets path f
        \/ (f = Unreadable /\ r = Raise OSError
            /\ is_output_path ("images/recipes/" +:+ recipe_name) (stem input_path) buckets path)).
Proof.
  intros Hrun Hnew Hold.
  apply run_stages in Hrun
    as [[Hsame _]|(st1 & format & quality & src & ow & oh & buckets
                   & _ & Hfiles & _ & _ & Hget & Hrun & _)].
  - rewrite Hsame in Hnew. contradiction.
  - apply each_size_written in Hrun as [_ Hf]. exists buckets. split; [exact Hget|].
    destruct (Hf path f Hnew) as [H|[H|H]]; [rewrite Hfiles in H; contradiction | auto | auto].
Qed.

Lemma variant_path_inj recipe_dir base_name l e l' e' :
  variant_path recipe_dir base_name l e = variant_path recipe_dir base_name l' e' ->
  suffix l e = suffix l' e'.
Proof.
  unfold variant_path, suffix. intros H.
  apply (inj (String.append recipe_dir)) in H.
  apply (inj (String.append "/")) in H.
  apply (inj (String.append base_name)) in H.
  apply (inj (String.append "-")) in H. exact H.
Qed.

(** A pass over the buckets that returns has written both files of
    every bucket, from one picture of the bucket's size, and has left
    every other path as it was. *)
Lemma each_size_ok img ow oh recipe_dir base_name :
  forall buckets st st',
    each_size img ow oh recipe_dir base_name buckets st = (Ok tt, st') ->
    NoDup (suffixes buckets) ->
    dirs st' = dirs st
    /\ (forall l w h, In (l, (w, h)) buckets ->
          exists v,
            variant img ow oh w h = Ok v
            /\ files st' !! variant_path recipe_dir base_name l "jpg"
               = Some (Encoded "JPEG" 85 (stored "JPEG" v))
            /\ files st' !! variant_path recipe_dir base_name l "webp"
               = Some (Encoded "WebP" 80 (stored "WebP" v))
            /\ size v = (w, h))
    /\ (forall p, (forall s, s ∈ suffixes buckets ->
                     p <> recipe_dir +:+ "/" +:+ base_name +:+ "-" +:+ s) ->
                  files st' !! p = files st !! p).
Proof.
  induction buckets as [|[l [w h]] rest IH]; intros st st' Hrun Hnodup.
  - injection Hrun as <-. repeat split; auto. intros l w h [].
  - cbn [suffixes flat_map fst app] in Hnodup.
    apply NoDup_cons in Hnodup as [Hj Hnodup]. apply NoDup_cons in Hnodup as [Hw Hnodup].
    fold (suffixes rest) in Hj, Hw, Hnodup.
    cbn [each_size] in Hrun. unfold bind at 1, lift in Hrun.
    destruct (variant img ow oh w h) as [v|e] eqn:Hv; [|discriminate Hrun].
    pose proof (variant_size _ _ _ _ _ _ Hv) as Hsz.
    unfold bind at 1 in Hrun.
    destruct (save _ "JPEG" 85 v st) as [[[]|e1] st1] eqn:Hs1; [|discriminate Hrun].
    pose proof (save_inv _ _ _ _ _ _ Hs1) as [Hd1 Hw1].
    rewrite (save_ok _ _ _ _ _ Hd1 Hw1) in Hs1. injection Hs1 as <-.
    unfold bind at 1 in Hrun.
    destruct (save _ "WebP" 80 v _) as [[[]|e2] st2] eqn:Hs2; [|discriminate Hrun].
    pose proof (save_inv _ _ _ _ _ _ Hs2) as [Hd2 Hw2].
    rewrite (save_ok _ _ _ _ _ Hd2 Hw2) in Hs2. injection Hs2 as <-.
    cbn [dirs files] in Hrun.
    destruct (IH _ _ Hrun Hnodup) as (Hd & Hall & Hframe). cbn [dirs files] in Hd, Hframe.
    assert (Hpath : forall e s, variant_path recipe_dir base_name l e
                      = recipe_dir +:+ "/" +:+ base_name +:+ "-" +:+ s -> suffix l e = s).
    { intros e s Heq. unfold variant_path in Heq.
      apply (inj (String.append recipe_dir)) in Heq.
      apply (inj (String.append "/")) in Heq.
      apply (inj (String.append base_name)) in Heq.
      apply (inj (String.append "-")) in Heq. exact Heq. }
    split; [exact Hd|]. split.
    + intros l0 w0 h0 [Heq|Hin]; [|apply Hall; exact Hin].
      injection Heq as <- <- <-. exists v. split; [exact Hv|].
      rewrite !Hframe.
      * split; [|split; [apply lookup_insert_eq | exact Hsz]].
        rewrite lookup_insert_ne; [apply lookup_insert_eq|].
        intros Heq. symmetry in Heq. apply variant_path_inj in Heq.
        apply Hj. rewrite Heq. apply elem_of_cons. left. reflexivity.
      * intros s Hs Heq. apply Hw. apply Hpath in Heq. rewrite Heq. exact Hs.
      * intros s Hs Heq. apply Hj. apply Hpath in Heq. rewrite Heq.
        apply elem_of_cons. right. exact Hs.
    + intros p Hp. rewrite Hframe.
      * rewrite !lookup_insert_ne; [reflexivity| |].
        -- intros Heq. apply (Hp (suffix l "jpg")); [|symmetry; exact Heq].
           cbn [suffixes flat_map fst app]. apply elem_of_cons. left. reflexivity.
        -- intros Heq. apply (Hp (suffix l "webp")); [|symmetry; exact Heq].
           cbn [suffixes flat_map fst app]. apply elem_of_cons. right.
           apply elem_of_cons. left. reflexivity.
      * intros s Hs. apply Hp. cbn [suffixes flat_map fst app].
        apply elem_of_cons. right. apply elem_of_cons. right. exact Hs.
Qed.

(** On safe targets, with a mode the JPEG encoder takes and no
    directory in the place of an output file, the pass returns. *)
Lemma each_size_total img ow oh recipe_dir base_name :
  0 < ow < 2 ^ 52 -> 0 < oh < 2 ^ 52 ->
  writable "JPEG" img = true ->
  forall buckets st,
    (forall l w h, In (l, (w, h)) buckets -> target_safe w h = true) ->
    (forall l wh ext, In (l, wh) buckets -> ext = "jpg" \/ ext = "webp" ->
                      variant_path recipe_dir base_name l ext ∉ dirs st) ->
    exists st', each_size img ow oh recipe_dir base_name buckets st = (Ok tt, st').
Proof.
  intros How Hoh Hjpeg.
  induction buckets as [|[l [w h]] rest IH]; intros st Hsafe Hdirs.
  - exists st. reflexivity.
  - destruct (variant_total img ow oh w h) as (v & Hv & Hsz); auto.
    { apply (Hsafe l); left; reflexivity. }
    assert (Hjv : writable "JPEG" v = true).
    { unfold writable in *. cbn [String.eqb Ascii.eqb] in *.
      rewrite (variant_mode _ _ _ _ _ _ Hv). exact Hjpeg. }
    cbn [each_size]. unfold bind at 1, lift. rewrite Hv.
    unfold bind at 1. rewrite save_ok; [|apply (Hdirs l (w, h)); [left; reflexivity | auto] | exact Hjv].
    unfold bind at 1. rewrite save_ok; [|apply (Hdirs l (w, h)); [left; reflexivity | auto] | reflexivity].
    apply IH.
    + intros l0 w0 h0 Hin. apply (Hsafe l0). right; exact Hin.
    + intros l0 wh ext Hin Hext. cbn [dirs]. apply (Hdirs l0 wh); [right; exact Hin | exact Hext].
Qed.

Lemma sizes_suffixes_distinct :
  forallb (fun p => bool_decide (NoDup (suffixes (snd p)))) sizes = true.
Proof. vm_compute. reflexivity. Qed.

Lemma table_suffixes_nodup image_type buckets :
  dict_get image_type sizes = Ok buckets -> NoDup (suffixes buckets).
Proof.
  intros Hget. apply dict_get_In in Hget.
  pose proof sizes_suffixes_distinct as Hall. rewrite forallb_forall in Hall.
  specialize (Hall _ Hget). cbn [snd] in Hall. apply bool_decide_eq_true in Hall. exact Hall.
Qed.

(** A run that returns opened a picture of positive dimensions and
    wrote both files of every bucket of the profile, each holding a
    picture of the bucket's size. *)
Lemma run_ok_files input_path recipe_name image_type st st' :
  create_responsive_images input_path recipe_name image_type st = (Ok tt, st') ->
  exists format quality src original_width original_height buckets,
    files st !! input_path = Some (Encoded format quality src)
    /\ size src = (original_width, original_height)
    /\ 0 < original_width /\ 0 < original_height
    /\ dict_get image_type sizes = Ok buckets
    /\ forall l w h, In (l, (w, h)) buckets ->
         exists jpg webp,
           files st' !! variant_path ("images/recipes/" +:+ recipe_name) (stem input_path) l "jpg"
             = Some (Encoded "JPEG" 85 jpg)
           /\ files st' !! variant_path ("images/recipes/" +:+ recipe_name) (stem input_path) l "webp"
              = Some (Encoded "WebP" 80 webp)
           /\ size jpg = (w, h) /\ size webp = (w, h).
Proof.
  intros Hrun. apply run_stages in Hrun
    as [[_ [e He]]|(st1 & format & quality & src & ow & oh & buckets
                    & _ & _ & Hsrc & Hsize & Hget & Hrun & How & Hoh & _)]; [discriminate He|].
  exists format, quality, src, ow, oh, buckets.
  split; [exact Hsrc|]. split; [exact Hsize|]. split; [exact How|]. split; [exact Hoh|].
  split; [exact Hget|].
  destruct (each_size_ok _ _ _ _ _ _ _ _ Hrun (table_suffixes_nodup _ _ Hget)) as (_ & Hall & _).
  intros l w h Hin. destruct (Hall l w h Hin) as (v & _ & Hj & Hw & Hsz).
  exists (stored "JPEG" v), (stored "WebP" v). rewrite !size_stored. auto.
Qed.

(** A run on an ordinary source of a mode the JPEG encoder takes (after
    the conversion of RGBA, LA and P), with the output directory
    creatable and no directory in the place of an output file,
    returns. *)
Lemma run_returns
    input_path recipe_name image_type st format quality img original_width original_height buckets :
  files st !! input_path = Some (Encoded format quality img) ->
  size img = (original_width, original_height) ->
  ordinary original_width original_height ->
  mode img ∈ ["RGBA"; "LA"; "P"] ++ jpeg_modes ->
  dict_get image_type sizes = Ok buckets ->
  fst (makedirs ("images/recipes/" +:+ recipe_name) st) = Ok tt ->
  (forall l wh ext, In (l, wh) buckets -> ext = "jpg" \/ ext = "webp" ->
     variant_path ("images/recipes/" +:+ recipe_name) (stem input_path) l ext
       ∉ dirs (snd (makedirs ("images/recipes/" +:+ recipe_name) st))) ->
  exists st', create_responsive_images input_path recipe_name image_type st = (Ok tt, st').
Proof.
  intros Hfile Hsize (How & Hoh & Hpix & _) Hmode Hget Hmk Hdirs.
  assert (Hpix2 : original_width * original_height <= 2 * MAX_IMAGE_PIXELS)
    by (unfold MAX_IMAGE_PIXELS in *; lia).
  destruct (opened_sides_small _ _ How Hoh Hpix2) as [How' Hoh'].
  unfold create_responsive_images. unfold bind at 1.
  destruct (makedirs _ st) as [[[]|e] st1] eqn:Hmk1; [|discriminate Hmk].
  cbn [snd] in Hdirs. pose proof (makedirs_files _ _ _ _ Hmk1) as Hfiles.
  unfold bind at 1.
  rewrite (image_open_accepts input_path st1 format quality img original_width original_height);
    [|rewrite Hfiles; exact Hfile | exact Hsize | exact How | exact Hoh | exact Hpix2].
  set (img' := if bool_decide (mode img ∈ ["RGBA"; "LA"; "P"]) then convert "RGB" img else img).
  assert (Hsz : size img' = (original_width, original_height))
    by (unfold img'; destruct (bool_decide _); exact Hsize).
  assert (Hw : writable "JPEG" img' = true).
  { unfold writable, img'. cbn [String.eqb Ascii.eqb].
    destruct (bool_decide (mode img ∈ ["RGBA"; "LA"; "P"])) eqn:Hconv; [reflexivity|].
    apply bool_decide_eq_true. apply bool_decide_eq_false in Hconv.
    apply elem_of_app in Hmode as [H|H]; [contradiction | exact H]. }
  rewrite Hsz. unfold bind at 1, lift. rewrite Hget.
  apply (each_size_total img' original_width original_height
           ("images/recipes/" +:+ recipe_name) (stem input_path) How' Hoh' Hw buckets st1).
  - intros l w h Hin. eapply target_safe_in_table; eauto.
  - exact Hdirs.
Qed.

(** C1: every variant that [create_responsive_images] produces has
    exactly the pixel size of its bucket's target. First, whatever file
    a run creates or changes, whether it returns or raises, is the JPEG
    (quality 85) or the WebP (quality 80) of a bucket of the profile and
    holds a picture of exactly that bucket's size; the one other change
    a run can make is to leave empty an output that was there, when the
    JPEG encoder refuses the mode of the picture, and then the run
    raises. Second, a run that returns has opened a source of positive
    dimensions and has written both files of every bucket of the
    profile, each of the bucket's size. Third, a run does return on an
    ordinary source (positive dimensions, at most MAX_IMAGE_PIXELS
    pixels, sides in a proportion of at most 16 to 1) of a mode the
    JPEG encoder takes, for a profile of the table, when the output
    directory can be created and no directory sits at an output path. *)
Theorem variants_have_target_size :
  (forall input_path recipe_name image_type st r st' path f,
      create_responsive_images input_path recipe_name image_type st = (r, st') ->
      files st' !! path = Some f ->
      files st !! path <> Some f ->
      exists buckets,
        dict_get image_type sizes = Ok buckets
        /\ (is_variant_of ("images/recipes/" +:+ recipe_name) (stem input_path) buckets path f
            \/ (f = Unreadable /\ r = Raise OSError
                /\ is_output_path ("images/recipes/" +:+ recipe_name) (stem input_path)
                     buckets path)))
  /\ (forall input_path recipe_name image_type st st',
        create_responsive_images input_path recipe_name image_type st = (Ok tt, st') ->
        exists format quality src original_width original_height buckets,
          files st !! input_path = Some (Encoded format quality src)
          /\ size src = (original_width, original_height)
          /\ 0 < original_width /\ 0 < original_height
          /\ dict_get image_type sizes = Ok buckets
          /\ forall l w h, In (l, (w, h)) buckets ->
               exists jpg webp,
                 files st' !! variant_path ("images/recipes/" +:+ recipe_name) (stem input_path) l "jpg"
                   = Some (Encoded "JPEG" 85 jpg)
                 /\ files st' !! variant_path ("images/recipes/" +:+ recipe_name) (stem input_path) l "webp"
                    = Some (Encoded "WebP" 80 webp)
                 /\ size jpg = (w, h) /\ size webp = (w, h))
  /\ (forall input_path recipe_name image_type st format quality img
             original_width original_height buckets,
        files st !! input_path = Some (Encoded format quality img) ->
        size img = (original_width, original_height) ->
        ordinary original_width original_height ->
        mode img ∈ ["RGBA"; "LA"; "P"] ++ jpeg_modes ->
        dict_get image_type sizes = Ok buckets ->
        fst (makedirs ("images/recipes/" +:+ recipe_name) st) = Ok tt ->
        (forall l wh ext, In (l, wh) buckets -> ext = "jpg" \/ ext = "webp" ->
           variant_path ("images/recipes/" +:+ recipe_name) (stem input_path) l ext
             ∉ dirs (snd (makedirs ("images/recipes/" +:+ recipe_name) st))) ->
        exists st',
          create_responsive_images input_path recipe_name image_type st = (Ok tt, st')).
Proof.
  split; [|split].
  - intros. eapply written_files_are_variants; eauto.
  - intros. eapply run_ok_files; eauto.
  - intros. eapply run_returns; eauto.
Qed.

(** A transparent 1000x800 upload, processed for the card profile: the
    run returns, and it left both files of the two card buckets. *)
Lemma variants_have_target_size_witness :
  (exists st',
      create_responsive_images "uploads/mango.png" "mango-bites" "card" sample_fs = (Ok tt, st'))
  /\ exists format quality src original_width original_height buckets,
       files sample_fs !! "uploads/mango.png" = Some (Encoded format quality src)
       /\ size src = (original_width, original_height)
       /\ 0 < original_width /\ 0 < original_height
       /\ dict_get "card" sizes = Ok buckets
       /\ forall l w h, In (l, (w, h)) buckets ->
            exists jpg webp,
              files sample_after
                !! variant_path ("images/recipes/" +:+ "mango-bites") (stem "uploads/mango.png") l "jpg"
                = Some (Encoded "JPEG" 85 jpg)
              /\ files sample_after
                   !! variant_path ("images/recipes/" +:+ "mango-bites") (stem "uploads/mango.png") l "webp"
                 = Some (Encoded "WebP" 80 webp)
              /\ size jpg = (w, h) /\ size webp = (w, h).
Proof.
  split.
  - apply (proj2 (proj2 variants_have_target_size) "uploads/mango.png" "mango-bites" "card"
             sample_fs "PNG" 100 (Raw "RGBA" 1000 800) 1000 800
             [("300", (300, 225)); ("600", (600, 450))]).
    + vm_compute. reflexivity.
    + reflexivity.
    + unfold ordinary, MAX_IMAGE_PIXELS. lia.
    + apply (bool_decide_unpack _). vm_compute. exact I.
    + reflexivity.
    + vm_compute. reflexivity.
    + intros l wh ext [H|[H|[]]] [Hext|Hext]; subst ext; injection H as <- <-;
        apply (bool_decide_unpack _); vm_compute; exact I.
  - apply (proj1 (proj2 variants_have_target_size) "uploads/mango.png" "mango-bites" "card"
             sample_fs sample_after).
    vm_compute. reflexivity.
Defined.

(** *** Failing runs *)

(** C7 (as the code has it): a run whose source cannot be opened, or
    whose profile name is not in the size table, raises at once and
    writes no image file; the store it leaves is the one reached right
    after the output directory was created, so when that creation
    succeeded the directory and its parents are there. *)
Theorem failure_keeps_directory_writes_no_file input_path recipe_name image_type st :
  ~ readable st input_path \/ (forall buckets, dict_get image_type sizes <> Ok buckets) ->
  exists e st',
    create_responsive_images input_path recipe_name image_type st = (Raise e, st')
    /\ st' = snd (makedirs ("images/recipes/" +:+ recipe_name) st)
    /\ files st' = files st
    /\ (fst (makedirs ("images/recipes/" +:+ recipe_name) st) = Ok tt ->
        forall p, p ∈ ancestors ("images/recipes/" +:+ recipe_name) -> p ∈ dirs st').
Proof.
  intros Hfail. unfold create_responsive_images. unfold bind at 1.
  destruct (makedirs _ st) as [[[]|e] st1] eqn:Hmk; cbn [fst snd];
    [|exists e, st1; repeat split; [eapply makedirs_files; eauto | discriminate]].
  pose proof (makedirs_files _ _ _ _ Hmk) as Hfiles.
  pose proof (proj2 (makedirs_from_dirs _ _ _ Hmk)) as Hdirs.
  unfold bind at 1.
  destruct (image_open input_path st1) as [[img|e] st2] eqn:Hop;
    pose proof (image_open_store _ _ _ _ Hop) as ->;
    [|exists e, st1; repeat split; auto].
  destruct Hfail as [Hunread|Hunknown].
  - exfalso. apply Hunread. unfold image_open in Hop. unfold readable. rewrite <- Hfiles.
    destruct (files st1 !! input_path) as [[fmt q i|]|]; [eauto|discriminate|].
    destruct (bool_decide _); discriminate.
  - destruct (size _) as [ow oh]. unfold bind at 1, lift.
    destruct (dict_get image_type sizes) as [buckets|e] eqn:Hget.
    + exfalso. eapply Hunknown; eauto.
    + exists e, st1. repeat split; auto.
Qed.

(** A run on a missing upload. *)
Lemma failure_keeps_directory_writes_no_file_witness :
  exists e st',
    create_responsive_images "uploads/missing.jpg" "brownies" "hero" empty_fs = (Raise e, st')
    /\ st' = snd (makedirs ("images/recipes/" +:+ "brownies") empty_fs)
    /\ files st' = files empty_fs
    /\ (fst (makedirs ("images/recipes/" +:+ "brownies") empty_fs) = Ok tt ->
        forall p, p ∈ ancestors ("images/recipes/" +:+ "brownies") -> p ∈ dirs st').
Proof.
  apply (failure_keeps_directory_writes_no_file "uploads/missing.jpg" "brownies" "hero" empty_fs).
  left. intros (format & quality & img & H). vm_compute in H. discriminate H.
Defined.

(** C7 as stated fails: a run that fails on a missing source has
    already created the output directory, and a run that fails in the
    second bucket (here a directory sits where its JPEG should go)
    leaves the files of the first bucket. *)
Lemma failed_run_leaves_output :
  (exists e st',
      create_responsive_images "uploads/missing.jpg" "brownies" "hero" empty_fs = (Raise e, st')
      /\ "images/recipes/brownies" ∈ dirs st'
      /\ "images/recipes/brownies" ∉ dirs empty_fs)
  /\ (exists e st',
        create_responsive_images "uploads/bars.jpg" "brownies" "card"
          {| dirs := {[ "images"; "images/recipes"; "images/recipes/brownies";
                        "images/recipes/brownies/bars-600.jpg" ]};
             files := {[ "uploads/bars.jpg" := Encoded "JPEG" 90 (Raw "RGB" 1000 800) ]} |}
        = (Raise e, st')
        /\ is_Some (files st' !! "images/recipes/brownies/bars-300.jpg")).
Proof.
  split.
  - eexists _, _. split; [vm_compute; reflexivity|].
    split; apply (bool_decide_unpack _); vm_compute; exact I.
  - eexists _, _. split; [vm_compute; reflexivity|]. vm_compute. eauto.
Qed.

(** *** The markup fragment *)

Import PyStrFacts.

Lemma build_srcsets_maps recipe_name base_name sizes : forall webp_srcset jpg_srcset,
  build_srcsets recipe_name base_name sizes webp_srcset jpg_srcset
  = (webp_srcset ++ map (srcset_entry recipe_name base_name "webp") sizes,
     jpg_srcset ++ map (srcset_entry recipe_name base_name "jpg") sizes).
Proof.
  induction sizes as [|s rest IH]; intros w j; cbn [build_srcsets map].
  - rewrite !app_nil_r. reflexivity.
  - rewrite IH. rewrite <- !app_assoc. reflexivity.
Qed.

Lemma sizes_map_cases image_type labels :
  dict_get image_type sizes_map = Ok labels ->
  (image_type = "hero" /\ labels = ["400"; "800"; "1200"; "1600"])
  \/ (image_type = "card" /\ labels = ["300"; "600"])
  \/ (image_type = "process" /\ labels = ["400"; "800"])
  \/ (image_type = "gallery" /\ labels = ["300"; "600"; "1200"]).
Proof.
  unfold sizes_map. cbn [dict_get].
  destruct (String.eqb image_type "hero") eqn:E1;
    [apply String.eqb_eq in E1; intros [= <-]; auto|].
  destruct (String.eqb image_type "card") eqn:E2;
    [apply String.eqb_eq in E2; intros [= <-]; auto|].
  destruct (String.eqb image_type "process") eqn:E3;
    [apply String.eqb_eq in E3; intros [= <-]; auto|].
  destruct (String.eqb image_type "gallery") eqn:E4;
    [apply String.eqb_eq in E4; intros [= <-]; auto 6|].
  discriminate.
Qed.

Lemma after_skip c pattern a s :
  occurs c a = false -> after (String c pattern) (a +:+ s) = after (String c pattern) s.
Proof.
  induction a as [|x a IH]; intros Hocc; [reflexivity|].
  cbn [occurs] in Hocc. apply orb_false_iff in Hocc as [Hx Ha].
  change (String x a +:+ s) with (String x (a +:+ s)).
  cbn [after strip_prefix].
  rewrite Ascii.eqb_sym, Hx. apply IH, Ha.
Qed.

Lemma until_quote_app v rest :
  occurs (ascii_of_nat 34) v = false -> until_quote (v +:+ dq +:+ rest) = Some v.
Proof.
  induction v as [|x v IH]; intros Hocc; [reflexivity|].
  cbn [occurs] in Hocc. apply orb_false_iff in Hocc as [Hx Hv].
  change (String x v +:+ dq +:+ rest) with (String x (v +:+ dq +:+ rest)).
  cbn [until_quote]. rewrite Hx, (IH Hv). reflexivity.
Qed.

(** The three attributes in a fragment laid out like the template. *)
Lemma template_attributes webp_list src jpg_list sizes_attr width height alt_text loading tail :
  occurs (ascii_of_nat 34) webp_list = false -> occurs "<" webp_list = false ->
  occurs (ascii_of_nat 34) src = false -> occurs " " src = false ->
  occurs (ascii_of_nat 34) jpg_list = false ->
  let html := picture_template webp_list src jpg_list sizes_attr width height alt_text loading
              +:+ tail in
  exists source img,
    after "<source" html = Some source /\ after "<img" html = Some img
    /\ attribute "srcset" source = Some webp_list
    /\ attribute "src" img = Some src
    /\ attribute "srcset" img = Some jpg_list.
Proof.
  intros Hq1 Hl1 Hq2 Hs2 Hq3 html. subst html.
  unfold picture_template, attr_line. rewrite !append_assoc.
  eexists _, _. split; [reflexivity|].
  split.
  - match goal with |- after ?p (?a +:+ ?b +:+ ?c +:+ ?d +:+ ?e +:+ ?f +:+ ?g +:+ ?h +:+ webp_list +:+ ?r) = _ =>
      change (after p (a +:+ b +:+ c +:+ d +:+ e +:+ f +:+ g +:+ h +:+ webp_list +:+ r))
        with (after p (webp_list +:+ r)) end.
    rewrite (after_skip _ _ _ _ Hl1). reflexivity.
  - split; [|split].
    + unfold attribute.
      match goal with |- match after ?p (?a +:+ ?b +:+ ?c +:+ ?d +:+ ?e +:+ webp_list +:+ ?r) with _ => _ end = _ =>
        change (after p (a +:+ b +:+ c +:+ d +:+ e +:+ webp_list +:+ r))
          with (Some (webp_list +:+ r)) end.
      apply until_quote_app, Hq1.
    + unfold attribute.
      match goal with |- match after ?p (?a +:+ ?b +:+ ?c +:+ ?d +:+ ?e +:+ src +:+ ?r) with _ => _ end = _ =>
        change (after p (a +:+ b +:+ c +:+ d +:+ e +:+ src +:+ r))
          with (Some (src +:+ r)) end.
      apply until_quote_app, Hq2.
    + unfold attribute.
      match goal with |- match after ?p (?a +:+ ?b +:+ ?c +:+ ?d +:+ ?e +:+ src +:+ ?r) with _ => _ end = _ =>
        change (after p (a +:+ b +:+ c +:+ d +:+ e +:+ src +:+ r))
          with (after (String " " ("srcset" +:+ "=" +:+ dq)) (src +:+ r)) end.
      rewrite (after_skip _ _ _ _ Hs2).
      match goal with |- match after ?p (?a +:+ ?b +:+ ?c +:+ ?d +:+ ?e +:+ ?f +:+ jpg_list +:+ ?r) with _ => _ end = _ =>
        change (after p (a +:+ b +:+ c +:+ d +:+ e +:+ f +:+ jpg_list +:+ r))
          with (Some (jpg_list +:+ r)) end.
      apply until_quote_app, Hq3.
Qed.

Lemma occurs_join c sep entries :
  occurs c sep = false -> Forall (fun e => occurs c e = false) entries ->
  occurs c (join sep entries) = false.
Proof.
  intros Hsep Hall. induction Hall as [|e rest He Hrest IH]; [reflexivity|].
  destruct rest as [|e' rest']; [exact He|].
  change (join sep (e :: e' :: rest')) with (e +:+ sep +:+ join sep (e' :: rest')).
  rewrite !occurs_append, He, Hsep, IH. reflexivity.
Qed.

Lemma split_join_commas entries : forall e,
  Forall (fun x => occurs "," x = false) (e :: entries) ->
  split "," (join ", " (e :: entries)) = e :: map (String " ") entries.
Proof.
  induction entries as [|e' rest IH]; intros e Hall.
  - cbn [join map]. apply split_no_sep. inversion Hall; assumption.
  - inversion Hall as [|? ? He Hrest]; subst.
    change (join ", " (e :: e' :: rest))
      with (e +:+ String "," (String " " (join ", " (e' :: rest)))).
    rewrite split_app, (split_no_sep _ _ He). cbn [app split].
    change (Ascii.eqb " " ",") with false. cbn iota.
    rewrite (IH _ Hrest). reflexivity.
Qed.

Lemma srcset_entry_parts recipe_name base_name ext size :
  srcset_entry recipe_name base_name ext size
  = ("../images/recipes/" +:+ recipe_name +:+ "/" +:+ base_name +:+ "-" +:+ size +:+ "." +:+ ext)
    +:+ String " " (size +:+ "w").
Proof. unfold srcset_entry. rewrite !append_assoc. reflexivity. Qed.

Ltac occurs_false :=
  repeat rewrite occurs_append;
  repeat match goal with H : occurs _ _ = false |- _ => rewrite H end;
  reflexivity.

Lemma srcset_entry_occurs c recipe_name base_name ext size :
  occurs c "../images/recipes/-. w" = false -> occurs c ext = false ->
  occurs c recipe_name = false -> occurs c base_name = false -> occurs c size = false ->
  occurs c (srcset_entry recipe_name base_name ext size) = false.
Proof.
  intros Hlit Hext Hr Hb Hs. unfold srcset_entry.
  cbn [occurs] in Hlit. repeat (apply orb_false_iff in Hlit as [? Hlit]).
  rewrite !occurs_append, Hr, Hb, Hs, Hext. cbn [occurs].
  repeat match goal with H : Ascii.eqb _ c = false |- _ => rewrite H end.
  reflexivity.
Qed.

Lemma candidate_entry recipe_name base_name ext size lead :
  occurs " " recipe_name = false -> occurs " " base_name = false ->
  occurs " " size = false -> occurs " " ext = false ->
  lead = EmptyString \/ lead = " " ->
  candidate (lead +:+ srcset_entry recipe_name base_name ext size)
  = Some ("../images/recipes/" +:+ recipe_name +:+ "/" +:+ base_name +:+ "-" +:+ size
          +:+ "." +:+ ext, size +:+ "w").
Proof.
  intros Hr Hb Hs He Hlead.
  assert (Hsplit : split " " (srcset_entry recipe_name base_name ext size)
                   = ["../images/recipes/" +:+ recipe_name +:+ "/" +:+ base_name +:+ "-" +:+ size
                      +:+ "." +:+ ext; size +:+ "w"]).
  { rewrite srcset_entry_parts, split_app.
    rewrite !split_no_sep; [reflexivity| |]; occurs_false. }
  destruct Hlead as [-> | ->].
  - change (candidate (EmptyString +:+ srcset_entry recipe_name base_name ext size))
      with (match split " " (srcset_entry recipe_name base_name ext size) with
            | [url; descriptor] => Some (url, descriptor)
            | _ => None
            end).
    rewrite Hsplit. reflexivity.
  - change (candidate (" " +:+ srcset_entry recipe_name base_name ext size))
      with (match split " " (srcset_entry recipe_name base_name ext size) with
            | [url; descriptor] => Some (url, descriptor)
            | _ => None
            end).
    rewrite Hsplit. reflexivity.
Qed.

Lemma candidates_of_entries recipe_name base_name ext labels :
  occurs " " recipe_name = false -> occurs " " base_name = false -> occurs " " ext = false ->
  Forall (fun label => occurs " " label = false) labels ->
  candidates_of (map (String " ") (map (srcset_entry recipe_name base_name ext) labels))
  = Some (map (fun label => ("../images/recipes/" +:+ recipe_name +:+ "/" +:+ base_name
                             +:+ "-" +:+ label +:+ "." +:+ ext, label +:+ "w")) labels).
Proof.
  intros Hr Hb He Hall. induction Hall as [|label rest Hl Hrest IH]; [reflexivity|].
  cbn [map candidates_of].
  change (String " " (srcset_entry recipe_name base_name ext label))
    with (" " +:+ srcset_entry recipe_name base_name ext label).
  rewrite (candidate_entry _ _ _ _ " " Hr Hb Hl He (or_intror eq_refl)), IH. reflexivity.
Qed.

Lemma candidates_srcset recipe_name base_name ext label labels :
  plain recipe_name -> plain base_name -> plain ext -> Forall plain (label :: labels) ->
  candidates (join ", " (map (srcset_entry recipe_name base_name ext) (label :: labels)))
  = Some (map (fun label => ("../images/recipes/" +:+ recipe_name +:+ "/" +:+ base_name
                             +:+ "-" +:+ label +:+ "." +:+ ext, label +:+ "w"))
              (label :: labels)).
Proof.
  intros (_ & _ & Hrc & Hrs) (_ & _ & Hbc & Hbs) (_ & _ & Hec & Hes) Hall.
  unfold candidates. cbn [map]. rewrite split_join_commas.
  - cbn [candidates_of].
    change (srcset_entry recipe_name base_name ext label)
      with (EmptyString +:+ srcset_entry recipe_name base_name ext label) at 1.
    inversion Hall as [|? ? (_ & _ & _ & Hls) Hrest]; subst.
    rewrite (candidate_entry _ _ _ _ EmptyString Hrs Hbs Hls Hes (or_introl eq_refl)).
    rewrite candidates_of_entries; [reflexivity|assumption..|].
    eapply Forall_impl; [exact Hrest|]. intros x Hx. apply Hx.
  - change (srcset_entry recipe_name base_name ext label
            :: map (srcset_entry recipe_name base_name ext) labels)
      with (map (srcset_entry recipe_name base_name ext) (label :: labels)).
    apply Forall_map. eapply Forall_impl; [exact Hall|].
    intros x (_ & _ & Hxc & _). cbn. apply srcset_entry_occurs; auto.
Qed.

Lemma srcset_clean c recipe_name base_name ext labels :
  occurs c "../images/recipes/-. w," = false -> occurs c ext = false ->
  occurs c recipe_name = false -> occurs c base_name = false ->
  Forall (fun label => occurs c label = false) labels ->
  occurs c (join ", " (map (srcset_entry recipe_name base_name ext) labels)) = false.
Proof.
  intros Hlit Hext Hr Hb Hall.
  cbn [occurs] in Hlit. repeat (apply orb_false_iff in Hlit as [? Hlit]).
  apply occurs_join.
  - cbn [occurs]. repeat match goal with H : Ascii.eqb _ c = false |- _ => rewrite H end.
    reflexivity.
  - apply Forall_map. eapply Forall_impl; [exact Hall|]. intros x Hx. cbn.
    apply srcset_entry_occurs; auto.
    cbn [occurs]. repeat match goal with H : Ascii.eqb _ c = false |- _ => rewrite H end.
    reflexivity.
Qed.

(** What a reader finds in a fragment laid out like the template whose
    source sets were built from a list of labels. *)
Lemma read_template recipe_name base_name label labels largest
    sizes_attr width height alt_text loading tail :
  plain recipe_name -> plain base_name -> Forall plain (largest :: label :: labels) ->
  read_picture
    (picture_template
       (join ", " (map (srcset_entry recipe_name base_name "webp") (label :: labels)))
       (fallback_src recipe_name base_name largest)
       (join ", " (map (srcset_entry recipe_name base_name "jpg") (label :: labels)))
       sizes_attr width height alt_text loading +:+ tail)
  = Some {| webp_candidates :=
              map (fun label => ("../images/recipes/" +:+ recipe_name +:+ "/" +:+ base_name
                                 +:+ "-" +:+ label +:+ ".webp", label +:+ "w"))
                  (label :: labels);
            fallback := "../images/recipes/" +:+ recipe_name +:+ "/" +:+ base_name
                        +:+ "-" +:+ largest +:+ ".jpg";
            jpg_candidates :=
              map (fun label => ("../images/recipes/" +:+ recipe_name +:+ "/" +:+ base_name
                                 +:+ "-" +:+ label +:+ ".jpg", label +:+ "w"))
                  (label :: labels) |}.
Proof.
  intros Hr Hb Hall.
  pose proof Hr as (Hrq & Hrl & Hrc & Hrs). pose proof Hb as (Hbq & Hbl & Hbc & Hbs).
  inversion Hall as [|? ? (Hgq & Hgl & Hgc & Hgs) Hlabels]; subst.
  assert (Hq : Forall (fun l => occurs (ascii_of_nat 34) l = false) (label :: labels))
    by (eapply Forall_impl; [exact Hlabels|]; intros x Hx; apply Hx).
  assert (Hl : Forall (fun l => occurs "<" l = false) (label :: labels))
    by (eapply Forall_impl; [exact Hlabels|]; intros x Hx; apply Hx).
  destruct (template_attributes
              (join ", " (map (srcset_entry recipe_name base_name "webp") (label :: labels)))
              (fallback_src recipe_name base_name largest)
              (join ", " (map (srcset_entry recipe_name base_name "jpg") (label :: labels)))
              sizes_attr width height alt_text loading tail)
    as (source & img & Hsource & Himg & Hwebp & Hsrc & Hjpg).
  - apply srcset_clean; auto.
  - apply srcset_clean; auto.
  - unfold fallback_src. occurs_false.
  - unfold fallback_src. occurs_false.
  - apply srcset_clean; auto.
  - unfold read_picture. rewrite Hsource, Himg, Hwebp, Hsrc, Hjpg.
    rewrite (candidates_srcset recipe_name base_name "webp" label labels Hr Hb);
      [|repeat split; reflexivity|exact Hlabels].
    rewrite (candidates_srcset recipe_name base_name "jpg" label labels Hr Hb);
      [|repeat split; reflexivity|exact Hlabels].
    reflexivity.
Qed.

Lemma profile_labels_plain image_type labels :
  dict_get image_type sizes_map = Ok labels -> Forall plain labels.
Proof.
  intros Hget.
  destruct (sizes_map_cases _ _ Hget) as [[-> ->]|[[-> ->]|[[-> ->]|[-> ->]]]];
    repeat (constructor; [repeat split; reflexivity|]); constructor.
Qed.

(** C9: for every profile, a reader of the markup fragment finds in the
    [srcset] of the [source] element one WebP candidate per size label
    and in the [srcset] of the [img] element one JPEG candidate per size
    label, both in the order of the profile's label list (which is the
    order of the generator's size table), each with the label as its
    width descriptor; the fallback [src] is the JPEG of the last label,
    which is the numerically largest one.  The names put into the URLs
    are plain: they hold no quote, no [<], no comma and no space. *)
Theorem picture_element_order
    recipe_name base_name image_type alt_text width height loading fetchpriority labels :
  dict_get image_type sizes_map = Ok labels ->
  plain recipe_name -> plain base_name ->
  exists html largest widest,
    generate_picture_element recipe_name base_name image_type alt_text
      width height loading fetchpriority = Ok html
    /\ read_picture html
       = Some {| webp_candidates :=
                   map (fun label => ("../images/recipes/" +:+ recipe_name +:+ "/" +:+ base_name
                                      +:+ "-" +:+ label +:+ ".webp", label +:+ "w")) labels;
                 fallback := "../images/recipes/" +:+ recipe_name +:+ "/" +:+ base_name
                             +:+ "-" +:+ largest +:+ ".jpg";
                 jpg_candidates :=
                   map (fun label => ("../images/recipes/" +:+ recipe_name +:+ "/" +:+ base_name
                                      +:+ "-" +:+ label +:+ ".jpg", label +:+ "w")) labels |}
    /\ last labels = Some largest
    /\ largest = pretty widest
    /\ Forall (fun label => exists w : Z, label = pretty w /\ w <= widest) labels
    /\ rbind (dict_get image_type sizes) (fun buckets => Ok (map fst buckets)) = Ok labels.
Proof.
  intros Hget Hr Hb. pose proof (profile_labels_plain _ _ Hget) as Hplain.
  unfold generate_picture_element. rewrite Hget. cbn [rbind].
  rewrite build_srcsets_maps. cbn [app].
  destruct (sizes_map_cases _ _ Hget) as [[-> ->]|[[-> ->]|[[-> ->]|[-> ->]]]].
  - eexists _, "1600", 1600. split; [reflexivity|].
    split; [apply read_template; auto; constructor; auto; repeat split; reflexivity|].
    repeat split; try reflexivity.
    repeat constructor; [exists 400|exists 800|exists 1200|exists 1600]; split; (reflexivity || lia).
  - eexists _, "600", 600. split; [reflexivity|].
    split; [apply read_template; auto; constructor; auto; repeat split; reflexivity|].
    repeat split; try reflexivity.
    repeat constructor; [exists 300|exists 600]; split; (reflexivity || lia).
  - eexists _, "800", 800. split; [reflexivity|].
    split; [apply read_template; auto; constructor; auto; repeat split; reflexivity|].
    repeat split; try reflexivity.
    repeat constructor; [exists 400|exists 800]; split; (reflexivity || lia).
  - eexists _, "1200", 1200. split; [reflexivity|].
    split; [apply read_template; auto; constructor; auto; repeat split; reflexivity|].
    repeat split; try reflexivity.
    repeat constructor; [exists 300|exists 600|exists 1200]; split; (reflexivity || lia).
Qed.

(** The gallery profile. *)
Lemma picture_element_order_witness :
  exists html largest widest,
    generate_picture_element "mango-bites" "mango" "gallery" "Mango bites" 600 450 "lazy" None
    = Ok html
    /\ read_picture html
       = Some {| webp_candidates :=
                   map (fun label => ("../images/recipes/" +:+ "mango-bites" +:+ "/" +:+ "mango"
                                      +:+ "-" +:+ label +:+ ".webp", label +:+ "w"))
                       ["300"; "600"; "1200"];
                 fallback := "../images/recipes/" +:+ "mango-bites" +:+ "/" +:+ "mango"
                             +:+ "-" +:+ largest +:+ ".jpg";
                 jpg_candidates :=
                   map (fun label => ("../images/recipes/" +:+ "mango-bites" +:+ "/" +:+ "mango"
                                      +:+ "-" +:+ label +:+ ".jpg", label +:+ "w"))
                       ["300"; "600"; "1200"] |}
    /\ last ["300"; "600"; "1200"] = Some largest
    /\ largest = pretty widest
    /\ Forall (fun label => exists w : Z, label = pretty w /\ w <= widest) ["300"; "600"; "1200"]
    /\ rbind (dict_get "gallery" sizes) (fun buckets => Ok (map fst buckets))
       = Ok ["300"; "600"; "1200"].
Proof.
  apply (picture_element_order "mango-bites" "mango" "gallery" "Mango bites" 600 450 "lazy" None).
  - reflexivity.
  - repeat split; reflexivity.
  - repeat split; reflexivity.
Defined.

(** What the reader finds for the gallery profile, written out. *)
Lemma read_picture_gallery :
  exists html,
    generate_picture_element "mango-bites" "mango" "gallery" "Mango bites" 600 450 "lazy" None
    = Ok html
    /\ read_picture html
       = Some {| webp_candidates :=
                   [("../images/recipes/mango-bites/mango-300.webp", "300w");
                    ("../images/recipes/mango-bites/mango-600.webp", "600w");
                    ("../images/recipes/mango-bites/mango-1200.webp", "1200w")];
                 fallback := "../images/recipes/mango-bites/mango-1200.jpg";
                 jpg_candidates :=
                   [("../images/recipes/mango-bites/mango-300.jpg", "300w");
                    ("../images/recipes/mango-bites/mango-600.jpg", "600w");
                    ("../images/recipes/mango-bites/mango-1200.jpg", "1200w")] |}.
Proof. eexists. split; vm_compute; reflexivity. Qed.

(** *** Further properties of the generator, the markup and the command line *)

Lemma labels_plain :
  forallb (fun p => forallb (fun b => negb (occurs "/" (fst b))) (snd p)) sizes = true.
Proof. vm_compute. reflexivity. Qed.

Lemma table_label_plain image_type buckets size_name wh :
  dict_get image_type sizes = Ok buckets -> In (size_name, wh) buckets ->
  occurs "/" size_name = false.
Proof.
  intros Hget Hin. apply dict_get_In in Hget.
  pose proof labels_plain as Hall. rewrite forallb_forall in Hall.
  specialize (Hall _ Hget). cbn [snd] in Hall. rewrite forallb_forall in Hall.
  specialize (Hall _ Hin). cbn [fst] in Hall. apply negb_true_iff in Hall. exact Hall.
Qed.

(** No output of a run on [input_path] is written at [input_path]: the
    name of an output is the stem of the source followed by a dash, a
    label and an extension, and the stem of that name is longer than
    the stem of the source. *)
Lemma output_path_is_not_source input_path recipe_dir size_name ext :
  occurs "/" size_name = false -> ext = "jpg" \/ ext = "webp" ->
  input_path <> variant_path recipe_dir (stem input_path) size_name ext.
Proof.
  intros Hl Hext Heq. unfold variant_path in Heq.
  assert (Hstem : stem input_path = stem input_path +:+ String "-" size_name).
  { rewrite Heq at 1.
    change (recipe_dir +:+ "/" +:+ stem input_path +:+ "-" +:+ size_name +:+ "." +:+ ext)
      with (recipe_dir +:+ String "/" (stem input_path +:+ (String "-" size_name +:+ String "." ext))).
    rewrite <- append_assoc.
    change ((stem input_path +:+ String "-" size_name) +:+ String "." ext)
      with ((stem input_path +:+ String "-" size_name) +:+ String "." ext).
    apply stem_app.
    - rewrite occurs_append. cbn [occurs]. rewrite stem_no_sep, Hl. reflexivity.
    - destruct Hext as [->| ->]; reflexivity.
    - destruct Hext as [->| ->]; reflexivity.
    - destruct (stem input_path); discriminate.
    - destruct Hext as [->| ->]; discriminate. }
  apply (f_equal String.length) in Hstem. rewrite length_append in Hstem.
  cbn [String.length] in Hstem. lia.
Qed.

(** Saving changes the file at the saved path only. *)
Lemma save_frame path format quality img st r st' p :
  save path format quality img st = (r, st') -> p <> path -> files st' !! p = files st !! p.
Proof.
  intros Hs Hp. apply save_spec in Hs as [_ [->|[[_ ->]|(_ & _ & ->)]]]; [reflexivity| |];
    apply lookup_insert_ne; congruence.
Qed.

Lemma each_size_frame img ow oh recipe_dir base_name buckets p :
  ~ is_output_path recipe_dir base_name buckets p ->
  forall st r st',
    each_size img ow oh recipe_dir base_name buckets st = (r, st') ->
    files st' !! p = files st !! p.
Proof.
  induction buckets as [|[size_name [width height]] rest IH]; intros Hp st r st'.
  - intros [= <- <-]. reflexivity.
  - cbn [each_size]. unfold bind at 1, lift.
    destruct (variant img ow oh width height) as [v|e]; [|intros [= <- <-]; reflexivity].
    assert (Hne : forall ext, ext = "jpg" \/ ext = "webp" ->
                    p <> variant_path recipe_dir base_name size_name ext).
    { intros ext Hext Heq. apply Hp. exists size_name, (width, height), ext.
      split; [left; reflexivity|]. auto. }
    unfold bind at 1. destruct (save _ "JPEG" 85 v st) as [r1 st1] eqn:Hs1.
    apply (save_frame _ _ _ _ _ _ _ p) in Hs1; [|apply Hne; auto].
    destruct r1 as [[]|e1]; [|intros [= <- <-]; exact Hs1].
    unfold bind at 1. destruct (save _ "WebP" 80 v st1) as [r2 st2] eqn:Hs2.
    apply (save_frame _ _ _ _ _ _ _ p) in Hs2; [|apply Hne; auto].
    destruct r2 as [[]|e2]; [|intros [= <- <-]; congruence].
    intros Hrest. apply IH in Hrest; [congruence|].
    intros (l & wh & ext & Hin & Hext & Heq). apply Hp.
    exists l, wh, ext. split; [right; exact Hin | auto].
Qed.

Lemma run_frame input_path recipe_name image_type st r st' p :
  create_responsive_images input_path recipe_name image_type st = (r, st') ->
  (forall buckets, dict_get image_type sizes = Ok buckets ->
     ~ is_output_path ("images/recipes/" +:+ recipe_name) (stem input_path) buckets p) ->
  files st' !! p = files st !! p.
Proof.
  intros Hrun Hp. apply run_stages in Hrun
    as [[-> _]|(st1 & format & quality & src & ow & oh & buckets
                & _ & Hfiles & _ & _ & Hget & Hrun & _)];
    [reflexivity|].
  rewrite <- Hfiles. eapply each_size_frame; [|exact Hrun]. apply Hp. exact Hget.
Qed.

(** X1: a run never overwrites (or deletes) its source, wherever the
    source lies, inside the output directory included, and whether the
    run completes or raises: every output name is the stem of the source
    extended by a dash, a label and an extension, which is never the
    name of the source. More generally a run changes no path but the
    output paths of the profile's buckets. *)
Theorem source_is_never_overwritten input_path recipe_name image_type st :
  files (snd (create_responsive_images input_path recipe_name image_type st)) !! input_path
  = files st !! input_path
  /\ forall p,
       (forall buckets, dict_get image_type sizes = Ok buckets ->
          ~ is_output_path ("images/recipes/" +:+ recipe_name) (stem input_path) buckets p) ->
       files (snd (create_responsive_images input_path recipe_name image_type st)) !! p
       = files st !! p.
Proof.
  destruct (create_responsive_images input_path recipe_name image_type st) as [r st'] eqn:Hrun.
  cbn [snd]. split.
  - apply (run_frame _ _ _ _ _ _ _ Hrun). intros buckets Hget (l & wh & ext & Hin & Hext & Heq).
    revert Heq. apply output_path_is_not_source; [|exact Hext].
    exact (table_label_plain _ _ _ _ Hget Hin).
  - intros p Hp. exact (run_frame _ _ _ _ _ _ _ Hrun Hp).
Qed.

Lemma each_size_modes img ow oh recipe_dir base_name buckets :
  forall st r st',
    each_size img ow oh recipe_dir base_name buckets st = (r, st') ->
    forall path f, files st' !! path = Some f ->
      files st !! path = Some f
      \/ (f = Unreadable /\ r = Raise OSError)
      \/ exists format quality v,
           f = Encoded format quality (stored format v) /\ mode v = mode img
           /\ writable format v = true.
Proof.
  induction buckets as [|[size_name [width height]] rest IH]; intros st r st'.
  - intros [= <- <-]. auto.
  - cbn [each_size]. unfold bind at 1, lift.
    destruct (variant img ow oh width height) as [v|e] eqn:Hv; [|intros [= <- <-]; auto].
    pose proof (variant_mode _ _ _ _ _ _ Hv) as Hmode.
    assert (Hsave : forall p fmt q sa ra sb,
              save p fmt q v sa = (ra, sb) ->
              forall path f, files sb !! path = Some f ->
                files sa !! path = Some f
                \/ (f = Unreadable /\ ra = Raise OSError)
                \/ exists format quality v0,
                     f = Encoded format quality (stored format v0) /\ mode v0 = mode img
                     /\ writable format v0 = true).
    { intros p fmt q sa ra sb Hs path f Hl.
      pose proof Hs as Hs'. apply save_spec in Hs' as [_ [->|[[Hra Hf]|(Hra & _ & Hf)]]]; [auto| |];
        rewrite Hf in Hl;
        (destruct (decide (p = path)) as [->|Hne];
         [rewrite lookup_insert_eq in Hl; injection Hl as <-
         |rewrite lookup_insert_ne in Hl by exact Hne; auto]).
      - right. right. exists fmt, q, v. subst ra. apply save_inv in Hs as [_ Hw]. auto.
      - right. left. auto. }
    unfold bind at 1. destruct (save _ "JPEG" 85 v st) as [r1 st1] eqn:Hs1.
    specialize (Hsave _ _ _ _ _ _ Hs1) as H1.
    destruct r1 as [[]|e1]; [|intros [= <- <-]; exact H1].
    unfold bind at 1. destruct (save _ "WebP" 80 v st1) as [r2 st2] eqn:Hs2.
    specialize (Hsave _ _ _ _ _ _ Hs2) as H2.
    assert (H12 : forall path f, files st2 !! path = Some f ->
              files st !! path = Some f
              \/ (f = Unreadable /\ r2 = Raise OSError)
              \/ exists format quality v0,
                   f = Encoded format quality (stored format v0) /\ mode v0 = mode img
                   /\ writable format v0 = true).
    { intros path f Hl. destruct (H2 path f Hl) as [H|H]; [|auto].
      destruct (H1 path f H) as [H'|[[_ H']|H']]; [auto | discriminate H' | auto]. }
    destruct r2 as [[]|e2]; [|intros [= <- <-]; exact H12].
    intros Hrest path f Hl. destruct (IH _ _ _ Hrest path f Hl) as [H|H]; [|auto].
    destruct (H12 path f H) as [H'|[[_ H']|H']]; [auto | discriminate H' | auto].
Qed.

Lemma working_mode_opaque source_mode :
  working_mode source_mode <> "RGBA" /\ working_mode source_mode <> "LA"
  /\ working_mode source_mode <> "P".
Proof.
  unfold working_mode.
  destruct (bool_decide_reflect (source_mode ∈ ["RGBA"; "LA"; "P"])) as [|Hn].
  - repeat split; discriminate.
  - repeat split; intros ->; apply Hn; set_solver.
Qed.

(** The modes the two encoders leave on disk. *)
Lemma stored_mode_webp mode : stored_mode "WebP" mode = "RGB" \/ stored_mode "WebP" mode = "RGBA".
Proof.
  unfold stored_mode. cbn [String.eqb Ascii.eqb Bool.eqb].
  destruct (bool_decide_reflect (mode ∈ ["RGB"; "RGBA"])) as [Hin|_].
  - apply elem_of_cons in Hin as [->|Hin]; [auto|].
    apply elem_of_cons in Hin as [->|Hin]; [auto | inversion Hin].
  - destruct (has_alpha mode); auto.
Qed.

Lemma stored_mode_jpeg mode :
  stored_mode "JPEG" mode = "L" \/ stored_mode "JPEG" mode = "RGB"
  \/ stored_mode "JPEG" mode = "CMYK".
Proof.
  unfold stored_mode. cbn [String.eqb Ascii.eqb Bool.eqb].
  destruct (bool_decide _); [auto|]. destruct (String.eqb mode "CMYK"); auto.
Qed.

(** X2: what a run leaves on disk. Whatever file a run creates or
    changes (even a run that raises later) is either an output left
    empty by a save that the JPEG encoder refused (then the run raises
    OSError), or a picture file written from the working picture, the
    source after the conversion of RGBA, LA and P to RGB. A WebP holds
    an RGB or an RGBA picture, whatever the working mode (a grey source
    gives an RGB WebP); a JPEG was written from a working mode that the
    encoder takes and holds an L, an RGB or a CMYK picture. *)
Theorem outputs_have_stored_mode input_path recipe_name image_type st r st' path f :
  create_responsive_images input_path recipe_name image_type st = (r, st') ->
  files st' !! path = Some f ->
  files st !! path <> Some f ->
  (f = Unreadable /\ r = Raise OSError)
  \/ exists format0 quality0 src format quality v,
       files st !! input_path = Some (Encoded format0 quality0 src)
       /\ f = Encoded format quality v
       /\ (format = "WebP" -> mode v = "RGB" \/ mode v = "RGBA")
       /\ (format = "JPEG" ->
           working_mode (mode src) ∈ jpeg_modes
           /\ (mode v = "L" \/ mode v = "RGB" \/ mode v = "CMYK")).
Proof.
  intros Hrun Hnew Hold. apply run_stages in Hrun
    as [[Hsame _]|(st1 & format0 & quality0 & src & ow & oh & buckets
                   & _ & Hfiles & Hsrc & _ & _ & Hrun & _)].
  - rewrite Hsame in Hnew. contradiction.
  - destruct (each_size_modes _ _ _ _ _ _ _ _ _ Hrun path f Hnew)
      as [H|[H|(format & quality & v & -> & Hmode & Hw)]];
      [rewrite Hfiles in H; contradiction | left; exact H | right].
    exists format0, quality0, src, format, quality, (stored format v).
    assert (Hwm : mode v = working_mode (mode src)).
    { rewrite Hmode. unfold working_mode. destruct (bool_decide _); reflexivity. }
    rewrite mode_stored, Hwm.
    split; [exact Hsrc|]. split; [reflexivity|]. split.
    + intros ->. apply stored_mode_webp.
    + intros ->. split; [|apply stored_mode_jpeg].
      unfold writable in Hw. cbn [String.eqb Ascii.eqb Bool.eqb] in Hw.
      apply bool_decide_eq_true in Hw. rewrite <- Hwm. exact Hw.
Qed.

Lemma outputs_have_stored_mode_witness :
  (Encoded "WebP" 80 (Converted "RGB" (Resized 300 225 (Raw "L" 600 450))) = Unreadable
   /\ Ok tt = Raise OSError)
  \/ exists format0 quality0 src format quality v,
       files grey_fs !! "uploads/slate.png" = Some (Encoded format0 quality0 src)
       /\ Encoded "WebP" 80 (Converted "RGB" (Resized 300 225 (Raw "L" 600 450)))
          = Encoded format quality v
       /\ (format = "WebP" -> mode v = "RGB" \/ mode v = "RGBA")
       /\ (format = "JPEG" ->
           working_mode (mode src) ∈ jpeg_modes
           /\ (mode v = "L" \/ mode v = "RGB" \/ mode v = "CMYK")).
Proof.
  apply (outputs_have_stored_mode "uploads/slate.png" "slate" "card" grey_fs
           (Ok tt) (snd (create_responsive_images "uploads/slate.png" "slate" "card" grey_fs))
           "images/recipes/slate/slate-300.webp").
  - vm_compute. reflexivity.
  - vm_compute. reflexivity.
  - vm_compute. discriminate.
Defined.

Lemma makedirs_from_existing ps : forall st,
  (forall p, p ∈ ps -> p ∈ dirs st) -> makedirs_from ps st = (Ok tt, st).
Proof.
  induction ps as [|q rest IH]; intros st Hall; cbn [makedirs_from]; [reflexivity|].
  unfold bind, mkdir_step. rewrite bool_decide_eq_true_2 by (apply Hall; left).
  apply IH. intros p Hp. apply Hall. right. exact Hp.
Qed.

(** A pass over the buckets that succeeds lays a fixed set of files
    over the store, and does the same from any store with the same
    directories. *)
Lemma each_size_replay img ow oh recipe_dir base_name buckets : forall st st',
  each_size img ow oh recipe_dir base_name buckets st = (Ok tt, st') ->
  exists M : gmap string file,
    forall st3, dirs st3 = dirs st ->
      each_size img ow oh recipe_dir base_name buckets st3
      = (Ok tt, {| dirs := dirs st3; files := M ∪ files st3 |}).
Proof.
  induction buckets as [|[size_name [width height]] rest IH]; intros st st'.
  - intros _. exists ∅. intros [d f] _. cbn. rewrite (left_id_L ∅ (∪)). reflexivity.
  - cbn [each_size]. unfold bind at 1, lift.
    destruct (variant img ow oh width height) as [v|e] eqn:Hv; [|discriminate].
    unfold bind at 1. destruct (save _ "JPEG" 85 v st) as [[[]|e1] st1] eqn:Hs1; [|discriminate].
    pose proof (save_inv _ _ _ _ _ _ Hs1) as [Hd1 Hw1].
    rewrite (save_ok _ _ _ _ _ Hd1 Hw1) in Hs1. injection Hs1 as <-.
    unfold bind at 1.
    destruct (save _ "WebP" 80 v _) as [[[]|e2] st2] eqn:Hs2; [|discriminate].
    pose proof (save_inv _ _ _ _ _ _ Hs2) as [Hd2 Hw2].
    rewrite (save_ok _ _ _ _ _ Hd2 Hw2) in Hs2. injection Hs2 as <-. cbn [dirs] in Hd2.
    intros Hrest. apply IH in Hrest as [M HM]. cbn [dirs] in HM.
    exists (M ∪ <[variant_path recipe_dir base_name size_name "webp"
                  := Encoded "WebP" 80 (stored "WebP" v)]>
                 (<[variant_path recipe_dir base_name size_name "jpg"
                    := Encoded "JPEG" 85 (stored "JPEG" v)]> ∅)).
    intros st3 Hd3. unfold bind at 1, lift. unfold bind at 1.
    rewrite save_ok; [|rewrite Hd3; exact Hd1 | exact Hw1].
    unfold bind at 1.
    rewrite save_ok; [|cbn [dirs]; rewrite Hd3; exact Hd2 | exact Hw2].
    rewrite HM by (cbn [dirs]; exact Hd3). cbn [dirs files].
    rewrite <- (assoc_L (∪)), <- !insert_union_l, (left_id_L ∅ (∪)). reflexivity.
Qed.

(** X3: a second run repeats the first. After a run that returned
    normally, running the script again with the same arguments returns
    normally and leaves the tree exactly as the first run left it: the
    directories exist, the source was not overwritten, and every
    variant is written again with the same content. *)
Theorem second_run_changes_nothing input_path recipe_name image_type st st1 :
  create_responsive_images input_path recipe_name image_type st = (Ok tt, st1) ->
  create_responsive_images input_path recipe_name image_type st1 = (Ok tt, st1).
Proof.
  intros Hrun.
  assert (Hsource : files st1 !! input_path = files st !! input_path).
  { apply (run_frame _ _ _ _ _ _ _ Hrun). intros buckets Hget (l & wh & ext & Hin & Hext & Heq).
    revert Heq. apply output_path_is_not_source; [|exact Hext].
    exact (table_label_plain _ _ _ _ Hget Hin). }
  apply run_stages in Hrun
    as [[_ [e He]]|(sta & format & quality & src & ow & oh & buckets
                    & Hmk & Hfiles & Hsrc & Hsize & Hget & Hrun & How & Hoh & Hpix)];
    [discriminate He|].
  pose proof (each_size_written _ _ _ _ _ _ _ _ _ Hrun) as [Hdirs _].
  destruct (each_size_replay _ _ _ _ _ _ _ _ Hrun) as [M HM].
  assert (Hst1 : st1 = {| dirs := dirs sta; files := M ∪ files sta |}).
  { rewrite (HM sta eq_refl) in Hrun. injection Hrun as <-. reflexivity. }
  unfold create_responsive_images. unfold bind at 1.
  unfold makedirs in Hmk |- *. rewrite makedirs_from_existing.
  - unfold bind at 1.
    rewrite (image_open_accepts input_path st1 format quality src ow oh);
      [|rewrite Hsource; exact Hsrc | exact Hsize | exact How | exact Hoh | exact Hpix].
    set (img := if bool_decide (mode src ∈ ["RGBA"; "LA"; "P"]) then convert "RGB" src else src).
    assert (Hsz : size img = (ow, oh)) by (unfold img; destruct (bool_decide _); exact Hsize).
    rewrite Hsz. unfold bind at 1, lift. rewrite Hget. subst img.
    rewrite (HM st1 Hdirs). rewrite Hst1. cbn [dirs files].
    rewrite (assoc_L (∪)), (idemp_L (∪)). reflexivity.
  - intros p Hp. rewrite Hdirs. apply makedirs_from_dirs in Hmk as [_ Hall]. apply Hall. exact Hp.
Qed.

Lemma second_run_changes_nothing_witness :
  create_responsive_images "uploads/mango.png" "mango-bites" "card" sample_after
  = (Ok tt, sample_after).
Proof.
  apply (second_run_changes_nothing "uploads/mango.png" "mango-bites" "card" sample_fs sample_after).
  vm_compute. reflexivity.
Defined.





Lemma dict_get_Ok_In {V : Type} (k : string) (d : list (string * V)) :
  k ∈ map fst d -> exists v, dict_get k d = Ok v.
Proof.
  induction d as [|[k' v'] rest IH]; cbn [map fst dict_get]; [intros H; inversion H|].
  intros Hin. destruct (String.eqb k k') eqn:E; [eauto|].
  apply elem_of_cons in Hin as [->|Hin]; [rewrite String.eqb_refl in E; discriminate E|].
  exact (IH Hin).
Qed.

Lemma dict_get_Raise {V : Type} (k : string) (d : list (string * V)) e :
  dict_get k d = Raise e -> e = KeyError k /\ k ∉ map fst d.
Proof.
  induction d as [|[k' v'] rest IH]; cbn [map fst dict_get].
  - intros [= <-]. split; [reflexivity|]. intros H. inversion H.
  - destruct (String.eqb k k') eqn:E; [discriminate|]. intros H.
    destruct (IH H) as [-> Hn]. split; [reflexivity|].
    intros Hin. apply elem_of_cons in Hin as [->|Hin]; [|contradiction].
    rewrite String.eqb_refl in E. discriminate E.
Qed.






Lemma picture_element_cases recipe_name base_name image_type alt_text width height loading
    fetchpriority :
  (image_type ∈ choices
   /\ exists html, generate_picture_element recipe_name base_name image_type alt_text
                     width height loading fetchpriority = Ok html)
  \/ ((image_type ∉ choices)
      /\ generate_picture_element recipe_name base_name image_type alt_text
           width height loading fetchpriority = Raise (KeyError image_type)).
Proof.
  unfold generate_picture_element.
  destruct (dict_get image_type sizes_map) as [labels|e] eqn:Hget.
  - left. cbn [rbind]. rewrite build_srcsets_maps.
    destruct (sizes_map_cases _ _ Hget) as [[-> ->]|[[-> ->]|[[-> ->]|[-> ->]]]];
      (split; [unfold choices; set_solver | eexists; reflexivity]).
  - right. apply dict_get_Raise in Hget as [-> Hn]. split; [exact Hn | reflexivity].
Qed.

(** X6: the markup function fails on an unknown profile name only. For
    a profile of hero, card, process, gallery it returns a fragment,
    whatever the other arguments are; for any other name it raises
    KeyError with that name; it raises nothing else (the label list is
    never empty, so [sizes[-1]] is defined). The generator accepts
    exactly the same names. *)
Theorem picture_element_fails_on_unknown_profile_only
    recipe_name base_name image_type alt_text width height loading fetchpriority :
  (if bool_decide (image_type ∈ choices)
   then exists html, generate_picture_element recipe_name base_name image_type alt_text
                       width height loading fetchpriority = Ok html
   else generate_picture_element recipe_name base_name image_type alt_text
          width height loading fetchpriority = Raise (KeyError image_type))
  /\ is_ok (dict_get image_type sizes) = bool_decide (image_type ∈ choices).
Proof.
  split.
  - destruct (picture_element_cases recipe_name base_name image_type alt_text width height
                loading fetchpriority) as [[Hin H]|[Hn H]].
    + rewrite bool_decide_eq_true_2 by exact Hin. exact H.
    + rewrite bool_decide_eq_false_2 by exact Hn. exact H.
  - destruct (dict_get image_type sizes) as [buckets|e] eqn:Hget; cbn [is_ok]; symmetry.
    + apply bool_decide_eq_true. apply dict_get_In in Hget. apply list_elem_of_In in Hget.
      apply (list_elem_of_fmap_2 fst) in Hget. exact Hget.
    + apply bool_decide_eq_false. apply dict_get_Raise in Hget as [_ Hn]. exact Hn.
Qed.

Lemma makedirs_from_no_key_error ps : forall st e st',
  makedirs_from ps st = (Raise e, st') -> is_key_error e = false.
Proof.
  induction ps as [|p rest IH]; intros st e st'; cbn [makedirs_from]; [discriminate|].
  unfold bind, mkdir_step. destruct (bool_decide (p ∈ dirs st)); [apply IH|].
  destruct (files st !! p); [intros [= <- <-]; reflexivity | apply IH].
Qed.

Lemma variant_no_key_error img ow oh width height e :
  variant img ow oh width height = Raise e -> is_key_error e = false.
Proof.
  unfold variant, scaled_size, int_truediv, int_div_float, float_div, int_of, resize,
    center_crop, crop.
  repeat match goal with
         | |- context [match ?x with _ => _ end] => destruct x; cbn [rbind]
         | |- context [if ?b then _ else _] => destruct b; cbn [rbind]
         end;
    intros [= <-] || discriminate; reflexivity.
Qed.

Lemma each_size_no_key_error img ow oh recipe_dir base_name buckets : forall st e st',
  each_size img ow oh recipe_dir base_name buckets st = (Raise e, st') ->
  is_key_error e = false.
Proof.
  induction buckets as [|[size_name [width height]] rest IH]; intros st e st';
    cbn [each_size]; [discriminate|].
  unfold bind at 1, lift.
  destruct (variant img ow oh width height) as [v|e0] eqn:Hv;
    [|intros [= <- <-]; exact (variant_no_key_error _ _ _ _ _ _ Hv)].
  unfold bind at 1, save.
  destruct (bool_decide _); [intros [= <- <-]; reflexivity|].
  destruct (writable "JPEG" v); [|intros [= <- <-]; reflexivity].
  unfold bind at 1. cbn [dirs].
  destruct (bool_decide _); [intros [= <- <-]; reflexivity|].
  cbn [writable String.eqb Ascii.eqb Bool.eqb]. apply IH.
Qed.

Lemma image_open_no_key_error path st e st' :
  image_open path st = (Raise e, st') -> is_key_error e = false.
Proof.
  unfold image_open. destruct (files st !! path) as [[format quality img|]|].
  - destruct (size img) as [w h]. destruct (_ || _); [intros [= <- _]; reflexivity|].
    destruct (_ <? _); [intros [= <- _]; reflexivity | discriminate].
  - intros [= <- _]; reflexivity.
  - destruct (bool_decide _); intros [= <- _]; reflexivity.
Qed.

(** A KeyError that leaves the generator is the one of the profile
    lookup. *)
Lemma run_key_error input_path recipe_name image_type st e st' :
  create_responsive_images input_path recipe_name image_type st = (Raise e, st') ->
  is_key_error e = true -> image_type ∉ choices.
Proof.
  intros Hrun Hkey Hin.
  unfold create_responsive_images in Hrun. unfold bind at 1 in Hrun.
  destruct (makedirs _ st) as [[[]|e1] st1] eqn:Hmk.
  - unfold bind at 1 in Hrun.
    destruct (image_open input_path st1) as [[src|e1] st2] eqn:Hop.
    + destruct (size _) as [ow oh] in Hrun. unfold bind at 1, lift in Hrun.
      destruct (dict_get_Ok_In image_type sizes Hin) as [buckets Hget]. rewrite Hget in Hrun.
      apply each_size_no_key_error in Hrun. congruence.
    + injection Hrun as <- <-. apply image_open_no_key_error in Hop. congruence.
  - injection Hrun as <- <-. apply makedirs_from_no_key_error in Hmk. congruence.
Qed.

(** X7: the command line checks the profile first. With a [--type]
    outside hero, card, process, gallery the script stops in the
    argument parser and the tree is untouched (no directory is
    created). Otherwise it runs the generator on the profile ([hero]
    when the option is absent); if the generator raises, that exception
    leaves the script and it is no KeyError; if the generator returns,
    the markup is printed: building it cannot fail. *)
Theorem command_line_checks_the_profile_first input_path recipe_name type_option st :
  match parse_type type_option with
  | None =>
      command_line input_path recipe_name type_option st = (UsageError, st)
      /\ exists t, type_option = Some t /\ t ∉ choices
  | Some image_type =>
      image_type ∈ choices
      /\ match create_responsive_images input_path recipe_name image_type st with
         | (Raise e, st') =>
             command_line input_path recipe_name type_option st = (Uncaught e, st')
             /\ is_key_error e = false
         | (Ok _, st') =>
             exists html,
               command_line input_path recipe_name type_option st = (Printed html, st')
               /\ generate_picture_element recipe_name (stem input_path) image_type
                    ("Descriptive alt text for " +:+ recipe_name)
                    (example_width image_type) (example_height image_type)
                    (if String.eqb image_type "hero" then "eager" else "lazy")
                    (if String.eqb image_type "hero" then Some "high" else None)
                  = Ok html
         end
  end.
Proof.
  unfold command_line. destruct (parse_type type_option) as [image_type|] eqn:Hparse.
  - assert (Hin : image_type ∈ choices).
    { unfold parse_type in Hparse. destruct type_option as [t|].
      - destruct (bool_decide_reflect (t ∈ choices)); [|discriminate Hparse].
        injection Hparse as <-. assumption.
      - injection Hparse as <-. unfold choices. set_solver. }
    split; [exact Hin|].
    destruct (create_responsive_images input_path recipe_name image_type st)
      as [[[]|e] st'] eqn:Hrun.
    + destruct (picture_element_cases recipe_name (stem input_path) image_type
                  ("Descriptive alt text for " +:+ recipe_name)
                  (example_width image_type) (example_height image_type)
                  (if String.eqb image_type "hero" then "eager" else "lazy")
                  (if String.eqb image_type "hero" then Some "high" else None))
        as [[_ [html Hhtml]]|[Hn _]]; [|contradiction].
      exists html. rewrite Hhtml. split; reflexivity.
    + split; [reflexivity|]. destruct (is_key_error e) eqn:Hkey; [|reflexivity].
      exfalso. exact (run_key_error _ _ _ _ _ _ Hrun Hkey Hin).
  - split; [reflexivity|]. unfold parse_type in Hparse. destruct type_option as [t|];
      [|discriminate Hparse].
    destruct (bool_decide_reflect (t ∈ choices)); [discriminate Hparse|]. eauto.
Qed.

(** X8: the intrinsic size the example markup declares has the
    proportions of its fallback image. For each profile of the command
    line, the [width] and [height] passed to the markup function (1600
    by 2000 for hero, 600 by 450 otherwise) are in the ratio of the
    last bucket of the profile, the one the fallback [src] points at;
    for hero and card they are that bucket's size, for process and
    gallery they are smaller than it in both dimensions. *)
Theorem example_size_has_fallback_ratio image_type :
  image_type ∈ choices ->
  exists buckets label w h,
    dict_get image_type sizes = Ok buckets
    /\ last buckets = Some (label, (w, h))
    /\ last_item (map fst buckets) = Ok label
    /\ example_width image_type * h = example_height image_type * w
    /\ (image_type = "hero" \/ image_type = "card" ->
        (example_width image_type, example_height image_type) = (w, h))
    /\ (image_type = "process" \/ image_type = "gallery" ->
        example_width image_type < w /\ example_height image_type < h).
Proof.
  unfold choices. intros Hin.
  repeat (apply elem_of_cons in Hin as [->|Hin]); [| | | |inversion Hin].
  - exists [("400", (400, 500)); ("800", (800, 1000)); ("1200", (1200, 1500)); ("1600", (1600, 2000))],
      "1600", 1600, 2000.
    do 5 (refine (conj _ _); [reflexivity|]). intros [H|H]; discriminate H.
  - exists [("300", (300, 225)); ("600", (600, 450))], "600", 600, 450.
    do 5 (refine (conj _ _); [reflexivity|]). intros [H|H]; discriminate H.
  - exists [("400", (400, 300)); ("800", (800, 600))], "800", 800, 600.
    do 4 (refine (conj _ _); [reflexivity|]).
    split; [intros [H|H]; discriminate H | intros _; split; reflexivity].
  - exists [("300", (300, 300)); ("600", (600, 600)); ("1200", (1200, 900))], "1200", 1200, 900.
    do 4 (refine (conj _ _); [reflexivity|]).
    split; [intros [H|H]; discriminate H | intros _; split; reflexivity].
Qed.

Lemma example_size_has_fallback_ratio_witness :
  exists buckets label w h,
    dict_get "gallery" sizes = Ok buckets
    /\ last buckets = Some (label, (w, h))
    /\ last_item (map fst buckets) = Ok label
    /\ example_width "gallery" * h = example_height "gallery" * w
    /\ ("gallery" = "hero" \/ "gallery" = "card" ->
        (example_width "gallery", example_height "gallery") = (w, h))
    /\ ("gallery" = "process" \/ "gallery" = "gallery" ->
        example_width "gallery" < w /\ example_height "gallery" < h).
Proof.
  apply (example_size_has_fallback_ratio "gallery"). unfold choices. set_solver.
Defined.

End ResponsiveFacts.

(** ** The converter *)

Module ConverterFacts.
Import PyStr PyStrFacts Converter.

(** *** Source and output names *)

Lemma webp_name_is_not_jpg stem : is_jpg (stem +:+ ".webp") = false.
Proof.
  unfold is_jpg. destruct (endswith _ _) eqn:E; [|reflexivity]. exfalso.
  apply (endswith_last_char _ _ "g") in E; [|reflexivity].
  rewrite last_char_lower, (last_char_app stem ".webp" "p") in E by reflexivity.
  discriminate E.
Qed.

Lemma jpg_path_is_no_webp_path f g : is_jpg f = true -> jpg_path_of f <> webp_path_of g.
Proof.
  unfold jpg_path_of, webp_path_of. intros Hf Heq.
  apply (inj (String.append image_dir)) in Heq. subst f.
  rewrite webp_name_is_not_jpg in Hf. discriminate.
Qed.

(** *** The staleness check *)

Lemma up_to_date_store webp_path jpg_path w r w' :
  up_to_date webp_path jpg_path w = (r, w') -> w' = w.
Proof.
  unfold up_to_date. destruct (files w !! webp_path); [destruct (files w !! jpg_path)|];
    intros H; congruence.
Qed.

Lemma up_to_date_fresh f w :
  fresh (files w) f -> up_to_date (webp_path_of f) (jpg_path_of f) w = (Ok true, w).
Proof.
  intros (jpg & webp & Hj & Hw & Hlt). unfold up_to_date. rewrite Hw, Hj.
  replace (mtime jpg <? mtime webp) with true by (symmetry; apply Z.ltb_lt; exact Hlt).
  reflexivity.
Qed.

Lemma up_to_date_true f w :
  up_to_date (webp_path_of f) (jpg_path_of f) w = (Ok true, w) -> fresh (files w) f.
Proof.
  unfold up_to_date, fresh.
  destruct (files w !! webp_path_of f) as [webp|]; [|discriminate].
  destruct (files w !! jpg_path_of f) as [jpg|]; [|discriminate].
  intros [= H]. apply Z.ltb_lt in H. eauto.
Qed.

(** A stale or missing output: whatever sits at the output path is not
    newer than the source. *)
Lemma up_to_date_false f w jpg :
  up_to_date (webp_path_of f) (jpg_path_of f) w = (Ok false, w) ->
  files w !! jpg_path_of f = Some jpg ->
  forall webp, files w !! webp_path_of f = Some webp -> mtime webp <= mtime jpg.
Proof.
  unfold up_to_date. intros Hup Hj webp Hw. rewrite Hw, Hj in Hup.
  injection Hup as Hup. apply Z.ltb_ge in Hup. exact Hup.
Qed.

Lemma with_output_keeps_sources f mode now fs g :
  is_jpg g = true -> with_output f mode now fs !! jpg_path_of g = fs !! jpg_path_of g.
Proof.
  intros Hg. apply lookup_insert_ne. intros Heq. symmetry in Heq.
  revert Heq. apply jpg_path_is_no_webp_path. exact Hg.
Qed.

Lemma with_output_keeps_fresh f mode now fs g :
  is_jpg g = true ->
  (forall webp, fs !! webp_path_of f = Some webp -> mtime webp < now) ->
  fresh fs g -> fresh (with_output f mode now fs) g.
Proof.
  intros Hg Hold (jg & wg & Hjg & Hwg & Hlt). unfold fresh.
  rewrite with_output_keeps_sources by exact Hg. unfold with_output.
  destruct (decide (webp_path_of f = webp_path_of g)) as [Heq|Hne].
  - eexists jg, _. rewrite Heq, lookup_insert_eq. repeat split; [exact Hjg|].
    cbn [mtime]. rewrite Heq in Hold. specialize (Hold wg Hwg). lia.
  - exists jg, wg. rewrite lookup_insert_ne by exact Hne. auto.
Qed.

Lemma with_output_makes_fresh f mode now fs jpg :
  is_jpg f = true -> fs !! jpg_path_of f = Some jpg -> mtime jpg < now ->
  fresh (with_output f mode now fs) f.
Proof.
  intros Hf Hj Hlt. unfold fresh. rewrite with_output_keeps_sources by exact Hf.
  unfold with_output. eexists jpg, _. rewrite lookup_insert_eq. repeat split; auto.
Qed.

Lemma with_empty_output_other f now fs p :
  p <> webp_path_of f -> with_empty_output f now fs !! p = fs !! p.
Proof.
  intros Hp. unfold with_empty_output. destruct (fs !! webp_path_of f); [|reflexivity].
  apply lookup_insert_ne. congruence.
Qed.

Lemma with_empty_output_keeps_sources f now fs g :
  is_jpg g = true -> with_empty_output f now fs !! jpg_path_of g = fs !! jpg_path_of g.
Proof. intros Hg. apply with_empty_output_other, jpg_path_is_no_webp_path, Hg. Qed.

(** The three outcomes of a conversion: the output is written; or the
    encoder refuses the picture, an error is printed and an output that
    was there is left empty; or the source cannot be decoded, an error
    is printed and the directory is left as it was. *)
Lemma convert_outcome f now w :
  (exists jpg format mode,
      files w !! jpg_path_of f = Some jpg /\ body jpg = Picture format mode
      /\ convert_jpg_to_webp (jpg_path_of f) (webp_path_of f) now w
         = (Ok tt,
            {| files := with_output f (webp_mode (flattened mode)) now (files w);
               out := out w ++ [Converted (jpg_path_of f) (webp_path_of f)] |}))
  \/ (exists jpg format mode message,
        files w !! jpg_path_of f = Some jpg /\ body jpg = Unsavable format mode message
        /\ convert_jpg_to_webp (jpg_path_of f) (webp_path_of f) now w
           = (Ok tt,
              {| files := with_empty_output f now (files w);
                 out := out w ++ [ConversionError (jpg_path_of f) message] |}))
  \/ (exists message,
        convert_jpg_to_webp (jpg_path_of f) (webp_path_of f) now w
        = (Ok tt, {| files := files w;
                     out := out w ++ [ConversionError (jpg_path_of f) message] |})).
Proof.
  unfold convert_jpg_to_webp.
  destruct (files w !! jpg_path_of f) as [[tj [format mode|format mode message|message]]|].
  - left. eexists _, format, mode. repeat split.
  - right. left. eexists _, format, mode, message. repeat split.
  - right. right. exists message. reflexivity.
  - right. right. eexists. reflexivity.
Qed.

Lemma convert_all_skips l clock c : forall w,
  (forall f, In f l -> fresh (files w) f) ->
  convert_all l clock c w
  = (Ok c, {| files := files w; out := out w ++ map Skipped l |}).
Proof.
  induction l as [|f rest IH]; intros w Hall.
  - cbn. rewrite app_nil_r. destruct w; reflexivity.
  - cbn [convert_all]. unfold bind at 1.
    rewrite up_to_date_fresh by (apply Hall; left; reflexivity).
    unfold bind at 1, print, modify.
    rewrite IH by (intros g Hg; apply Hall; right; exact Hg).
    cbn [files out map]. rewrite <- app_assoc. reflexivity.
Qed.

(** After a run without conversion errors in which every written output
    got a time later than its source, every listed source is fresh. *)
Lemma convert_all_fresh l clock : forall c w c' w',
  (forall f, In f l -> is_jpg f = true) ->
  convert_all l clock c w = (Ok c', w') ->
  (forall p m, ~ In (ConversionError p m) (out w')) ->
  (forall f e, In f l -> files w !! jpg_path_of f = Some e -> mtime e < clock f) ->
  (forall f, is_jpg f = true -> files w' !! jpg_path_of f = files w !! jpg_path_of f)
  /\ (forall f, is_jpg f = true -> fresh (files w) f -> fresh (files w') f)
  /\ (forall f, In f l -> fresh (files w') f)
  /\ (exists evs, out w' = out w ++ evs).
Proof.
  induction l as [|f rest IH]; intros c w c' w' Hjpg Hrun Hok Hclock.
  - injection Hrun as <- <-.
    repeat split; auto; [intros f []|exists []; rewrite app_nil_r; reflexivity].
  - assert (Hf : is_jpg f = true) by (apply Hjpg; left; reflexivity).
    assert (Hrest : forall g, In g rest -> is_jpg g = true)
      by (intros g Hg; apply Hjpg; right; exact Hg).
    cbn [convert_all] in Hrun. unfold bind at 1 in Hrun.
    destruct (up_to_date _ _ w) as [[[]|e] wa] eqn:Hup; [| |discriminate Hrun];
      pose proof (up_to_date_store _ _ _ _ _ Hup) as ->.
    + (* the output is up to date: skipped *)
      apply up_to_date_true in Hup.
      unfold bind at 1, print, modify in Hrun.
      apply IH in Hrun as (H1 & H2 & H3 & [evs H4]); auto;
        [|cbn [files]; intros g e Hg; apply Hclock; right; exact Hg].
      cbn [files out] in *. repeat split; auto.
      * intros g [<-|Hg]; auto.
      * exists (Skipped f :: evs). rewrite H4, <- app_assoc. reflexivity.
    + (* converted *)
      unfold bind at 1 in Hrun.
      destruct (convert_outcome f (clock f) w)
        as [(jpg & format & mode & Hj & _ & Hconv)
           |[(jpg & format & mode & message & _ & _ & Hconv)|[message Hconv]]];
        rewrite Hconv in Hrun.
      * assert (Hnow : mtime jpg < clock f) by (apply (Hclock f); [left; reflexivity | exact Hj]).
        assert (Hold : forall webp, files w !! webp_path_of f = Some webp -> mtime webp < clock f).
        { intros webp Hw. pose proof (up_to_date_false f w jpg Hup Hj webp Hw). lia. }
        apply IH in Hrun as (H1 & H2 & H3 & [evs H4]); auto.
        -- cbn [files out] in *. repeat split.
           ++ intros g Hg. rewrite H1 by exact Hg. apply with_output_keeps_sources; exact Hg.
           ++ intros g Hg Hfr. apply H2; [exact Hg|]. apply with_output_keeps_fresh; auto.
           ++ intros g [<-|Hg]; [|auto]. apply H2; [exact Hf|].
              eapply with_output_makes_fresh; eauto.
           ++ exists (Converted (jpg_path_of f) (webp_path_of f) :: evs).
              rewrite H4, <- app_assoc. reflexivity.
        -- cbn [files]. intros g e Hg Hl. apply (Hclock g e); [right; exact Hg|].
           rewrite with_output_keeps_sources in Hl by auto. exact Hl.
      * (* a refused picture would show in the final output *)
        exfalso. apply IH in Hrun as (_ & _ & _ & [evs H4]); auto.
        -- apply (Hok (jpg_path_of f) message). rewrite H4. cbn [out].
           apply in_or_app. left. apply in_or_app. right. left. reflexivity.
        -- cbn [files]. intros g e Hg Hl. apply (Hclock g e); [right; exact Hg|].
           rewrite with_empty_output_keeps_sources in Hl by auto. exact Hl.
      * (* a conversion error would show in the final output *)
        exfalso. apply IH in Hrun as (_ & _ & _ & [evs H4]); auto.
        -- apply (Hok (jpg_path_of f) message). rewrite H4. cbn [out].
           apply in_or_app. left. apply in_or_app. right. left. reflexivity.
        -- cbn [files]. intros g e Hg. apply Hclock. right; exact Hg.
Qed.

(** A run writes at output paths only, and an output name is no JPG
    name: the listing of the directory gains no JPG by a run. *)
Lemma convert_all_writes_outputs_only l clock : forall c w r w' p,
  convert_all l clock c w = (r, w') ->
  files w' !! p <> files w !! p ->
  exists f, In f l /\ p = webp_path_of f.
Proof.
  induction l as [|f rest IH]; intros c w r w' p Hrun Hdiff.
  - injection Hrun as <- <-. contradiction.
  - cbn [convert_all] in Hrun. unfold bind at 1 in Hrun.
    destruct (up_to_date _ _ w) as [[[]|e] wa] eqn:Hup;
      pose proof (up_to_date_store _ _ _ _ _ Hup) as ->.
    + unfold bind at 1, print, modify in Hrun.
      apply (IH _ _ _ _ p) in Hrun as (g & Hg & ->); [|exact Hdiff].
      exists g. split; [right; exact Hg | reflexivity].
    + unfold bind at 1 in Hrun.
      destruct (convert_outcome f (clock f) w)
        as [(jpg & format & mode & _ & _ & Hconv)
           |[(jpg & format & mode & message & _ & _ & Hconv)|[message Hconv]]];
        rewrite Hconv in Hrun.
      * destruct (decide (p = webp_path_of f)) as [->|Hne];
          [exists f; split; [left|]; reflexivity|].
        apply (IH _ _ _ _ p) in Hrun as (g & Hg & ->).
        -- exists g. split; [right; exact Hg | reflexivity].
        -- cbn [files]. unfold with_output. rewrite lookup_insert_ne by congruence. exact Hdiff.
      * destruct (decide (p = webp_path_of f)) as [->|Hne];
          [exists f; split; [left|]; reflexivity|].
        apply (IH _ _ _ _ p) in Hrun as (g & Hg & ->).
        -- exists g. split; [right; exact Hg | reflexivity].
        -- cbn [files]. rewrite with_empty_output_other by exact Hne. exact Hdiff.
      * apply (IH _ _ _ _ p) in Hrun as (g & Hg & ->); [|exact Hdiff].
        exists g. split; [right; exact Hg | reflexivity].
    + injection Hrun as <- <-. contradiction.
Qed.

(** C8: a listed source is skipped exactly when its output exists with
    a modification time strictly newer than the source's, and is
    converted otherwise. Consequently, after a first run that printed no
    conversion error and in which every written output got a time later
    than its source, a second run over the unchanged directory (no new
    JPG name in its listing) converts nothing: it leaves every file as
    it is and any count it reports is 0. *)
Theorem rerun_converts_nothing :
  (forall f rest clock c w,
      is_Some (files w !! jpg_path_of f) ->
      convert_all (f :: rest) clock c w
      = if newer_output (files w) f
        then (do _ <- print (Skipped f); convert_all rest clock c) w
        else (do _ <- convert_jpg_to_webp (jpg_path_of f) (webp_path_of f) (clock f);
              convert_all rest clock (c + 1)) w)
  /\ (forall names1 names2 clock1 clock2 fs0 w1,
        main (Some names1) clock1 {| files := fs0; out := [] |} = (Ok tt, w1) ->
        (forall p m, ~ In (ConversionError p m) (out w1)) ->
        (forall f e, In f names1 -> fs0 !! jpg_path_of f = Some e -> mtime e < clock1 f) ->
        (forall f, In f names2 -> is_jpg f = true -> In f names1) ->
        exists w2,
          main (Some names2) clock2 {| files := files w1; out := [] |} = (Ok tt, w2)
          /\ files w2 = files w1
          /\ (forall a b, ~ In (Converted a b) (out w2))
          /\ (forall n, In (Summary n) (out w2) -> n = 0)).
Proof.
  split.
  - intros f rest clock c w [jpg Hj]. cbn [convert_all]. unfold bind at 1, up_to_date, newer_output.
    rewrite Hj. destruct (files w !! webp_path_of f) as [webp|]; [|reflexivity].
    destruct (mtime jpg <? mtime webp); reflexivity.
  - intros names1 names2 clock1 clock2 fs0 w1 Hrun Hok Hclock Hsame.
    assert (Hfresh : forall f, In f (List.filter is_jpg names2) -> fresh (files w1) f).
    { intros f Hf. apply filter_In in Hf as [Hin Hjpg].
      specialize (Hsame f Hin Hjpg).
      assert (Hin1 : In f (List.filter is_jpg names1)) by (apply filter_In; auto).
      cbn [main] in Hrun. unfold bind at 1, print, modify in Hrun. cbn [files out app] in Hrun.
      destruct (List.filter is_jpg names1) as [|g l] eqn:Hl; [destruct Hin1|].
      unfold bind at 1 in Hrun.
      destruct (convert_all (g :: l) clock1 0 _) as [[c1|e] wa] eqn:Hloop; [|discriminate Hrun].
      unfold print, modify in Hrun. injection Hrun as <-. cbn [files out] in *.
      eapply convert_all_fresh in Hloop as (_ & _ & H3 & _); eauto.
      - intros h Hh. rewrite <- Hl in Hh. apply filter_In in Hh as [_ Hh]. exact Hh.
      - intros p m Hp. apply (Hok p m). apply in_or_app. left. exact Hp.
      - cbn [files]. intros h e Hh. apply Hclock.
        rewrite <- Hl in Hh. apply filter_In in Hh as [Hh _]. exact Hh. }
    cbn [main]. unfold bind at 1, print, modify. cbn [files out app].
    destruct (List.filter is_jpg names2) as [|g l] eqn:Hl.
    + eexists. split; [reflexivity|]. cbn [files out]. repeat split.
      * intros a b [H|[H|[]]]; discriminate H.
      * intros n [H|[H|[]]]; discriminate H.
    + unfold bind at 1. rewrite convert_all_skips by (cbn [files]; exact Hfresh).
      cbn [files out]. eexists. split; [reflexivity|]. cbn [files out]. repeat split.
      * intros a b Hin. apply in_app_or in Hin as [Hin|[H|[]]]; [|discriminate H].
        apply in_app_or in Hin as [[H|[]]|Hin]; [discriminate H|].
        apply in_map_iff in Hin as (x & H & _). discriminate H.
      * intros n Hin. apply in_app_or in Hin as [Hin|[H|[]]]; [|congruence].
        apply in_app_or in Hin as [[H|[]]|Hin]; [discriminate H|].
        apply in_map_iff in Hin as (x & H & _). discriminate H.
Qed.

(** Two runs over that directory. *)
Lemma rerun_converts_nothing_witness :
  exists w2,
    main (Some ["bars.webp"; "bars.jpg"]) (fun _ => 200)
      {| files := files (snd (main (Some ["bars.jpg"]) (fun _ => 100) {| files := demo_files; out := [] |}));
         out := [] |} = (Ok tt, w2)
    /\ files w2 = files (snd (main (Some ["bars.jpg"]) (fun _ => 100) {| files := demo_files; out := [] |}))
    /\ (forall a b, ~ In (Converted a b) (out w2))
    /\ (forall n, In (Summary n) (out w2) -> n = 0).
Proof.
  apply (proj2 rerun_converts_nothing ["bars.jpg"] ["bars.webp"; "bars.jpg"]
           (fun _ => 100) (fun _ => 200) demo_files).
  - vm_compute. reflexivity.
  - intros p m H. vm_compute in H. destruct H as [H|[H|[H|[]]]]; discriminate H.
  - intros f e [<-|[]] H. vm_compute in H. injection H as <-. vm_compute. reflexivity.
  - intros f [<-|[<-|[]]] H; [vm_compute in H; discriminate H | left; reflexivity].
Defined.

(** *** The reported count *)

Lemma attempts_app a b : attempts (a ++ b) = attempts a + attempts b.
Proof. unfold attempts. rewrite !List.filter_app, !length_app. lia. Qed.

Lemma attempts_cons ev evs : attempts (ev :: evs) = attempts [ev] + attempts evs.
Proof. exact (attempts_app [ev] evs). Qed.

(** The counter is incremented after every call of the conversion,
    whether the call wrote an output or printed an error. *)
Lemma convert_all_counts_attempts l clock : forall c w c' w',
  convert_all l clock c w = (Ok c', w') ->
  exists evs, out w' = out w ++ evs /\ c' = c + attempts evs.
Proof.
  induction l as [|f rest IH]; intros c w c' w' Hrun.
  - injection Hrun as <- <-. exists []. rewrite app_nil_r.
    split; [reflexivity | change (attempts []) with 0; lia].
  - cbn [convert_all] in Hrun. unfold bind at 1 in Hrun.
    destruct (up_to_date _ _ w) as [[[]|e] wa] eqn:Hup; [| |discriminate Hrun];
      pose proof (up_to_date_store _ _ _ _ _ Hup) as ->.
    + unfold bind at 1, print, modify in Hrun.
      apply IH in Hrun as (evs & H1 & H2). cbn [out] in H1.
      exists (Skipped f :: evs). rewrite H1, <- app_assoc. split; [reflexivity|].
      rewrite attempts_cons. change (attempts [Skipped f]) with 0. lia.
    + unfold bind at 1 in Hrun.
      destruct (convert_outcome f (clock f) w)
        as [(jpg & format & mode & _ & _ & Hconv)
           |[(jpg & format & mode & message & _ & _ & Hconv)|[message Hconv]]];
        rewrite Hconv in Hrun;
        apply IH in Hrun as (evs & H1 & H2); cbn [out] in H1;
        eexists (_ :: evs); rewrite H1, <- app_assoc; (split; [reflexivity|]);
        rewrite attempts_cons; unfold attempts at 1;
        cbn [List.filter is_converted is_error length]; lia.
Qed.

(** C6: the error of [bad.jpg] is caught and printed with its path and
    message and [bars.jpg] is still converted, but the final count is 2
    although one conversion succeeded: the counter is incremented after
    every call of [convert_jpg_to_webp], which swallows the exception. *)
Theorem converted_count_includes_failures :
  main (Some ["bad.jpg"; "bars.jpg"]) (fun _ => 100) {| files := broken_files; out := [] |}
  = (Ok tt,
     {| files := with_output "bars.jpg" "RGB" 100 broken_files;
        out := [Started;
                ConversionError (jpg_path_of "bad.jpg") "cannot identify image file";
                Converted (jpg_path_of "bars.jpg") (webp_path_of "bars.jpg");
                Summary 2] |})
  /\ attempts [ConversionError (jpg_path_of "bad.jpg") "cannot identify image file";
               Converted (jpg_path_of "bars.jpg") (webp_path_of "bars.jpg")] = 2
  /\ length (List.filter is_converted
                [ConversionError (jpg_path_of "bad.jpg") "cannot identify image file";
                 Converted (jpg_path_of "bars.jpg") (webp_path_of "bars.jpg")]) = 1%nat.
Proof. repeat split; vm_compute; reflexivity. Qed.

(** *** Further properties of the converter *)

(** A JPG name is a base, a dot and an extension that reads jpg, in
    whatever case. *)
Lemma is_jpg_split f :
  is_jpg f = true ->
  exists base ext, f = base +:+ "." +:+ ext /\ lower ext = "jpg" /\ rsplit_dot_head f = base.
Proof.
  unfold is_jpg. intros H. apply endswith_app in H as [pre H].
  apply lower_app_inv in H as (a & b & -> & _ & Hb).
  destruct b as [|c0 [|c1 [|c2 [|c3 [|]]]]]; try discriminate Hb.
  cbn in Hb. injection Hb as H0 H1 H2 H3. apply lower_char_dot in H0. subst c0.
  exists a, (String c1 (String c2 (String c3 EmptyString))). split; [reflexivity|].
  split; [cbn; rewrite H1, H2, H3; reflexivity|].
  unfold rsplit_dot_head. rewrite before_last_app; [reflexivity|].
  cbn [occurs]. rewrite (lower_char_not_dot _ _ H1), (lower_char_not_dot _ _ H2),
    (lower_char_not_dot _ _ H3) by discriminate. reflexivity.
Qed.

(** X9: the output of a JPG name (any case of the extension) is named by
    replacing the extension: the name is [base.ext] with [ext] reading
    jpg, the source is read at [image_dir/base.ext] and the output is
    written at [image_dir/base.webp]; the case of the base is kept. *)
Theorem output_name_replaces_extension f :
  is_jpg f = true ->
  exists base ext,
    f = base +:+ "." +:+ ext /\ lower ext = "jpg"
    /\ jpg_path_of f = image_dir +:+ (base +:+ "." +:+ ext)
    /\ webp_path_of f = image_dir +:+ (base +:+ ".webp").
Proof.
  intros H. destruct (is_jpg_split f H) as (base & ext & Hf & Hext & Hhead).
  exists base, ext. unfold jpg_path_of, webp_path_of. rewrite Hhead.
  split; [exact Hf|]. split; [exact Hext|]. split; [rewrite <- Hf|]; reflexivity.
Qed.

Lemma output_name_replaces_extension_witness :
  is_jpg "Final.Cut.JPG" = true
  /\ exists base ext,
       "Final.Cut.JPG" = base +:+ "." +:+ ext /\ lower ext = "jpg"
       /\ jpg_path_of "Final.Cut.JPG" = image_dir +:+ (base +:+ "." +:+ ext)
       /\ webp_path_of "Final.Cut.JPG" = image_dir +:+ (base +:+ ".webp").
Proof.
  split; [reflexivity|]. apply (output_name_replaces_extension "Final.Cut.JPG"). reflexivity.
Defined.

Lemma convert_step f now w :
  exists ev fs',
    convert_jpg_to_webp (jpg_path_of f) (webp_path_of f) now w
    = (Ok tt, {| files := fs'; out := out w ++ [ev] |})
    /\ report_of f ev /\ is_skipped ev = false
    /\ (forall p, p <> webp_path_of f -> fs' !! p = files w !! p)
    /\ (fs' !! webp_path_of f = files w !! webp_path_of f
        \/ exists jpg e,
             files w !! jpg_path_of f = Some jpg
             /\ fs' !! webp_path_of f = Some e /\ left_by jpg now e).
Proof.
  destruct (convert_outcome f now w)
    as [(jpg & format & mode & Hj & Hb & Hconv)
       |[(jpg & format & mode & message & Hj & Hb & Hconv)|[message Hconv]]]; rewrite Hconv.
  - eexists _, _. split; [reflexivity|]. split; [right; left; reflexivity|].
    split; [reflexivity|]. split.
    + intros p Hp. unfold with_output. apply lookup_insert_ne. congruence.
    + right. eexists jpg, _. split; [exact Hj|]. split.
      * unfold with_output. apply lookup_insert_eq.
      * left. exists format, mode. split; [exact Hb | reflexivity].
  - eexists _, _. split; [reflexivity|]. split; [right; right; eauto|].
    split; [reflexivity|]. split.
    + intros p Hp. apply with_empty_output_other, Hp.
    + unfold with_empty_output. destruct (files w !! webp_path_of f) eqn:Hw.
      * right. eexists jpg, _. split; [exact Hj|]. split; [apply lookup_insert_eq|].
        right. exists format, mode, message. split; [exact Hb | reflexivity].
      * left. rewrite Hw. reflexivity.
  - eexists _, _. split; [reflexivity|]. split; [right; right; eauto|].
    split; [reflexivity|]. split; [reflexivity|]. left. reflexivity.
Qed.

Lemma convert_step_keeps_sources f g (fs' fs : gmap string entry) :
  (forall p, p <> webp_path_of f -> fs' !! p = fs !! p) ->
  is_jpg g = true -> fs' !! jpg_path_of g = fs !! jpg_path_of g.
Proof. intros Hother Hg. apply Hother, jpg_path_is_no_webp_path, Hg. Qed.

(** What is encoded has no palette, and the written picture is RGB or
    RGBA. *)
Lemma webp_mode_flattened mode :
  (webp_mode (flattened mode) = "RGB" \/ webp_mode (flattened mode) = "RGBA")
  /\ (mode ∈ ["RGB"; "RGBA"; "P"] -> webp_mode (flattened mode) = "RGB").
Proof.
  split.
  - unfold webp_mode. repeat case_bool_decide; auto.
    match goal with H : flattened mode ∈ _ |- _ =>
      apply elem_of_cons in H as [->|H]; [auto|];
      apply elem_of_cons in H as [->|H]; [auto|]; inversion H
    end.
  - intros H. unfold flattened.
    apply elem_of_cons in H as [->|H]; [reflexivity|].
    apply elem_of_cons in H as [->|H]; [reflexivity|].
    apply elem_of_cons in H as [->|H]; [reflexivity|]. inversion H.
Qed.

Lemma convert_all_completes l clock : forall c w,
  (forall f, In f l -> is_jpg f = true /\ is_Some (files w !! jpg_path_of f)) ->
  exists c' w', convert_all l clock c w = (Ok c', w').
Proof.
  induction l as [|f rest IH]; intros c w Hl.
  - eexists _, _. reflexivity.
  - cbn [convert_all]. unfold bind at 1.
    destruct (Hl f (or_introl eq_refl)) as [Hf [jpg Hjpg]].
    unfold up_to_date. rewrite Hjpg.
    destruct (files w !! webp_path_of f) as [webp|]; [destruct (mtime jpg <? mtime webp)|].
    + unfold bind at 1, print, modify. apply IH. cbn [files].
      intros g Hg. apply Hl. right; exact Hg.
    + unfold bind at 1.
      destruct (convert_step f (clock f) w) as (ev & fs' & -> & _ & _ & Hother & _).
      apply IH. cbn [files].
      intros g Hg. destruct (Hl g (or_intror Hg)) as [Hgj Hgs]. split; [exact Hgj|].
      rewrite (convert_step_keeps_sources f g fs' (files w) Hother Hgj). exact Hgs.
    + unfold bind at 1.
      destruct (convert_step f (clock f) w) as (ev & fs' & -> & _ & _ & Hother & _).
      apply IH. cbn [files].
      intros g Hg. destruct (Hl g (or_intror Hg)) as [Hgj Hgs]. split; [exact Hgj|].
      rewrite (convert_step_keeps_sources f g fs' (files w) Hother Hgj). exact Hgs.
Qed.

(** X10: when every listed JPG name is an entry of the directory, the run
    returns normally, whatever the entries hold (undecodable sources,
    stale or corrupt outputs): the only exception that can leave [main]
    is the one of line 57 on a listed source that is gone. *)
Theorem main_never_raises listing clock w :
  (forall names f, listing = Some names -> In f names -> is_jpg f = true ->
     is_Some (files w !! jpg_path_of f)) ->
  exists w', main listing clock w = (Ok tt, w').
Proof.
  intros Hl. destruct listing as [names|]; cbn [main].
  - unfold bind at 1, print at 1, modify.
    destruct (List.filter is_jpg names) as [|f rest] eqn:Hfilter.
    + eexists. reflexivity.
    + unfold bind at 1.
      destruct (convert_all_completes (f :: rest) clock 0
                  {| files := files w; out := out w ++ [Started] |}) as (c' & w' & ->).
      * intros g Hg. rewrite <- Hfilter in Hg. apply List.filter_In in Hg as [Hin Hj].
        split; [exact Hj|]. exact (Hl names g eq_refl Hin Hj).
      * eexists. reflexivity.
  - eexists. reflexivity.
Qed.

Lemma main_never_raises_witness :
  exists w', main (Some ["notes.txt"; "bars.JPG"]) (fun _ => 100) mixed_world = (Ok tt, w').
Proof.
  apply (main_never_raises (Some ["notes.txt"; "bars.JPG"]) (fun _ => 100) mixed_world).
  intros names f [= <-] Hin Hj. destruct Hin as [<-|[<-|[]]].
  - vm_compute in Hj. discriminate Hj.
  - vm_compute. eauto.
Defined.

Lemma convert_all_written l clock : forall c w r w' p,
  (forall f, In f l -> is_jpg f = true) ->
  convert_all l clock c w = (r, w') ->
  files w' !! p = files w !! p
  \/ exists f jpg e,
       In f l /\ p = webp_path_of f
       /\ files w !! jpg_path_of f = Some jpg
       /\ files w' !! p = Some e /\ left_by jpg (clock f) e.
Proof.
  induction l as [|f rest IH]; intros c w r w' p Hl Hrun.
  - injection Hrun as <- <-. left. reflexivity.
  - assert (Hrest : forall g, In g rest -> is_jpg g = true) by (intros g Hg; apply Hl; right; exact Hg).
    cbn [convert_all] in Hrun. unfold bind at 1 in Hrun.
    destruct (up_to_date _ _ w) as [[[]|e] wa] eqn:Hup;
      pose proof (up_to_date_store _ _ _ _ _ Hup) as ->.
    + unfold bind at 1, print, modify in Hrun.
      destruct (IH _ _ _ _ p Hrest Hrun) as [H|(g & jpg & e & Hg & H)];
        [left; exact H|].
      right. exists g, jpg, e. split; [right; exact Hg | exact H].
    + unfold bind at 1 in Hrun.
      destruct (convert_step f (clock f) w) as (ev & fs' & Hconv & _ & _ & Hother & Hhere);
        rewrite Hconv in Hrun.
      destruct (IH _ _ _ _ p Hrest Hrun)
        as [Hsame|(g & jpg & e & Hg & Hp & Hj & H)]; cbn [files] in *.
      * destruct (decide (p = webp_path_of f)) as [->|Hp].
        -- destruct Hhere as [Hhere|(jpg & e & Hj & He & Hleft)].
           ++ left. rewrite Hsame. exact Hhere.
           ++ right. exists f, jpg, e. split; [left; reflexivity|].
              split; [reflexivity|]. split; [exact Hj|]. rewrite Hsame. auto.
        -- left. rewrite Hsame. apply Hother, Hp.
      * right.
        rewrite (convert_step_keeps_sources f g fs' (files w) Hother (Hrest g Hg)) in Hj.
        exists g, jpg, e. split; [right; exact Hg|]. auto.
    + injection Hrun as <- <-. left. reflexivity.
Qed.

(** What a run leaves at a path: the entry that was there, or what the
    conversion of a listed JPG name left at its output path. *)
Lemma main_written listing clock w r w' p :
  main listing clock w = (r, w') ->
  files w' !! p = files w !! p
  \/ exists names f jpg e,
       listing = Some names /\ In f names /\ is_jpg f = true /\ p = webp_path_of f
       /\ files w !! jpg_path_of f = Some jpg
       /\ files w' !! p = Some e /\ left_by jpg (clock f) e.
Proof.
  destruct listing as [names|]; cbn [main]; intros Hrun.
  - unfold bind at 1, print at 1, modify in Hrun.
    assert (Hjpg : forall g, In g (List.filter is_jpg names) -> In g names /\ is_jpg g = true)
      by (intros g Hg; apply List.filter_In in Hg; exact Hg).
    destruct (List.filter is_jpg names) as [|f0 rest].
    + injection Hrun as <- <-. left. reflexivity.
    + unfold bind at 1 in Hrun.
      destruct (convert_all (f0 :: rest) clock 0 _) as [[c'|e] w1] eqn:Hall;
        injection Hrun as <- <-; cbn [files] in *;
        (destruct (convert_all_written _ _ _ _ _ _ p (fun g Hg => proj2 (Hjpg g Hg)) Hall)
          as [H|(f & jpg & e' & Hf & Hp & Hj & Hw & Hleft)]; [left; exact H|]);
        apply Hjpg in Hf as [Hin Hfj]; right;
        exists names, f, jpg, e'; auto 10.
  - injection Hrun as <- <-. left. reflexivity.
Qed.

(** X11: every entry of the directory that a run creates or changes
    sits at the output path of a listed JPG name [f] whose source the
    library decodes. Either the conversion of [f] succeeded: then the
    entry is a WebP stamped with the time of that conversion and holds
    an RGB or an RGBA picture, RGB whenever the source is RGB, RGBA or
    P. Or the encoder refused the picture of [f]: then the entry is an
    output left empty, stamped with the time of that conversion. This
    holds for a run that raises as well. *)
Theorem main_changes_outputs_only listing clock w r w' p :
  main listing clock w = (r, w') ->
  files w' !! p <> files w !! p ->
  exists names f jpg,
    listing = Some names /\ In f names /\ is_jpg f = true /\ p = webp_path_of f
    /\ files w !! jpg_path_of f = Some jpg
    /\ ((exists format mode stored,
           body jpg = Picture format mode
           /\ files w' !! p = Some {| mtime := clock f; body := Picture "WebP" stored |}
           /\ (stored = "RGB" \/ stored = "RGBA")
           /\ (mode ∈ ["RGB"; "RGBA"; "P"] -> stored = "RGB"))
        \/ (exists format mode message,
              body jpg = Unsavable format mode message
              /\ files w' !! p
                 = Some {| mtime := clock f; body := Corrupt "cannot identify image file" |})).
Proof.
  intros Hrun Hdiff.
  destruct (main_written _ _ _ _ _ p Hrun)
    as [H|(names & f & jpg & e & Hl & Hin & Hf & Hp & Hj & He & Hleft)]; [contradiction|].
  exists names, f, jpg. repeat (split; [assumption|]).
  destruct Hleft as [(format & mode & Hb & ->)|(format & mode & message & Hb & ->)].
  - left. exists format, mode, (webp_mode (flattened mode)).
    pose proof (webp_mode_flattened mode) as [? ?]. auto.
  - right. exists format, mode, message. auto.
Qed.

(** A palette picture named [bars.JPG] is written as an RGB WebP. *)
Lemma main_changes_outputs_only_witness :
  exists names f jpg,
    Some mixed_listing = Some names /\ In f names /\ is_jpg f = true
    /\ webp_path_of "bars.JPG" = webp_path_of f
    /\ files mixed_world !! jpg_path_of f = Some jpg
    /\ ((exists format mode stored,
           body jpg = Picture format mode
           /\ files mixed_after !! webp_path_of "bars.JPG"
              = Some {| mtime := (fun _ : string => 100) f; body := Picture "WebP" stored |}
           /\ (stored = "RGB" \/ stored = "RGBA")
           /\ (mode ∈ ["RGB"; "RGBA"; "P"] -> stored = "RGB"))
        \/ (exists format mode message,
              body jpg = Unsavable format mode message
              /\ files mixed_after !! webp_path_of "bars.JPG"
                 = Some {| mtime := (fun _ : string => 100) f;
                           body := Corrupt "cannot identify image file" |})).
Proof.
  apply (main_changes_outputs_only (Some mixed_listing) (fun _ => 100) mixed_world
           (Ok tt) mixed_after (webp_path_of "bars.JPG")).
  - vm_compute. reflexivity.
  - vm_compute. discriminate.
Defined.

(** A picture too wide for the format: the error is printed, the stale
    output is left empty, and the count is 1 all the same. *)
Lemma refused_picture_empties_output :
  main (Some ["pano.jpg"]) (fun _ => 100) wide_world
  = (Ok tt,
     {| files := <[webp_path_of "pano.jpg" := emptied 100]> wide_files;
        out := [Started; ConversionError (jpg_path_of "pano.jpg") "encoding error 5";
                Summary 1] |}).
Proof. vm_compute. reflexivity. Qed.

(** X12: a run never deletes an entry and never touches a JPG: every
    entry present before the run is present after it, and the entry of
    every JPG name (listed or not) is exactly what it was. *)
Theorem main_keeps_sources listing clock w g :
  (forall p, is_Some (files w !! p) -> is_Some (files (snd (main listing clock w)) !! p))
  /\ (is_jpg g = true ->
      files (snd (main listing clock w)) !! jpg_path_of g = files w !! jpg_path_of g).
Proof.
  destruct (main listing clock w) as [r w'] eqn:Hrun. cbn [snd]. split.
  - intros p Hp.
    destruct (main_written _ _ _ _ _ p Hrun) as [->|(? & ? & ? & ? & H)]; [exact Hp|].
    destruct H as (_ & _ & _ & _ & _ & -> & _). eauto.
  - intros Hg.
    destruct (main_written _ _ _ _ _ (jpg_path_of g) Hrun)
      as [H|(? & f & ? & ? & _ & _ & _ & Heq & _)]; [exact H|].
    exfalso. revert Heq. apply jpg_path_is_no_webp_path. exact Hg.
Qed.

Lemma counted_cons ev evs :
  counted (ev :: evs) = (if is_skipped ev then 0 else 1) + counted evs.
Proof. unfold counted. cbn [List.filter]. destruct (is_skipped ev); cbn [negb length]; lia. Qed.

Lemma skipped_cons ev evs :
  skipped (ev :: evs) = (if is_skipped ev then 1 else 0) + skipped evs.
Proof. unfold skipped. cbn [List.filter]. destruct (is_skipped ev); cbn [length]; lia. Qed.

Lemma convert_all_reports l clock : forall c w c' w',
  convert_all l clock c w = (Ok c', w') ->
  exists evs, out w' = out w ++ evs /\ Forall2 report_of l evs /\ c' = c + counted evs.
Proof.
  induction l as [|f rest IH]; intros c w c' w' Hrun.
  - injection Hrun as <- <-. exists []. rewrite app_nil_r.
    split; [reflexivity|]. split; [constructor|]. change (counted []) with 0. lia.
  - cbn [convert_all] in Hrun. unfold bind at 1 in Hrun.
    destruct (up_to_date _ _ w) as [[[]|e] wa] eqn:Hup; [| |discriminate Hrun];
      pose proof (up_to_date_store _ _ _ _ _ Hup) as ->.
    + unfold bind at 1, print, modify in Hrun.
      apply IH in Hrun as (evs & H1 & H2 & H3). cbn [out] in H1.
      exists (Skipped f :: evs). rewrite H1, <- app_assoc. split; [reflexivity|].
      split; [constructor; [left; reflexivity | exact H2]|].
      rewrite counted_cons. cbn [is_skipped]. lia.
    + unfold bind at 1 in Hrun.
      destruct (convert_step f (clock f) w) as (ev & fs' & Hconv & Hline & Hsk & _).
      rewrite Hconv in Hrun. apply IH in Hrun as (evs & H1 & H2 & H3). cbn [out] in H1.
      exists (ev :: evs). rewrite H1, <- app_assoc. split; [reflexivity|].
      split; [constructor; assumption|]. rewrite counted_cons, Hsk. lia.
Qed.

Lemma skipped_counted evs : skipped evs + counted evs = Z.of_nat (length evs).
Proof.
  induction evs as [|ev evs IH]; [reflexivity|].
  rewrite skipped_cons, counted_cons. cbn [length]. destruct (is_skipped ev); lia.
Qed.

(** X13: a run that finds JPG names and returns prints, between the
    opening message and the closing message (the two lines 64-65),
    exactly one message per JPG name, in the order of the listing: the
    skip line of that name, the two lines of a success (lines 26-27) or
    the error line of its path. The count of the closing message is the
    number of messages that are no skip line, successes and errors
    alike, so that the count and the number of skipped names add up to
    the number of JPG names. *)
Theorem one_report_per_jpg names clock w w' :
  List.filter is_jpg names <> [] ->
  main (Some names) clock w = (Ok tt, w') ->
  exists evs n,
    out w' = out w ++ Started :: evs ++ [Summary n]
    /\ Forall2 report_of (List.filter is_jpg names) evs
    /\ n = counted evs
    /\ n + skipped evs = Z.of_nat (length (List.filter is_jpg names)).
Proof.
  cbn [main]. unfold bind at 1, print at 1, modify.
  destruct (List.filter is_jpg names) as [|f0 rest]; [intros H; contradiction|].
  intros _ Hrun. unfold bind at 1 in Hrun.
  destruct (convert_all (f0 :: rest) clock 0 _) as [[c'|e] w1] eqn:Hall; [|discriminate Hrun].
  injection Hrun as <-. apply convert_all_reports in Hall as (evs & H1 & H2 & H3).
  cbn [out] in *. exists evs, c'. rewrite H1, <- !app_assoc. split; [reflexivity|].
  split; [exact H2|]. split; [lia|].
  rewrite (Forall2_length _ _ _ H2), <- skipped_counted. lia.
Qed.

Lemma one_report_per_jpg_witness :
  exists evs n,
    out mixed_after = out mixed_world ++ Started :: evs ++ [Summary n]
    /\ Forall2 report_of (List.filter is_jpg mixed_listing) evs
    /\ n = counted evs
    /\ n + skipped evs = Z.of_nat (length (List.filter is_jpg mixed_listing)).
Proof.
  apply (one_report_per_jpg mixed_listing (fun _ => 100) mixed_world mixed_after).
  - vm_compute. discriminate.
  - vm_compute. reflexivity.
Defined.

(** X14: the two early returns. When the directory is missing, or when
    no listed name ends in .jpg (in any case), the run prints its
    message (after the opening line in the second case), prints no
    summary, returns normally and leaves every entry as it is. *)
Theorem nothing_to_convert listing clock w :
  (forall names f, listing = Some names -> In f names -> is_jpg f = false) ->
  main listing clock w
  = (Ok tt, {| files := files w;
               out := out w ++ match listing with
                               | Some _ => [Started; NoJpgFound]
                               | None => [DirectoryNotFound]
                               end |}).
Proof.
  intros Hl. destruct listing as [names|]; cbn [main]; [|reflexivity].
  unfold bind at 1, print at 1, modify.
  replace (List.filter is_jpg names) with (@nil string).
  - unfold print, modify. cbn [files out]. rewrite <- app_assoc. reflexivity.
  - symmetry. clear clock w. induction names as [|f names IH]; [reflexivity|].
    cbn [List.filter]. rewrite (Hl _ f eq_refl (or_introl eq_refl)).
    apply IH. intros names' g [= <-] Hg. apply (Hl _ g eq_refl). right. exact Hg.
Qed.

Lemma nothing_to_convert_witness :
  main (Some outputs_only) (fun _ => 100) mixed_world
  = (Ok tt, {| files := files mixed_world;
               out := out mixed_world ++ [Started; NoJpgFound] |}).
Proof.
  apply (nothing_to_convert (Some outputs_only) (fun _ => 100) mixed_world).
  intros names f [= <-] Hin. destruct Hin as [<-|[<-|[<-|[]]]]; reflexivity.
Defined.

End ConverterFacts.

(** ** The sitemap builder *)

Module SitemapFacts.
Import PyStr Sitemap.

Lemma lookup_remove_same key fields : lookup_field key (remove_field key fields) = None.
Proof.
  induction fields as [|[k v] rest IH]; cbn; [reflexivity|].
  destruct (String.eqb key k) eqn:E; [exact IH|]. cbn. rewrite E. exact IH.
Qed.

Lemma lookup_remove_other key key' fields :
  key <> key' -> lookup_field key' (remove_field key fields) = lookup_field key' fields.
Proof.
  intros Hne. induction fields as [|[k v] rest IH]; cbn; [reflexivity|].
  destruct (String.eqb key k) eqn:E.
  - apply String.eqb_eq in E. subst k.
    replace (String.eqb key' key) with false; [exact IH|].
    symmetry. apply String.eqb_neq. congruence.
  - cbn. rewrite IH. reflexivity.
Qed.

Section Facts.
Variable ROOT_DIR TODAY : string.
Variable json_load : string -> option json.
Variable py_str : json -> string.

Lemma recipe_lastmod_unfold fields :
  recipe_lastmod TODAY (JObj fields)
  = match truthy_field "dateModified" fields with
    | Some m => m
    | None =>
        match truthy_field "datePublished" fields with
        | Some p => p
        | None => JStr TODAY
        end
    end.
Proof.
  unfold recipe_lastmod, py_or, dict_get, truthy_field.
  destruct (lookup_field "dateModified" fields) as [m|]; cbn [default from_option id];
    [destruct (truthy m) eqn:Hm; cbv iota; [rewrite Hm; reflexivity|] | cbn [truthy]];
    (destruct (lookup_field "datePublished" fields) as [p|]; cbn [default from_option id];
     [destruct (truthy p); reflexivity | reflexivity]).
Qed.

(** C4 (as the code has it): the [<lastmod>] value of a recipe record
    is its "dateModified" value when that key is present with a truthy
    value, else its "datePublished" value when present with a truthy
    value, else the run date; a record with a slug never raises,
    whichever of the two date keys it has. *)
Theorem lastmod_precedence fields :
  recipe_lastmod TODAY (JObj fields)
  = match truthy_field "dateModified" fields with
    | Some m => m
    | None =>
        match truthy_field "datePublished" fields with
        | Some p => p
        | None => JStr TODAY
        end
    end
  /\ (forall slug,
        lookup_field "slug" fields = Some slug ->
        recipe_entry TODAY py_str (JObj fields)
        = Ok (build_url_entry ("/recipes/" +:+ format_value py_str slug)
                (format_value py_str (recipe_lastmod TODAY (JObj fields))) "monthly" "0.8")).
Proof.
  split; [apply recipe_lastmod_unfold|].
  intros slug Hslug. unfold recipe_entry, subscript. rewrite Hslug. reflexivity.
Qed.

(** C10: a "dateModified" key that is present with a falsy value is
    treated as if the key were absent: the builder uses "datePublished"
    when that is truthy, else the run date. *)
Theorem falsy_modified_falls_through fields v :
  lookup_field "dateModified" fields = Some v ->
  truthy v = false ->
  recipe_lastmod TODAY (JObj fields)
  = recipe_lastmod TODAY (JObj (remove_field "dateModified" fields))
  /\ recipe_lastmod TODAY (JObj fields)
     = match lookup_field "datePublished" fields with
       | Some p => if truthy p then p else JStr TODAY
       | None => JStr TODAY
       end.
Proof.
  intros Hv Hfalsy. rewrite !recipe_lastmod_unfold. unfold truthy_field.
  rewrite lookup_remove_same, lookup_remove_other by discriminate.
  rewrite Hv, Hfalsy. split; [reflexivity|].
  destruct (lookup_field "datePublished" fields) as [p|]; [destruct (truthy p)|]; reflexivity.
Qed.

End Facts.

(** A record with a publication date only. *)
Lemma lastmod_precedence_witness :
  recipe_entry "2026-01-15" (fun _ => "?")
    (JObj [("slug", JStr "bars"); ("datePublished", JStr "2024-05-01")])
  = Ok (build_url_entry "/recipes/bars" "2024-05-01" "monthly" "0.8").
Proof.
  exact (proj2 (lastmod_precedence "2026-01-15" (fun _ => "?")
                  [("slug", JStr "bars"); ("datePublished", JStr "2024-05-01")])
           (JStr "bars") eq_refl).
Defined.

(** C4 as stated fails on a key that is present with a falsy value: the
    record has an empty "dateModified", and its [<lastmod>] is the
    publication date, not the value of the key that is present. *)
Lemma present_but_empty_date_is_skipped :
  recipe_lastmod "2026-01-15"
    (JObj [("slug", JStr "bars"); ("dateModified", JStr EmptyString);
           ("datePublished", JStr "2024-05-01")])
  = JStr "2024-05-01"
  /\ lastmod_by_presence "2026-01-15"
       [("slug", JStr "bars"); ("dateModified", JStr EmptyString);
        ("datePublished", JStr "2024-05-01")]
     = JStr EmptyString
  /\ recipe_lastmod "2026-01-15"
       (JObj [("slug", JStr "bars"); ("dateModified", JStr EmptyString);
              ("datePublished", JStr "2024-05-01")])
     <> lastmod_by_presence "2026-01-15"
          [("slug", JStr "bars"); ("dateModified", JStr EmptyString);
           ("datePublished", JStr "2024-05-01")].
Proof. repeat split; try reflexivity. discriminate. Qed.

(** A record whose modification date is null. *)
Lemma falsy_modified_falls_through_witness :
  recipe_lastmod "2026-01-15" (JObj [("slug", JStr "bars"); ("dateModified", JNull)])
  = recipe_lastmod "2026-01-15"
      (JObj (remove_field "dateModified" [("slug", JStr "bars"); ("dateModified", JNull)]))
  /\ recipe_lastmod "2026-01-15" (JObj [("slug", JStr "bars"); ("dateModified", JNull)])
     = JStr "2026-01-15".
Proof.
  exact (falsy_modified_falls_through "2026-01-15"
           [("slug", JStr "bars"); ("dateModified", JNull)] JNull eq_refl eq_refl).
Defined.

Lemma traverse_raises {A B : Type} (f : A -> result B) (l : list A) (a : A) :
  In a l -> is_ok (f a) = false -> is_ok (traverse f l) = false.
Proof.
  induction l as [|x rest IH]; intros Hin Hbad; [destruct Hin|].
  cbn [traverse]. destruct (f x) as [b|e] eqn:Hx; cbn [rbind]; [|reflexivity].
  destruct Hin as [->|Hin]; [rewrite Hx in Hbad; discriminate Hbad|].
  specialize (IH Hin Hbad). destruct (traverse f rest); [discriminate IH | reflexivity].
Qed.

Section Failure.
Variable ROOT_DIR TODAY : string.
Variable json_load : string -> option json.
Variable py_str : json -> string.

(** C5: when the recipes file is missing, or does not decode, or a
    record of the recipes array has no "slug" key, [generate] raises
    before the output file is opened for writing: no file is written or
    changed, and the run opened nothing for writing. *)
Theorem failed_load_leaves_sitemap (w : world) :
  disk w !! RECIPES_JSON ROOT_DIR = None
  \/ (exists text, disk w !! RECIPES_JSON ROOT_DIR = Some text /\ json_load text = None)
  \/ (exists text data items item,
        disk w !! RECIPES_JSON ROOT_DIR = Some text
        /\ json_load text = Some data
        /\ subscript data "recipes" = Ok (JArr items)
        /\ In item items /\ lacks_slug item) ->
  exists e w' events,
    generate ROOT_DIR TODAY json_load py_str w = (Raise e, w')
    /\ disk w' = disk w
    /\ trace w' = trace w ++ events
    /\ forall path, ~ In (OpenWrite path) events.
Proof.
  unfold generate. unfold bind at 1, read_file.
  intros [Hmissing | [(text & Htext & Hbad) | (text & data & items & item & Htext & Hload & Hrec & Hin & Hslug)]].
  - rewrite Hmissing. exists (FileNotFoundError (RECIPES_JSON ROOT_DIR)), w, [].
    rewrite app_nil_r. repeat split; auto.
  - rewrite Htext. unfold bind at 1, lift. rewrite Hbad.
    eexists _, _, [OpenRead _]. repeat split.
    intros path [H|[]]; discriminate H.
  - rewrite Htext. unfold bind at 1, lift. rewrite Hload.
    unfold bind at 1. rewrite Hrec. unfold bind at 1. cbn [iterate].
    unfold bind at 1.
    assert (Hfail : is_ok (traverse (recipe_entry TODAY py_str) items) = false).
    { apply (traverse_raises _ _ item Hin).
      destruct Hslug as (fields & -> & Hnone).
      unfold recipe_entry, subscript. rewrite Hnone. reflexivity. }
    destruct (traverse _ items) as [es|e]; [discriminate Hfail|].
    eexists e, _, [OpenRead _]. repeat split.
    intros path [H|[]]; discriminate H.
Qed.

End Failure.

Lemma failed_load_leaves_sitemap_witness :
  exists e w' events,
    generate "/site" "2026-01-15" (fun _ => Some sample_recipes) (fun _ => "?") sample_world
    = (Raise e, w')
    /\ disk w' = disk sample_world
    /\ trace w' = trace sample_world ++ events
    /\ forall path, ~ In (OpenWrite path) events.
Proof.
  apply (failed_load_leaves_sitemap "/site" "2026-01-15" (fun _ => Some sample_recipes)
           (fun _ => "?") sample_world).
  right. right.
  exists "{...}", sample_recipes, [JObj [("title", JStr "Bars")]], (JObj [("title", JStr "Bars")]).
  split; [vm_compute; reflexivity|].
  split; [reflexivity|]. split; [reflexivity|].
  split; [left; reflexivity|].
  exists [("title", JStr "Bars")]. split; reflexivity.
Defined.

(** *** Further properties of the sitemap builder *)

Import PyStrFacts.

Lemma path_join_last_char a b c :
  last_char b = Some c -> last_char (path_join a b) = Some c.
Proof.
  intros Hb. unfold path_join. destruct (String.eqb a EmptyString); [exact Hb|].
  destruct (endswith a "/").
  - apply last_char_app. exact Hb.
  - apply last_char_app. apply last_char_app. exact Hb.
Qed.

Lemma paths_differ ROOT_DIR : RECIPES_JSON ROOT_DIR <> SITEMAP_OUT ROOT_DIR.
Proof.
  intros Heq. apply (f_equal last_char) in Heq. unfold RECIPES_JSON, SITEMAP_OUT in Heq.
  rewrite (path_join_last_char _ "recipes.json" "n"),
          (path_join_last_char _ "sitemap.xml" "l") in Heq by reflexivity.
  discriminate Heq.
Qed.

Section Success.
Variable ROOT_DIR TODAY : string.
Variable json_load : string -> option json.
Variable py_str : json -> string.

Lemma recipe_entry_has_slug item :
  has_slug item -> recipe_entry TODAY py_str item = Ok (entry_of TODAY py_str item).
Proof.
  intros (fields & slug & -> & Hslug). unfold recipe_entry, entry_of, subscript, dict_get.
  rewrite Hslug. reflexivity.
Qed.

Lemma recipe_entry_ok item e :
  recipe_entry TODAY py_str item = Ok e -> has_slug item /\ e = entry_of TODAY py_str item.
Proof.
  unfold recipe_entry, subscript. destruct item as [| | | | |items|fields]; try discriminate.
  destruct (lookup_field "slug" fields) as [slug|] eqn:Hslug; [|discriminate].
  cbn [rbind]. intros [= <-]. split; [exists fields, slug; auto|].
  unfold entry_of, dict_get. rewrite Hslug. reflexivity.
Qed.

Lemma traverse_entries items es :
  traverse (recipe_entry TODAY py_str) items = Ok es ->
  Forall has_slug items /\ es = map (entry_of TODAY py_str) items.
Proof.
  revert es. induction items as [|item rest IH]; intros es; cbn [traverse].
  - intros [= <-]. split; [constructor | reflexivity].
  - destruct (recipe_entry TODAY py_str item) as [e|] eqn:He; [|discriminate].
    cbn [rbind]. destruct (traverse _ rest) as [es'|]; [|discriminate].
    cbn [rbind]. intros [= <-]. apply recipe_entry_ok in He as [Hs ->].
    destruct (IH es' eq_refl) as [Hrest ->]. split; [constructor; assumption | reflexivity].
Qed.

Lemma traverse_has_slug items :
  Forall has_slug items ->
  traverse (recipe_entry TODAY py_str) items = Ok (map (entry_of TODAY py_str) items).
Proof.
  induction 1 as [|item rest Hitem Hrest IH]; [reflexivity|].
  cbn [traverse]. rewrite (recipe_entry_has_slug _ Hitem), IH. reflexivity.
Qed.

Lemma print_recipes_has_slug items : forall w,
  Forall has_slug items ->
  print_recipes py_str items w
  = (Ok tt, {| disk := disk w; trace := trace w ++ map (recipe_line py_str) items |}).
Proof.
  induction items as [|item rest IH]; intros w Hall.
  - cbn. rewrite app_nil_r. destruct w; reflexivity.
  - inversion Hall as [|? ? (fields & slug & -> & Hslug) Hrest]; subst.
    cbn [print_recipes]. unfold bind at 1, lift, subscript. rewrite Hslug.
    unfold bind at 1, emit, modify. rewrite IH by exact Hrest. cbn [disk trace map].
    unfold recipe_line at 2, dict_get. rewrite Hslug. cbn [default from_option id].
    rewrite <- app_assoc. reflexivity.
Qed.

(** The run once the recipes file is decoded and its "recipes" value is
    known to iterate over [items]. *)
Lemma generate_on_items w text data recipes items :
  disk w !! RECIPES_JSON ROOT_DIR = Some text ->
  json_load text = Some data ->
  subscript data "recipes" = Ok recipes ->
  iterate recipes = Ok items ->
  generate ROOT_DIR TODAY json_load py_str w
  = match traverse (recipe_entry TODAY py_str) items with
    | Ok es =>
        (Ok tt,
         {| disk := <[SITEMAP_OUT ROOT_DIR := document TODAY es]> (disk w);
            trace := trace w
                     ++ [OpenRead (RECIPES_JSON ROOT_DIR); OpenWrite (SITEMAP_OUT ROOT_DIR);
                         PrintSummary (json_len recipes) 5]
                     ++ map (recipe_line py_str) items |})
    | Raise e =>
        (Raise e, {| disk := disk w; trace := trace w ++ [OpenRead (RECIPES_JSON ROOT_DIR)] |})
    end.
Proof.
  intros Htext Hload Hrec Hiter. unfold generate. unfold bind at 1, read_file. rewrite Htext.
  unfold bind at 1, lift. rewrite Hload. unfold bind at 1. rewrite Hrec.
  unfold bind at 1. rewrite Hiter. unfold bind at 1.
  destruct (traverse _ items) as [es|e] eqn:Htr; [|reflexivity].
  apply traverse_entries in Htr as [Hall ->].
  unfold bind at 1, write_file. unfold bind at 1, emit, modify.
  rewrite print_recipes_has_slug by exact Hall. cbn [disk trace].
  unfold document. rewrite <- !app_assoc. reflexivity.
Qed.

(** Where a run stops before it has the records: the recipes file is
    missing, does not decode, has no "recipes" value, or that value is
    not iterable. *)
Lemma generate_stages w :
  (exists e events,
      generate ROOT_DIR TODAY json_load py_str w
      = (Raise e, {| disk := disk w; trace := trace w ++ events |})
      /\ forall path, ~ In (OpenWrite path) events)
  \/ (exists text data recipes items,
        disk w !! RECIPES_JSON ROOT_DIR = Some text
        /\ json_load text = Some data
        /\ subscript data "recipes" = Ok recipes
        /\ iterate recipes = Ok items).
Proof.
  destruct (disk w !! RECIPES_JSON ROOT_DIR) as [text|] eqn:Htext.
  - destruct (json_load text) as [data|] eqn:Hload.
    + destruct (subscript data "recipes") as [recipes|e] eqn:Hrec.
      * destruct (iterate recipes) as [items|e] eqn:Hiter.
        -- right. exists text, data, recipes, items. auto.
        -- left. exists e, [OpenRead (RECIPES_JSON ROOT_DIR)].
           unfold generate. unfold bind at 1, read_file. rewrite Htext.
           unfold bind at 1, lift. rewrite Hload. unfold bind at 1. rewrite Hrec.
           unfold bind at 1. rewrite Hiter. split; [reflexivity|].
           intros path [H|[]]; discriminate H.
      * left. exists e, [OpenRead (RECIPES_JSON ROOT_DIR)].
        unfold generate. unfold bind at 1, read_file. rewrite Htext.
        unfold bind at 1, lift. rewrite Hload. unfold bind at 1. rewrite Hrec.
        split; [reflexivity|]. intros path [H|[]]; discriminate H.
    + left. exists JSONDecodeError, [OpenRead (RECIPES_JSON ROOT_DIR)].
      unfold generate. unfold bind at 1, read_file. rewrite Htext.
      unfold bind at 1, lift. rewrite Hload. split; [reflexivity|].
      intros path [H|[]]; discriminate H.
  - left. exists (FileNotFoundError (RECIPES_JSON ROOT_DIR)), [].
    unfold generate. unfold bind at 1, read_file. rewrite Htext, app_nil_r.
    destruct w; split; [reflexivity|]. intros path [].
Qed.

(** X15: on a recipes file that decodes to an object whose "recipes"
    value is an array of records that all have a "slug", and when the
    text of the sitemap is ASCII throughout (so that it can be written
    whatever the encoding of the file), the run returns normally; it
    writes one file, the sitemap, whose text is the prolog, the five
    static entries, then one entry per record in the order of the array
    (a repeated slug is repeated), then the epilog; every other file is
    left as it is; and it opens the recipes file, then the sitemap, and
    prints the summary with the number of records followed by one line
    per record. *)
Theorem generate_writes_one_entry_per_recipe w text data items :
  disk w !! RECIPES_JSON ROOT_DIR = Some text ->
  json_load text = Some data ->
  subscript data "recipes" = Ok (JArr items) ->
  Forall has_slug items ->
  is_ascii (document TODAY (map (entry_of TODAY py_str) items)) = true ->
  generate ROOT_DIR TODAY json_load py_str w
  = (Ok tt,
     {| disk := <[SITEMAP_OUT ROOT_DIR := document TODAY (map (entry_of TODAY py_str) items)]>
                  (disk w);
        trace := trace w
                 ++ [OpenRead (RECIPES_JSON ROOT_DIR); OpenWrite (SITEMAP_OUT ROOT_DIR);
                     PrintSummary (length items) 5]
                 ++ map (recipe_line py_str) items |}).
Proof.
  intros Htext Hload Hrec Hall _.
  rewrite (generate_on_items w text data (JArr items) items Htext Hload Hrec eq_refl).
  rewrite (traverse_has_slug _ Hall). reflexivity.
Qed.

(** X17: a second run on the same day repeats the first. After a run
    that returned, a second run (same date, same decoder) returns too
    and leaves the disk exactly as the first run left it: the sitemap is
    rewritten with the same text, since the first run did not change the
    recipes file. *)
Theorem generate_twice w w1 :
  generate ROOT_DIR TODAY json_load py_str w = (Ok tt, w1) ->
  exists w2, generate ROOT_DIR TODAY json_load py_str w1 = (Ok tt, w2) /\ disk w2 = disk w1.
Proof.
  intros Hrun.
  destruct (generate_stages w)
    as [(e & events & H & _)|(text & data & recipes & items & Htext & Hload & Hrec & Hiter)].
  - rewrite H in Hrun. discriminate Hrun.
  - rewrite (generate_on_items w text data recipes items Htext Hload Hrec Hiter) in Hrun.
    destruct (traverse _ items) as [es|e] eqn:Htr; [|discriminate Hrun].
    injection Hrun as <-.
    rewrite (generate_on_items _ text data recipes items); cbn [disk trace]; auto.
    + rewrite Htr. eexists. split; [reflexivity|]. cbn [disk]. apply insert_insert_eq.
    + rewrite lookup_insert_ne; [exact Htext|].
      intros Heq. symmetry in Heq. revert Heq. apply paths_differ.
Qed.

(** X18: a "recipes" value that is not an array. An empty object and an
    empty string are accepted like an empty array: the run returns and
    writes the sitemap of the static pages alone. Any other value
    (null, a number, a boolean, a non-empty object or string) makes the
    run raise TypeError before anything is written. *)
Theorem recipes_that_are_no_array w text data recipes :
  disk w !! RECIPES_JSON ROOT_DIR = Some text ->
  json_load text = Some data ->
  subscript data "recipes" = Ok recipes ->
  is_array recipes = false ->
  generate ROOT_DIR TODAY json_load py_str w
  = if empty_non_array recipes
    then (Ok tt,
          {| disk := <[SITEMAP_OUT ROOT_DIR := document TODAY []]> (disk w);
             trace := trace w
                      ++ [OpenRead (RECIPES_JSON ROOT_DIR); OpenWrite (SITEMAP_OUT ROOT_DIR);
                          PrintSummary 0 5] |})
    else (Raise TypeError,
          {| disk := disk w; trace := trace w ++ [OpenRead (RECIPES_JSON ROOT_DIR)] |}).
Proof.
  intros Htext Hload Hrec Harr.
  destruct recipes as [|b|n|x|s|items|fields]; try discriminate Harr; cbn [empty_non_array].
  1-4: unfold generate; unfold bind at 1, read_file; rewrite Htext;
       unfold bind at 1, lift; rewrite Hload; unfold bind at 1; rewrite Hrec;
       reflexivity.
  - rewrite (generate_on_items w text data (JStr s) (chars s) Htext Hload Hrec eq_refl).
    destruct s as [|c s]; reflexivity.
  - rewrite (generate_on_items w text data (JObj fields) _ Htext Hload Hrec eq_refl).
    destruct fields as [|[k v] fields]; reflexivity.
Qed.

End Success.

Section Lastmod.
Variable TODAY : string.

(** X19: the date of a recipe entry is never blank. Provided the run date
    is not the empty string (an ISO date never is), the value chosen for
    [<lastmod>] is truthy: it is not null, not false, not zero, not an
    empty container and, when it is a string, not the empty string. *)
Theorem lastmod_is_never_blank (recipe : json) :
  TODAY <> EmptyString ->
  truthy (recipe_lastmod TODAY recipe) = true
  /\ recipe_lastmod TODAY recipe <> JNull
  /\ recipe_lastmod TODAY recipe <> JStr EmptyString.
Proof.
  intros Htoday.
  assert (H : truthy (recipe_lastmod TODAY recipe) = true).
  { unfold recipe_lastmod, py_or.
    destruct (truthy (dict_get recipe "dateModified")) eqn:Hm; rewrite ?Hm; [reflexivity|].
    destruct (truthy (dict_get recipe "datePublished")) eqn:Hp; rewrite ?Hp; [reflexivity|].
    cbn [truthy]. apply negb_true_iff, String.eqb_neq. exact Htoday. }
  split; [exact H|]. split; intros Heq; rewrite Heq in H; discriminate H.
Qed.

End Lastmod.

Lemma generate_writes_one_entry_per_recipe_witness :
  generate "/site" "2026-01-15" (fun _ => Some two_recipes) (fun _ => "?") sample_world
  = (Ok tt,
     {| disk := <[SITEMAP_OUT "/site"
                  := document "2026-01-15" (map (entry_of "2026-01-15" (fun _ => "?")) two_items)]>
                  (disk sample_world);
        trace := trace sample_world
                 ++ [OpenRead (RECIPES_JSON "/site"); OpenWrite (SITEMAP_OUT "/site");
                     PrintSummary (length two_items) 5]
                 ++ map (recipe_line (fun _ => "?")) two_items |}).
Proof.
  apply (generate_writes_one_entry_per_recipe "/site" "2026-01-15" (fun _ => Some two_recipes)
           (fun _ => "?") sample_world "{...}" two_recipes two_items).
  - vm_compute. reflexivity.
  - reflexivity.
  - reflexivity.
  - repeat constructor; eexists _, _; split; reflexivity.
  - vm_compute. reflexivity.
Defined.

Lemma generate_twice_witness :
  exists w2,
    generate "/site" "2026-01-15" (fun _ => Some two_recipes) (fun _ => "?") two_world = (Ok tt, w2)
    /\ disk w2 = disk two_world.
Proof.
  apply (generate_twice "/site" "2026-01-15" (fun _ => Some two_recipes) (fun _ => "?")
           sample_world two_world).
  vm_compute. reflexivity.
Defined.

Lemma recipes_that_are_no_array_witness :
  generate "/site" "2026-01-15" (fun _ => Some no_recipes) (fun _ => "?") sample_world
  = (Ok tt,
     {| disk := <[SITEMAP_OUT "/site" := document "2026-01-15" []]> (disk sample_world);
        trace := trace sample_world
                 ++ [OpenRead (RECIPES_JSON "/site"); OpenWrite (SITEMAP_OUT "/site");
                     PrintSummary 0 5] |}).
Proof.
  apply (recipes_that_are_no_array "/site" "2026-01-15" (fun _ => Some no_recipes) (fun _ => "?")
           sample_world "{...}" no_recipes (JObj [])).
  - vm_compute. reflexivity.
  - reflexivity.
  - reflexivity.
  - reflexivity.
Defined.

Lemma lastmod_is_never_blank_witness :
  truthy (recipe_lastmod "2026-01-15" (JObj [("slug", JStr "bars"); ("dateModified", JNull)])) = true
  /\ recipe_lastmod "2026-01-15" (JObj [("slug", JStr "bars"); ("dateModified", JNull)]) <> JNull
  /\ recipe_lastmod "2026-01-15" (JObj [("slug", JStr "bars"); ("dateModified", JNull)])
     <> JStr EmptyString.
Proof.
  apply (lastmod_is_never_blank "2026-01-15" (JObj [("slug", JStr "bars"); ("dateModified", JNull)])).
  discriminate.
Defined.

End SitemapFacts.
